(** * Verification of the traefik-real-ip middleware

    A shallow embedding of the Go sources of darki73/traefik-real-ip:
    - [src/pkg/providers/generic.go], [cloudflare.go], [qrator.go],
      [providers.go]: the header providers and their registry;
    - [src/real_ip.go]: the handler that keeps one field per provider;
    - the second [real_ip.go] of the sources: the handler that keeps the
      providers in a map behind [ProviderInterface].

    Go maps are stdpp [gmap]s; a [range] over a map visits the keys in an
    order chosen by the runtime, which the model receives as an argument.
    Mutation through pointers is explicit state passing. Package [net]
    and the tables of package [unicode] are interfaces the model is
    parametric in. *)

From Stdlib Require Import ZArith Ascii String.
From stdpp Require Import gmap strings list fin_maps.

Open Scope string_scope.
Open Scope list_scope.

(** ** The Go standard library, as far as the sources use it *)

(** *** Package [strings] *)

(** Go strings are strings of bytes, and so are the strings of the
    model; text is in UTF-8. *)
Module GoStrings.

(** [asciiSpace]: the white space below [utf8.RuneSelf], which is
    ['\t'], ['\n'], ['\v'], ['\f'], ['\r'] and [' ']. *)
Definition isSpace (c : ascii) : bool :=
  let n := nat_of_ascii c in
  ((9 <=? n)%nat && (n <=? 13)%nat) || (n =? 32)%nat.

(** The runes of [unicode.IsSpace] from U+0080 on, in UTF-8: U+0085 and
    U+00A0 take two bytes, [0xC2 0x85] and [0xC2 0xA0]. *)
Definition isSpace2 (c1 c2 : ascii) : bool :=
  let a := nat_of_ascii c1 in
  let b := nat_of_ascii c2 in
  (a =? 194)%nat && ((b =? 133)%nat || (b =? 160)%nat).

(** U+1680 is [0xE1 0x9A 0x80]; U+2000 to U+200A are [0xE2 0x80 0x80] to
    [0xE2 0x80 0x8A]; U+2028, U+2029 and U+202F are [0xE2 0x80] and [0xA8],
    [0xA9], [0xAF]; U+205F is [0xE2 0x81 0x9F]; U+3000 is [0xE3 0x80 0x80]. *)
Definition isSpace3 (c1 c2 c3 : ascii) : bool :=
  let a := nat_of_ascii c1 in
  let b := nat_of_ascii c2 in
  let c := nat_of_ascii c3 in
  ((a =? 225)%nat && (b =? 154)%nat && (c =? 128)%nat)
  || ((a =? 226)%nat && (b =? 128)%nat
      && (((128 <=? c)%nat && (c <=? 138)%nat)
          || (c =? 168)%nat || (c =? 169)%nat || (c =? 175)%nat))
  || ((a =? 226)%nat && (b =? 129)%nat && (c =? 159)%nat)
  || ((a =? 227)%nat && (b =? 128)%nat && (c =? 128)%nat).

(** The number of bytes of the white-space rune a string starts with;
    0 when it starts with none. Bytes that are no UTF-8 decode as
    [utf8.RuneError], which is no white space. *)
Definition spaceWidth (s : string) : nat :=
  match s with
  | String c1 s1 =>
      if isSpace c1 then 1
      else match s1 with
           | String c2 s2 =>
               if isSpace2 c1 c2 then 2
               else match s2 with
                    | String c3 _ => if isSpace3 c1 c2 c3 then 3 else 0
                    | EmptyString => 0
                    end
           | EmptyString => 0
           end
  | EmptyString => 0
  end.

(** [strings.TrimLeftFunc s unicode.IsSpace]: the string from its first
    rune that is no white space. *)
Fixpoint TrimLeft (s : string) : string :=
  match s with
  | EmptyString => EmptyString
  | String c1 s1 =>
      if isSpace c1 then TrimLeft s1
      else match s1 with
           | String c2 s2 =>
               if isSpace2 c1 c2 then TrimLeft s2
               else match s2 with
                    | String c3 s3 => if isSpace3 c1 c2 c3 then TrimLeft s3 else s
                    | EmptyString => s
                    end
           | EmptyString => s
           end
  end.

(** A string of white-space runes and nothing else. *)
Definition allSpace (s : string) : bool :=
  match TrimLeft s with EmptyString => true | _ => false end.

(** [strings.TrimRightFunc s unicode.IsSpace]: the string without the
    white-space runes it ends with, that is, up to the first place from
    which white space is all that follows. *)
Fixpoint TrimRight (s : string) : string :=
  match s with
  | EmptyString => EmptyString
  | String c s' => if allSpace s then EmptyString else String c (TrimRight s')
  end.

(** [strings.TrimSpace]. *)
Definition TrimSpace (s : string) : string := TrimRight (TrimLeft s).

(** The string after its first [n] bytes. *)
Fixpoint skip (n : nat) (s : string) : string :=
  match n, s with
  | S n', String _ s' => skip n' s'
  | _, _ => s
  end.

(** A string from the bytes given as numbers. *)
Definition ofBytes (l : list nat) : string := string_of_list_ascii (map ascii_of_nat l).

(** [strings.Split s sep] for a separator of one byte. *)
Fixpoint Split (s : string) (sep : ascii) : list string :=
  match s with
  | EmptyString => [EmptyString]
  | String c s' =>
      if Ascii.eqb c sep then EmptyString :: Split s' sep
      else match Split s' sep with
           | hd :: tl => String c hd :: tl
           | [] => [String c EmptyString]
           end
  end.

Definition lowerByte (c : ascii) : ascii :=
  let n := nat_of_ascii c in
  if (65 <=? n)%nat && (n <=? 90)%nat then ascii_of_nat (n + 32) else c.

Definition upperByte (c : ascii) : ascii :=
  let n := nat_of_ascii c in
  if (97 <=? n)%nat && (n <=? 122)%nat then ascii_of_nat (n - 32) else c.

(** No byte from [utf8.RuneSelf] on. *)
Fixpoint isASCII (s : string) : bool :=
  match s with
  | EmptyString => true
  | String c s' => (nat_of_ascii c <? 128)%nat && isASCII s'
  end.

(** The first branch of [strings.ToLower], for a string in ASCII:
    the letters [A] to [Z] become [a] to [z]. *)
Fixpoint lowerASCII (s : string) : string :=
  match s with
  | EmptyString => EmptyString
  | String c s' => String (lowerByte c) (lowerASCII s')
  end.

(** The tables of package [unicode] are no part of the sources:
    [mapToLower s] stands for [strings.Map(unicode.ToLower, s)], which is
    what [strings.ToLower] returns for a string that is not in ASCII. *)
Class UnicodeTables := { mapToLower : string → string }.

(** [strings.ToLower]. *)
Definition ToLower `{UnicodeTables} (s : string) : string :=
  if isASCII s then lowerASCII s else mapToLower s.

(** [strings.Join]. *)
Fixpoint Join (elems : list string) (sep : string) : string :=
  match elems with
  | [] => ""
  | [e] => e
  | e :: rest => e +:+ sep +:+ Join rest sep
  end.

End GoStrings.

(** *** Packages [net/textproto] and [net/http]: request headers *)
Module GoHTTP.

Definition isLetterOrDigit (n : nat) : bool :=
  ((48 <=? n)%nat && (n <=? 57)%nat)
  || ((65 <=? n)%nat && (n <=? 90)%nat)
  || ((97 <=? n)%nat && (n <=? 122)%nat).

(** [validHeaderFieldByte]: the token characters of RFC 7230. *)
Definition validHeaderFieldByte (c : ascii) : bool :=
  let n := nat_of_ascii c in
  isLetterOrDigit n
  || bool_decide (n ∈ [33; 35; 36; 37; 38; 39; 42; 43; 45; 46; 94; 95; 96; 124; 126]%nat).

Fixpoint validKey (s : string) : bool :=
  match s with
  | EmptyString => true
  | String c s' => validHeaderFieldByte c && validKey s'
  end.

(** The second loop of [canonicalMIMEHeaderKey]: upper case for the first
    letter and after each dash, lower case elsewhere. *)
Fixpoint canonicalize (upper : bool) (s : string) : string :=
  match s with
  | EmptyString => EmptyString
  | String c s' =>
      let c' := if upper then GoStrings.upperByte c else GoStrings.lowerByte c in
      String c' (canonicalize (Ascii.eqb c' "-") s')
  end.

(** [textproto.CanonicalMIMEHeaderKey]: a key with a byte that is not a
    token character is returned as it is. *)
Definition CanonicalMIMEHeaderKey (s : string) : string :=
  if validKey s then canonicalize true s else s.

(** [http.Header] is [map[string][]string]. *)
Abbreviation Header := (gmap string (list string)).

(** [Header.Get]: the first value stored under the canonical key. *)
Definition Get (h : Header) (key : string) : string :=
  match h !! CanonicalMIMEHeaderKey key with
  | Some (v :: _) => v
  | _ => ""
  end.

(** [Header.Set]: replaces whatever is stored under the canonical key. *)
Definition Set_ (h : Header) (key value : string) : Header :=
  <[CanonicalMIMEHeaderKey key := [value]]> h.

(** Of [http.Request] the handler reads and writes the header only. *)
Record Request := mkRequest { Header_ : Header }.

End GoHTTP.

(** *** Package [net]: addresses and networks

    The handler uses four operations of [net] and nothing of the
    representation of addresses, so the library is taken as an interface. *)
Class Net := {
  IP : Type;
  IPNet : Type;
  (** [net.ParseIP]: [None] is the nil address of a failed parse. *)
  ParseIP : string → option IP;
  (** [net.ParseCIDR], its network result: [None] is a parse error. *)
  ParseCIDR : string → option IPNet;
  (** [IPNet.Contains], on a network pointer. *)
  Contains : IPNet → IP → bool;
  (** [IP.Equal]. *)
  Equal : IP → IP → bool
}.

(** An implementation of the interface for IPv4 in dotted decimal: an
    address is a 32-bit integer, a network an address and a prefix mask. *)
Module IPv4.

Definition digit (c : ascii) : option Z :=
  let n := nat_of_ascii c in
  if (48 <=? n)%nat && (n <=? 57)%nat then Some (Z.of_nat n - 48)%Z else None.

(** A run of decimal digits, read as a number of at most 255. *)
Fixpoint decimal (acc : Z) (s : string) : option Z :=
  match s with
  | EmptyString => Some acc
  | String c s' =>
      d ← digit c;
      let acc' := (acc * 10 + d)%Z in
      if (acc' <=? 255)%Z then decimal acc' s' else None
  end.

(** One field of a dotted quad: digits only, no leading zero. *)
Definition octet (s : string) : option Z :=
  match s with
  | EmptyString => None
  | String "0" (String _ _) => None
  | _ => decimal 0 s
  end.

Definition parseIPv4 (s : string) : option Z :=
  match GoStrings.Split s "." with
  | [a; b; c; d] =>
      a ← octet a; b ← octet b; c ← octet c; d ← octet d;
      Some (Z.lor (Z.shiftl a 24) (Z.lor (Z.shiftl b 16) (Z.lor (Z.shiftl c 8) d)))
  | _ => None
  end.

(** The mask of a prefix of [n] bits. *)
Definition CIDRMask (n : Z) : Z := Z.shiftl (Z.ones n) (32 - n).

Definition prefixLength (s : string) : option Z :=
  match s with
  | EmptyString => None
  | _ => n ← decimal 0 s; if (n <=? 32)%Z then Some n else None
  end.

(** The network of [a.b.c.d/n]: the address under the mask, and the mask. *)
Definition parseCIDR (s : string) : option (Z * Z) :=
  match GoStrings.Split s "/" with
  | [addr; len] =>
      ip ← parseIPv4 addr; n ← prefixLength len;
      Some (Z.land ip (CIDRMask n), CIDRMask n)
  | _ => None
  end.

Definition contains (n : Z * Z) (ip : Z) : bool :=
  (Z.land ip n.2 =? n.1)%Z.

#[export] Instance net : Net := {|
  IP := Z;
  IPNet := Z * Z;
  ParseIP := parseIPv4;
  ParseCIDR := parseCIDR;
  Contains := contains;
  Equal := Z.eqb
|}.

End IPv4.

(** *** Text in ASCII, for the examples *)

(** The examples take their provider names in ASCII, where
    [strings.ToLower] does not consult the tables of [unicode]: what
    [mapToLower] is there plays no part, and it is the identity. *)
Module ASCII.

Definition tables : GoStrings.UnicodeTables := {| GoStrings.mapToLower := λ s, s |}.

End ASCII.

(** ** Ranging over a Go map

    The order in which [range] visits a map is not specified and differs
    from one loop to the next. A loop of the model gets the order from an
    [Order]: the rearrangement the runtime applies to the keys of the map.
    The runtime visits every entry once: the rearrangement is [fair]. *)
Definition Order := list string → list string.

Definition fair (o : Order) : Prop := ∀ l, o l ≡ₚ l.

Definition rangeMap {V} (o : Order) (m : gmap string V) : list (string * V) :=
  omap (λ k, (k,.) <$> m !! k) (o (map_to_list m).*1).

(** One order for each [range] statement over a map in the sources. *)
Record Runtime := mkRuntime {
  rangeCloudflareValues : Order; (* cloudflare.go, GetRealIP *)
  rangeQratorValues : Order;     (* qrator.go, GetRealIP *)
  rangeAvailable : Order;        (* providers.go, GetAvailableProviders *)
  rangeCollect : Order;          (* real_ip.go, ServeHTTP, first loop *)
  rangeSelect : Order            (* real_ip.go, ServeHTTP, second loop *)
}.

Definition fairRuntime (rt : Runtime) : Prop :=
  fair (rangeCloudflareValues rt) ∧ fair (rangeQratorValues rt)
  ∧ fair (rangeAvailable rt) ∧ fair (rangeCollect rt) ∧ fair (rangeSelect rt).

(** The runtime that visits every map in the order of [map_to_list]. *)
Definition inOrder : Runtime := mkRuntime id id id id id.

(** The runtime that visits every map in the opposite order. *)
Definition backwards : Runtime := mkRuntime reverse reverse reverse reverse reverse.

(** Go's [error] values, as the handler builds or forwards them. *)
Inductive error :=
| errorString (message : string)          (* errors.New, fmt.Errorf *)
| ParseError (type_ text : string).       (* net.ParseError *)

(** ** Package [providers] *)
Module ProvidersPkg.
Section providers.
Context `{Net}.

Definition _genericProviderXForwardedForHeader := "X-Forwarded-For".
Definition _genericProviderXRealIPHeader := "X-Real-Ip".
Definition _cloudflareProviderTrueClientIPHeader := "True-Client-IP".
Definition _cloudflareProviderCFConnectingIPHeader := "CF-Connecting-IP".
Definition _qratorProviderXQratorIPSourceHeader := "X-Qrator-IP-Source".

Definition ErrorInvalidProvider := errorString "invalid provider".
Definition ErrorInvalidPreferredProvider := errorString "invalid preferred provider".

(** The three struct types [GenericProvider], [CloudflareProvider] and
    [QratorProvider] have the same five fields; [kind] is the dynamic
    type of a [ProviderInterface] value. *)
Inductive ProviderKind := Generic | Cloudflare | Qrator.

Record Provider := mkProvider {
  kind : ProviderKind;
  name : string;
  headers : list string;
  values : gmap string string;
  excludedNetworks : list IPNet;
  excludedAddresses : list IP
}.

Definition set_values (p : Provider) (vs : gmap string string) : Provider :=
  mkProvider (kind p) (name p) (headers p) vs (excludedNetworks p) (excludedAddresses p).

(** generic.go, [InitializeGenericProvider]. *)
Definition InitializeGenericProvider (nets : list IPNet) (addrs : list IP) : Provider :=
  {| kind := Generic;
     name := "generic";
     headers := [_genericProviderXForwardedForHeader; _genericProviderXRealIPHeader];
     values := ∅;
     excludedNetworks := nets;
     excludedAddresses := addrs |}.

(** cloudflare.go, [Initialize]. *)
Definition CloudflareProvider_Initialize (nets : list IPNet) (addrs : list IP) : Provider :=
  {| kind := Cloudflare;
     name := "cloudflare";
     headers := [_cloudflareProviderTrueClientIPHeader; _cloudflareProviderCFConnectingIPHeader];
     values := ∅;
     excludedNetworks := nets;
     excludedAddresses := addrs |}.

(** qrator.go, [Initialize]. *)
Definition QratorProvider_Initialize (nets : list IPNet) (addrs : list IP) : Provider :=
  {| kind := Qrator;
     name := "qrator";
     headers := [_qratorProviderXQratorIPSourceHeader];
     values := ∅;
     excludedNetworks := nets;
     excludedAddresses := addrs |}.

Definition GetName (p : Provider) : string := name p.
Definition GetHeaders (p : Provider) : list string := headers p.
Definition GetValues (p : Provider) : gmap string string := values p.
Definition getExcludedNetworks (p : Provider) : list IPNet := excludedNetworks p.
Definition getExcludedAddresses (p : Provider) : list IP := excludedAddresses p.

(** [isExcludedIP]: the same body in the three files. *)
Definition isExcludedIP (p : Provider) (address : string) : bool :=
  match ParseIP address with
  | None => true
  | Some ip =>
      if existsb (λ excludedNetwork, Contains excludedNetwork ip) (getExcludedNetworks p)
      then true
      else if existsb (λ excludedAddress, Equal ip excludedAddress) (getExcludedAddresses p)
      then true
      else false
  end.

(** [fillValues], the same body in the three files: [fillStep] is the
    body of its loop. The map of the provider is written to, never
    emptied. *)
Definition fillStep (request : GoHTTP.Request) (p : Provider) (header : string) : Provider :=
  let value := GoHTTP.Get (GoHTTP.Header_ request) header in
  if bool_decide (value ≠ "")
  then set_values p (<[header := GoStrings.TrimSpace value]> (values p))
  else p.

Definition fillValues (p : Provider) (request : GoHTTP.Request) : Provider :=
  foldl (fillStep request) p (GetHeaders p).

(** generic.go, [GetRealIP]: the result and the provider after the call. *)
Definition GenericProvider_GetRealIP (gp : Provider) (request : GoHTTP.Request)
  : string * Provider :=
  let gp := fillValues gp request in
  let fromRealIP :=
    match GetValues gp !! _genericProviderXRealIPHeader with
    | Some value => if negb (isExcludedIP gp value) then Some value else None
    | None => None
    end in
  match fromRealIP with
  | Some value => (value, gp)
  | None =>
      match GetValues gp !! _genericProviderXForwardedForHeader with
      | Some value =>
          let forwardChain := GoStrings.TrimSpace <$> GoStrings.Split value "," in
          match List.find (λ ip, negb (isExcludedIP gp ip)) forwardChain with
          | Some ip => (ip, gp)
          | None => ("", gp)
          end
      | None => ("", gp)
      end
  end.

(** cloudflare.go, [GetRealIP]: the first value of the map, in the order
    of the runtime, that is not excluded. *)
Definition CloudflareProvider_GetRealIP (o : Order) (cfp : Provider)
    (request : GoHTTP.Request) : string * Provider :=
  let cfp := fillValues cfp request in
  match List.find (λ kv, negb (isExcludedIP cfp kv.2)) (rangeMap o (GetValues cfp)) with
  | Some kv => (kv.2, cfp)
  | None => ("", cfp)
  end.

(** qrator.go, [GetRealIP]. *)
Definition QratorProvider_GetRealIP (o : Order) (qp : Provider)
    (request : GoHTTP.Request) : string * Provider :=
  let qp := fillValues qp request in
  match List.find (λ kv, negb (isExcludedIP qp kv.2)) (rangeMap o (GetValues qp)) with
  | Some kv => (kv.2, qp)
  | None => ("", qp)
  end.

(** A call of [GetRealIP] through [ProviderInterface]. *)
Definition GetRealIP (rt : Runtime) (p : Provider) (request : GoHTTP.Request)
  : string * Provider :=
  match kind p with
  | Generic => GenericProvider_GetRealIP p request
  | Cloudflare => CloudflareProvider_GetRealIP (rangeCloudflareValues rt) p request
  | Qrator => QratorProvider_GetRealIP (rangeQratorValues rt) p request
  end.

(** Modelled from the spec: the [Initialize] method of [GenericProvider]
    is not among the sources; as the spec has the registry construct
    the three variants bound to the same exclusion set, it builds the
    value of [InitializeGenericProvider]. *)
Definition GenericProvider_Initialize (nets : list IPNet) (addrs : list IP) : Provider :=
  InitializeGenericProvider nets addrs.

(** Modelled from the spec: the constructors [InitializeCloudflareProvider]
    and [InitializeQratorProvider] that [src/real_ip.go] calls are not among
    the sources; as the spec has every variant bound to the exclusion set
    with its fixed headers, they build the values of the [Initialize]
    methods of cloudflare.go and qrator.go. *)
Definition InitializeCloudflareProvider (nets : list IPNet) (addrs : list IP) : Provider :=
  CloudflareProvider_Initialize nets addrs.

Definition InitializeQratorProvider (nets : list IPNet) (addrs : list IP) : Provider :=
  QratorProvider_Initialize nets addrs.

(** A call of [Initialize] through [ProviderInterface]. *)
Definition Provider_Initialize (k : ProviderKind) (nets : list IPNet) (addrs : list IP)
  : Provider :=
  match k with
  | Generic => GenericProvider_Initialize nets addrs
  | Cloudflare => CloudflareProvider_Initialize nets addrs
  | Qrator => QratorProvider_Initialize nets addrs
  end.

(** providers.go: [Providers] holds one map from names to providers. *)
Record Providers := mkProviders { providers : gmap string Provider }.

(** providers.go, [Initialize]: every entry of the literal map is
    replaced by its initialised provider; the order of the loop has no
    effect, each key being written once. *)
Definition Initialize (nets : list IPNet) (addrs : list IP) : Providers :=
  let instance : gmap string ProviderKind :=
    {[ "generic" := Generic; "cloudflare" := Cloudflare; "qrator" := Qrator ]} in
  mkProviders ((λ k, Provider_Initialize k nets addrs) <$> instance).

Definition GetAvailableProviders (o : Order) (ps : Providers) : list string :=
  (rangeMap o (providers ps)).*1.

Definition IsValidProvider (o : Order) (ps : Providers) (provider : string) : bool :=
  existsb (λ value, bool_decide (value = provider)) (GetAvailableProviders o ps).

(** [GetProvider]: [None] is the nil interface of a missing key. *)
Definition GetProvider (ps : Providers) (provider : string) : option Provider :=
  providers ps !! provider.

Definition GetProviders (ps : Providers) : gmap string Provider := providers ps.

End providers.
End ProvidersPkg.

(** ** Notions of the specification *)

Section notions.
Context `{Net}.

(** The value a provider holds for a header once it has read the request. *)
Definition candidate (p : ProvidersPkg.Provider) (request : GoHTTP.Request)
    (header : string) : option string :=
  ProvidersPkg.values (ProvidersPkg.fillValues p request) !! header.

(** What the request alone says of a header: its first value, trimmed,
    unless the header is absent or empty. *)
Definition requestValue (request : GoHTTP.Request) (header : string) : option string :=
  let value := GoHTTP.Get (GoHTTP.Header_ request) header in
  if bool_decide (value ≠ "") then Some (GoStrings.TrimSpace value) else None.

(** The rule of the specification: the first candidate that is not
    excluded wins, and the result is empty when none passes. *)
Definition firstNonExcluded (excluded : string → bool) (candidates : list string) : string :=
  hd "" (filter (λ c, excluded c = false) candidates).

(** The candidates of the generic provider in the order of the
    specification: [X-Real-Ip] as one value, then the tokens of
    [X-Forwarded-For] from left to right, each trimmed. *)
Definition genericCandidates (xRealIP xForwardedFor : option string) : list string :=
  option_list xRealIP
  ++ from_option (λ chain, GoStrings.TrimSpace <$> GoStrings.Split chain ",") [] xForwardedFor.

(** The exclusion test of the handler: the one of a provider built on
    the handler's networks and addresses. *)
Definition excludedBy (nets : list IPNet) (addrs : list IP) (address : string) : bool :=
  ProvidersPkg.isExcludedIP (ProvidersPkg.InitializeGenericProvider nets addrs) address.

(** A provider as the handlers keep it: one of the three variants under
    its own name, bound to the exclusion set of the handler, holding
    trimmed values for headers of its own. *)
Definition standard (nets : list IPNet) (addrs : list IP) (key : string)
    (p : ProvidersPkg.Provider) : Prop :=
  (∃ k, (key = "generic" ∧ k = ProvidersPkg.Generic
         ∨ key = "cloudflare" ∧ k = ProvidersPkg.Cloudflare
         ∨ key = "qrator" ∧ k = ProvidersPkg.Qrator)
        ∧ ProvidersPkg.kind p = k
        ∧ ProvidersPkg.name p = key
        ∧ ProvidersPkg.headers p = ProvidersPkg.headers (ProvidersPkg.Provider_Initialize k nets addrs))
  ∧ ProvidersPkg.excludedNetworks p = nets
  ∧ ProvidersPkg.excludedAddresses p = addrs
  ∧ (∀ h v, ProvidersPkg.values p !! h = Some v →
            h ∈ ProvidersPkg.headers p ∧ GoStrings.TrimSpace v = v).

End notions.

(** ** The configuration of the plugin (both [real_ip.go]) *)

(** [Providers] is [None] for the nil slice, which [New] of [src/real_ip.go]
    tells from an empty one. *)
Record Config := mkConfig {
  ExcludedNetworks : list string;
  ExcludedAddresses : list string;
  Providers : option (list string);
  PreferredProvider : string
}.

Definition CreateConfig : Config :=
  {| ExcludedNetworks := []; ExcludedAddresses := [];
     Providers := Some []; PreferredProvider := "" |}.

(** The elements a [range] over a slice visits, and its [len]. *)
Definition elems {A} (s : option (list A)) : list A := default [] s.

Section construction.
Context `{Net}.

(** The first loop of [New]: the networks in the order of the
    configuration, or the error of the first entry that is no CIDR. *)
Fixpoint parseExcludedNetworks (values : list string) (acc : list IPNet)
  : error + list IPNet :=
  match values with
  | [] => inr acc
  | value :: rest =>
      match ParseCIDR value with
      | None => inl (ParseError "CIDR address" value)
      | Some excludedNetwork => parseExcludedNetworks rest (acc ++ [excludedNetwork])
      end
  end.

(** The second loop of [New]: an entry that is no address is skipped. *)
Definition parseExcludedAddresses (values : list string) : list IP :=
  omap ParseIP values.

End construction.

(** A handler of the chain works on the response writer and on the
    request it is given a pointer to. *)
Definition Handler (ResponseWriter : Type) : Type :=
  ResponseWriter → GoHTTP.Request → ResponseWriter * GoHTTP.Request.

(** ** [src/real_ip.go]: one field for each provider *)
Module RealIP.
Section handler.
Context `{Net} {ResponseWriter : Type}.

(** A provider field is a pointer: [None] is nil. *)
Record TraefikRealIP := mkTraefikRealIP {
  next : Handler ResponseWriter;
  name : string;
  excludedNetworks : list IPNet;
  excludedAddresses : list IP;
  availableProviders : list string;
  genericProvider : option ProvidersPkg.Provider;
  cloudflareProvider : option ProvidersPkg.Provider;
  qratorProvider : option ProvidersPkg.Provider;
  preferredProvider : string;
  providersIPs : gmap string string
}.

Definition set_genericProvider (trip : TraefikRealIP) (p : option ProvidersPkg.Provider) :=
  mkTraefikRealIP (next trip) (name trip) (excludedNetworks trip) (excludedAddresses trip)
    (availableProviders trip) p (cloudflareProvider trip) (qratorProvider trip)
    (preferredProvider trip) (providersIPs trip).

Definition set_cloudflareProvider (trip : TraefikRealIP) (p : option ProvidersPkg.Provider) :=
  mkTraefikRealIP (next trip) (name trip) (excludedNetworks trip) (excludedAddresses trip)
    (availableProviders trip) (genericProvider trip) p (qratorProvider trip)
    (preferredProvider trip) (providersIPs trip).

Definition set_qratorProvider (trip : TraefikRealIP) (p : option ProvidersPkg.Provider) :=
  mkTraefikRealIP (next trip) (name trip) (excludedNetworks trip) (excludedAddresses trip)
    (availableProviders trip) (genericProvider trip) (cloudflareProvider trip) p
    (preferredProvider trip) (providersIPs trip).

Definition GetExcludedNetworks (trip : TraefikRealIP) := excludedNetworks trip.
Definition GetExcludedAddresses (trip : TraefikRealIP) := excludedAddresses trip.
Definition GetPreferredProvider (trip : TraefikRealIP) := preferredProvider trip.

Definition HasPreferredProvider (trip : TraefikRealIP) : bool :=
  bool_decide (preferredProvider trip ≠ "").

Definition IsValidProvider (trip : TraefikRealIP) (provider : string) : bool :=
  existsb (λ value, bool_decide (value = provider)) (availableProviders trip).

Definition ConfigHasProvider (provider : string) (providers : list string) : bool :=
  existsb (λ value, bool_decide (value = provider)) providers.

Definition New (next : Handler ResponseWriter) (config : Config) (name : string)
  : error + TraefikRealIP :=
  match parseExcludedNetworks (ExcludedNetworks config) [] with
  | inl err => inl err
  | inr nets =>
      let trip :=
        {| next := next; name := name;
           excludedNetworks := nets;
           excludedAddresses := parseExcludedAddresses (ExcludedAddresses config);
           availableProviders := ["generic"; "cloudflare"; "qrator"];
           genericProvider := None; cloudflareProvider := None; qratorProvider := None;
           preferredProvider := PreferredProvider config;
           providersIPs := ∅ |} in
      if bool_decide (PreferredProvider config ≠ "")
         && negb (IsValidProvider trip (PreferredProvider config))
      then inl (errorString
                  ("preferred provider " +:+ PreferredProvider config
                   +:+ " is not valid, only the following ones are supported: "
                   +:+ GoStrings.Join (availableProviders trip) ", "))
      else
        let trip :=
          set_genericProvider trip
            (Some (ProvidersPkg.InitializeGenericProvider
                     (GetExcludedNetworks trip) (GetExcludedAddresses trip))) in
        match List.find (λ provider, negb (IsValidProvider trip provider))
                        (elems (Providers config)) with
        | Some provider =>
            inl (errorString
                   ("provider " +:+ provider
                    +:+ " is not valid, only the following ones are supported: "
                    +:+ GoStrings.Join (availableProviders trip) ", "))
        | None =>
            let cloudflare :=
              Some (ProvidersPkg.InitializeCloudflareProvider
                      (GetExcludedNetworks trip) (GetExcludedAddresses trip)) in
            let qrator :=
              Some (ProvidersPkg.InitializeQratorProvider
                      (GetExcludedNetworks trip) (GetExcludedAddresses trip)) in
            if bool_decide (Providers config ≠ None)
               || bool_decide (length (elems (Providers config)) = 0)
            then inr (set_qratorProvider (set_cloudflareProvider trip cloudflare) qrator)
            else
              let trip :=
                if ConfigHasProvider "cloudflare" (elems (Providers config))
                then set_cloudflareProvider trip cloudflare else trip in
              let trip :=
                if ConfigHasProvider "qrator" (elems (Providers config))
                then set_qratorProvider trip qrator else trip in
              inr trip
        end
  end.

(** The handler [New] returns when the configuration passes. *)
Definition made (next : Handler ResponseWriter) (config : Config) (name : string)
    (nets : list IPNet) : TraefikRealIP :=
  let addrs := parseExcludedAddresses (ExcludedAddresses config) in
  {| next := next; name := name;
     excludedNetworks := nets;
     excludedAddresses := addrs;
     availableProviders := ["generic"; "cloudflare"; "qrator"];
     genericProvider := Some (ProvidersPkg.InitializeGenericProvider nets addrs);
     cloudflareProvider := Some (ProvidersPkg.InitializeCloudflareProvider nets addrs);
     qratorProvider := Some (ProvidersPkg.InitializeQratorProvider nets addrs);
     preferredProvider := PreferredProvider config;
     providersIPs := ∅ |}.

(** The body of [ServeHTTP] down to the last assignment of [realIP]:
    the address and the handler after it. A call through a nil
    provider panics: [None]. *)
Definition resolveRealIP (rt : Runtime) (trip : TraefikRealIP) (request : GoHTTP.Request)
  : option (string * TraefikRealIP) :=
  let realIP := "" in
  '(realIP, trip) ←
    (if HasPreferredProvider trip then
       '(realIP, trip) ←
         (if bool_decide (GetPreferredProvider trip = "cloudflare") then
            cfp ← cloudflareProvider trip;
            let '(ip, cfp) :=
              ProvidersPkg.CloudflareProvider_GetRealIP (rangeCloudflareValues rt) cfp request in
            Some (ip, set_cloudflareProvider trip (Some cfp))
          else Some (realIP, trip));
       if bool_decide (GetPreferredProvider trip = "qrator") then
         qp ← qratorProvider trip;
         let '(ip, qp) :=
           ProvidersPkg.QratorProvider_GetRealIP (rangeQratorValues rt) qp request in
         Some (ip, set_qratorProvider trip (Some qp))
       else Some (realIP, trip)
     else Some (realIP, trip));
  if bool_decide (realIP = "") then
    gp ← genericProvider trip;
    let '(ip, gp) := ProvidersPkg.GenericProvider_GetRealIP gp request in
    Some (ip, set_genericProvider trip (Some gp))
  else Some (realIP, trip).

(** The two [Header.Set] of [ServeHTTP]. *)
Definition writeRealIP (realIP : string) (request : GoHTTP.Request) : GoHTTP.Request :=
  if bool_decide (realIP ≠ "") then
    GoHTTP.mkRequest
      (GoHTTP.Set_ (GoHTTP.Set_ (GoHTTP.Header_ request) "X-Forwarded-For" realIP)
                   "X-Real-Ip" realIP)
  else request.

(** [ServeHTTP]: the handler after the call, and what the next handler
    of the chain made of the response writer and the request. *)
Definition ServeHTTP (rt : Runtime) (trip : TraefikRealIP)
    (responseWriter : ResponseWriter) (request : GoHTTP.Request)
  : option (TraefikRealIP * (ResponseWriter * GoHTTP.Request)) :=
  '(realIP, trip) ← resolveRealIP rt trip request;
  let request := writeRealIP realIP request in
  Some (trip, next trip responseWriter request).

(** What the provider of the given name returns for the request, on the
    handler as it is. *)
Definition answer (rt : Runtime) (trip : TraefikRealIP) (provider : string)
    (request : GoHTTP.Request) : string :=
  if bool_decide (provider = "generic") then
    from_option (λ gp, (ProvidersPkg.GenericProvider_GetRealIP gp request).1) ""
                (genericProvider trip)
  else if bool_decide (provider = "cloudflare") then
    from_option (λ cfp, (ProvidersPkg.CloudflareProvider_GetRealIP
                           (rangeCloudflareValues rt) cfp request).1) ""
                (cloudflareProvider trip)
  else if bool_decide (provider = "qrator") then
    from_option (λ qp, (ProvidersPkg.QratorProvider_GetRealIP
                          (rangeQratorValues rt) qp request).1) ""
                (qratorProvider trip)
  else "".

(** The handlers that serve requests: the three providers are there,
    each in its standard form for the exclusion set of the handler. *)
Definition wellFormed (trip : TraefikRealIP) : Prop :=
  (∃ gp, genericProvider trip = Some gp
         ∧ standard (excludedNetworks trip) (excludedAddresses trip) "generic" gp)
  ∧ (∃ cfp, cloudflareProvider trip = Some cfp
            ∧ standard (excludedNetworks trip) (excludedAddresses trip) "cloudflare" cfp)
  ∧ (∃ qp, qratorProvider trip = Some qp
           ∧ standard (excludedNetworks trip) (excludedAddresses trip) "qrator" qp).

End handler.
End RealIP.

(** ** The second [real_ip.go]: the providers behind [ProviderInterface] *)
Module RealIPInterface.
Section handler.
Context `{Net} {U : GoStrings.UnicodeTables} {ResponseWriter : Type}.

Record TraefikRealIP := mkTraefikRealIP {
  next : Handler ResponseWriter;
  name : string;
  excludedNetworks : list IPNet;
  excludedAddresses : list IP;
  providers : gmap string ProvidersPkg.Provider;
  preferredProvider : string;
  providersIPs : gmap string string
}.

Definition set_providers (trip : TraefikRealIP) (ps : gmap string ProvidersPkg.Provider) :=
  mkTraefikRealIP (next trip) (name trip) (excludedNetworks trip) (excludedAddresses trip)
    ps (preferredProvider trip) (providersIPs trip).

Definition set_providersIPs (trip : TraefikRealIP) (ips : gmap string string) :=
  mkTraefikRealIP (next trip) (name trip) (excludedNetworks trip) (excludedAddresses trip)
    (providers trip) (preferredProvider trip) ips.

Definition GetExcludedNetworks (trip : TraefikRealIP) := excludedNetworks trip.
Definition GetExcludedAddresses (trip : TraefikRealIP) := excludedAddresses trip.
Definition GetProviders (trip : TraefikRealIP) := providers trip.
Definition GetPreferredProvider (trip : TraefikRealIP) := preferredProvider trip.

Definition HasPreferredProvider (trip : TraefikRealIP) : bool :=
  bool_decide (preferredProvider trip ≠ "").

(** The loop of [New] over [config.Providers]. A valid name is a key of
    the registry ([GetProvider] finds it), so the last case is never
    taken. *)
Fixpoint enableProviders (o : Order) (manager : ProvidersPkg.Providers)
    (values : list string) (acc : gmap string ProvidersPkg.Provider)
  : error + gmap string ProvidersPkg.Provider :=
  match values with
  | [] => inr acc
  | value :: rest =>
      let provider := GoStrings.TrimSpace (GoStrings.ToLower value) in
      if ProvidersPkg.IsValidProvider o manager provider then
        match ProvidersPkg.GetProvider manager provider with
        | Some p => enableProviders o manager rest (<[provider := p]> acc)
        | None => inl ProvidersPkg.ErrorInvalidProvider
        end
      else inl ProvidersPkg.ErrorInvalidProvider
  end.

Definition New (rt : Runtime) (next : Handler ResponseWriter) (config : Config)
    (name : string) : error + TraefikRealIP :=
  match parseExcludedNetworks (ExcludedNetworks config) [] with
  | inl err => inl err
  | inr nets =>
      let trip :=
        {| next := next; name := name;
           excludedNetworks := nets;
           excludedAddresses := parseExcludedAddresses (ExcludedAddresses config);
           providers := ∅;
           preferredProvider := PreferredProvider config;
           providersIPs := ∅ |} in
      let manager :=
        ProvidersPkg.Initialize (GetExcludedNetworks trip) (GetExcludedAddresses trip) in
      if bool_decide (PreferredProvider config ≠ "")
         && negb (ProvidersPkg.IsValidProvider (rangeAvailable rt) manager
                    (PreferredProvider config))
      then inl ProvidersPkg.ErrorInvalidPreferredProvider
      else if bool_decide (length (elems (Providers config)) = 0)
      then inr (set_providers trip (ProvidersPkg.GetProviders manager))
      else
        match enableProviders (rangeAvailable rt) manager (elems (Providers config))
                              (providers trip) with
        | inl err => inl err
        | inr ps =>
            let ps :=
              match ps !! "generic" with
              | Some _ => ps
              | None =>
                  match ProvidersPkg.GetProvider manager "generic" with
                  | Some p => <["generic" := p]> ps
                  | None => ps
                  end
              end in
            inr (set_providers trip ps)
        end
  end.

(** The body of the first loop of [ServeHTTP]: the provider is asked,
    and an answer that is not empty is recorded under the provider's key.
    The provider is reached through a pointer: its new state replaces
    the old one in the map. *)
Definition collectStep (rt : Runtime) (request : GoHTTP.Request) (trip : TraefikRealIP)
    (entry : string * ProvidersPkg.Provider) : TraefikRealIP :=
  let '(providerName, providerInstance) := entry in
  let '(realIP, providerInstance) := ProvidersPkg.GetRealIP rt providerInstance request in
  let trip := set_providers trip (<[providerName := providerInstance]> (providers trip)) in
  if bool_decide (realIP ≠ "")
  then set_providersIPs trip (<[providerName := realIP]> (providersIPs trip))
  else trip.

(** The first loop of [ServeHTTP]. *)
Definition collect (rt : Runtime) (trip : TraefikRealIP) (request : GoHTTP.Request)
  : TraefikRealIP :=
  foldl (collectStep rt request) trip (rangeMap (rangeCollect rt) (GetProviders trip)).

(** The body of [ServeHTTP] down to the last assignment of [realIP]. *)
Definition resolveRealIP (rt : Runtime) (trip : TraefikRealIP) (request : GoHTTP.Request)
  : string * TraefikRealIP :=
  let trip := collect rt trip request in
  let realIP := "" in
  let '(realIP, trip) :=
    match providersIPs trip !! "generic" with
    | Some ip => (ip, set_providersIPs trip (delete "generic" (providersIPs trip)))
    | None => (realIP, trip)
    end in
  let realIP :=
    if bool_decide (0 < size (providersIPs trip)) then
      if HasPreferredProvider trip then
        match providersIPs trip !! GetPreferredProvider trip with
        | Some ip => ip
        | None => realIP
        end
      else
        match List.find
                (λ entry, bool_decide (is_Some (providersIPs trip !! ProvidersPkg.GetName entry.2)))
                (rangeMap (rangeSelect rt) (GetProviders trip)) with
        | Some entry => default "" (providersIPs trip !! ProvidersPkg.GetName entry.2)
        | None => realIP
        end
    else realIP in
  (realIP, trip).

(** The two [Header.Set] of [ServeHTTP]. *)
Definition writeRealIP (realIP : string) (request : GoHTTP.Request) : GoHTTP.Request :=
  if bool_decide (realIP ≠ "") then
    GoHTTP.mkRequest
      (GoHTTP.Set_ (GoHTTP.Set_ (GoHTTP.Header_ request) "X-Forwarded-For" realIP)
                   "X-Real-Ip" realIP)
  else request.

Definition ServeHTTP (rt : Runtime) (trip : TraefikRealIP)
    (responseWriter : ResponseWriter) (request : GoHTTP.Request)
  : TraefikRealIP * (ResponseWriter * GoHTTP.Request) :=
  let '(realIP, trip) := resolveRealIP rt trip request in
  let request := writeRealIP realIP request in
  (trip, next trip responseWriter request).

(** What the first loop of [ServeHTTP] records: the answers of the
    enabled providers that are not empty. *)
Definition answers (rt : Runtime) (trip : TraefikRealIP) (request : GoHTTP.Request)
  : gmap string string :=
  omap (λ p, let realIP := (ProvidersPkg.GetRealIP rt p request).1 in
             if bool_decide (realIP ≠ "") then Some realIP else None)
       (providers trip).

(** The handler after the first loop: every provider has read the
    request, and the new answers are written over the results on record. *)
Definition collected (rt : Runtime) (trip : TraefikRealIP) (request : GoHTTP.Request)
  : TraefikRealIP :=
  set_providersIPs
    (set_providers trip ((λ p, ProvidersPkg.fillValues p request) <$> providers trip))
    (answers rt trip request ∪ providersIPs trip).

(** What the provider of the given name returns for the request, on the
    handler as it is; nothing when the provider is not enabled. *)
Definition answer (rt : Runtime) (trip : TraefikRealIP) (provider : string)
    (request : GoHTTP.Request) : string :=
  from_option (λ p, (ProvidersPkg.GetRealIP rt p request).1) "" (providers trip !! provider).

(** The handlers that serve requests: every enabled provider is in its
    standard form for the exclusion set of the handler, and no result of
    the generic provider is on record. *)
Definition wellFormed (trip : TraefikRealIP) : Prop :=
  (∀ key p, providers trip !! key = Some p →
            standard (excludedNetworks trip) (excludedAddresses trip) key p)
  ∧ providersIPs trip !! "generic" = None.

End handler.
End RealIPInterface.

(** The names of the providers. *)
Definition names : list string := ["generic"; "cloudflare"; "qrator"].

(** Closes a goal with [Hin : x ∈ names] for an [x] known to differ from
    the three names. *)
Ltac no_name Hin :=
  unfold names in Hin;
  repeat (apply elem_of_cons in Hin as [?|Hin]; [done|]);
  by apply elem_of_nil in Hin.

(** A request with the given headers, set one after the other. *)
Definition requestWith (fields : list (string * string)) : GoHTTP.Request :=
  GoHTTP.mkRequest (foldl (λ h field, GoHTTP.Set_ h field.1 field.2) ∅ fields).

(** The next handler of the tests of the repository: it does nothing. *)
Definition noNext : Handler unit := λ responseWriter request, (responseWriter, request).

(** The headers of the tests of the repository: every provider has one. *)
Definition allHeaders : list (string * string) :=
  [("X-Forwarded-For", "10.0.0.20"); ("X-Real-Ip", "10.0.0.20");
   ("X-Qrator-IP-Source", "10.0.0.30");
   ("True-Client-IP", "10.0.0.40"); ("CF-Connecting-IP", "10.0.0.40")].

(** The configuration of the tests that prefer a provider. *)
Definition preferring (provider : string) : Config :=
  {| ExcludedNetworks := []; ExcludedAddresses := [];
     Providers := None; PreferredProvider := provider |}.

(** What the specification asks of the request handed on: with an
    address, [X-Forwarded-For] and [X-Real-Ip] hold the address and nothing
    else, and every other header is as it was; without one, the request
    is the one that came in. *)
Definition headersWritten (realIP : string) (request request' : GoHTTP.Request) : Prop :=
  if bool_decide (realIP ≠ "") then
    GoHTTP.Header_ request' !! "X-Forwarded-For" = Some [realIP]
    ∧ GoHTTP.Header_ request' !! "X-Real-Ip" = Some [realIP]
    ∧ ∀ key, key ≠ "X-Forwarded-For" → key ≠ "X-Real-Ip" →
             GoHTTP.Header_ request' !! key = GoHTTP.Header_ request !! key
  else request' = request.

(** A configuration but for its excluded addresses. *)
Definition withAddresses (config : Config) (addresses : list string) : Config :=
  {| ExcludedNetworks := ExcludedNetworks config; ExcludedAddresses := addresses;
     Providers := Providers config; PreferredProvider := PreferredProvider config |}.

(** Two requests in a row for one handler: the first comes through
    Qrator, the second carries a generic header only. *)
Definition throughQrator : GoHTTP.Request :=
  requestWith [("X-Real-Ip", "10.0.0.20"); ("X-Qrator-IP-Source", "10.0.0.30")].

Definition direct : GoHTTP.Request := requestWith [("X-Real-Ip", "10.0.0.21")].

(** A provider after a handler has served a request: it has read the
    request, or was not asked. *)
Definition readOrNot `{Net} (request : GoHTTP.Request)
    (before after : option ProvidersPkg.Provider) : Prop :=
  ∃ p p', before = Some p ∧ after = Some p'
          ∧ (p' = p ∨ p' = ProvidersPkg.fillValues p request).

(** The handler of [src/real_ip.go] after it has served a request. *)
Definition servedBy `{Net} {ResponseWriter : Type} (request : GoHTTP.Request)
    (trip trip' : RealIP.TraefikRealIP (ResponseWriter := ResponseWriter)) : Prop :=
  RealIP.next trip' = RealIP.next trip
  ∧ RealIP.preferredProvider trip' = RealIP.preferredProvider trip
  ∧ readOrNot request (RealIP.genericProvider trip) (RealIP.genericProvider trip')
  ∧ readOrNot request (RealIP.cloudflareProvider trip) (RealIP.cloudflareProvider trip')
  ∧ readOrNot request (RealIP.qratorProvider trip) (RealIP.qratorProvider trip').

(** A request with two Cloudflare headers that differ. *)
Definition twoCloudflare : GoHTTP.Request :=
  requestWith [("True-Client-IP", "10.0.0.40"); ("CF-Connecting-IP", "10.0.0.41")].

(** The cases of [TestNewTraefikRealIP] that send a request: the
    configuration, the headers of the request and the address expected. *)
Definition repositoryTests : list (Config * list (string * string) * string) :=
  [ (mkConfig ["127.0.0.1/24"] [] None "", [("X-Forwarded-For", "127.0.0.2")], "");
    (mkConfig [] [] None "",
     [("X-Forwarded-For", "10.0.0.20"); ("X-Real-Ip", "10.0.0.20")], "10.0.0.20");
    (preferring "qrator", allHeaders, "10.0.0.30");
    (preferring "cloudflare", allHeaders, "10.0.0.40");
    (preferring "generic", allHeaders, "10.0.0.20");
    (preferring "qrator",
     [("X-Forwarded-For", "10.0.0.20"); ("X-Real-Ip", "10.0.0.20");
      ("True-Client-IP", "10.0.0.40"); ("CF-Connecting-IP", "10.0.0.40")], "10.0.0.20");
    (preferring "cloudflare",
     [("X-Forwarded-For", "10.0.0.20"); ("X-Real-Ip", "10.0.0.20");
      ("X-Qrator-IP-Source", "10.0.0.30")], "10.0.0.20") ].

(** The address a new handler resolves a request to, on IPv4. *)
Definition realipResolves (rt : Runtime) (config : Config) (fields : list (string * string))
  : option string :=
  match RealIP.New (H := IPv4.net) noNext config "traefik-real-ip" with
  | inr trip => fst <$> RealIP.resolveRealIP rt trip (requestWith fields)
  | inl _ => None
  end.

Definition interfaceResolves (rt : Runtime) (config : Config) (fields : list (string * string))
  : option string :=
  match RealIPInterface.New (H := IPv4.net) (U := ASCII.tables) rt noNext config
          "traefik-real-ip" with
  | inr trip => Some (RealIPInterface.resolveRealIP rt trip (requestWith fields)).1
  | inl _ => None
  end.

(** ** Handlers over several requests *)

(** A configuration but for its list of providers. *)
Definition withProviders (config : Config) (providers : option (list string)) : Config :=
  {| ExcludedNetworks := ExcludedNetworks config;
     ExcludedAddresses := ExcludedAddresses config;
     Providers := providers; PreferredProvider := PreferredProvider config |}.

(** One call of [ServeHTTP]: the runtime of the call, the response
    writer and the request. *)
Definition Call (ResponseWriter : Type) : Type := Runtime * ResponseWriter * GoHTTP.Request.

(** The handler of [src/real_ip.go] after the calls, one after the
    other; [None] when a call panics. *)
Fixpoint serveAll `{Net} {ResponseWriter : Type}
    (trip : RealIP.TraefikRealIP (ResponseWriter := ResponseWriter))
    (calls : list (Call ResponseWriter)) : option RealIP.TraefikRealIP :=
  match calls with
  | [] => Some trip
  | (rt, responseWriter, request) :: rest =>
      match RealIP.ServeHTTP rt trip responseWriter request with
      | Some (trip', _) => serveAll trip' rest
      | None => None
      end
  end.

(** The handler of the other [real_ip.go] after the calls. *)
Fixpoint serveAllInterface `{Net} {ResponseWriter : Type}
    (trip : RealIPInterface.TraefikRealIP (ResponseWriter := ResponseWriter))
    (calls : list (Call ResponseWriter)) : RealIPInterface.TraefikRealIP :=
  match calls with
  | [] => trip
  | (rt, responseWriter, request) :: rest =>
      serveAllInterface (RealIPInterface.ServeHTTP rt trip responseWriter request).1 rest
  end.

(** Every result the handler has on record is an address that passes
    the exclusion test of the handler, recorded for an enabled provider
    other than the generic one. *)
Definition recordsPass `{Net} {ResponseWriter : Type}
    (trip : RealIPInterface.TraefikRealIP (ResponseWriter := ResponseWriter)) : Prop :=
  ∀ key ip,
    RealIPInterface.providersIPs trip !! key = Some ip →
    key ≠ "generic" ∧ ip ≠ ""
    ∧ is_Some (RealIPInterface.providers trip !! key)
    ∧ excludedBy (RealIPInterface.excludedNetworks trip)
                 (RealIPInterface.excludedAddresses trip) ip = false.

(** What the handler holds for a provider after the first loop of
    [ServeHTTP]: the answer of the provider, or with no answer the
    result on record. *)
Definition kept `{Net} {ResponseWriter : Type} (rt : Runtime)
    (trip : RealIPInterface.TraefikRealIP (ResponseWriter := ResponseWriter))
    (provider : string) (request : GoHTTP.Request) : option string :=
  if bool_decide (RealIPInterface.answer rt trip provider request ≠ "")
  then Some (RealIPInterface.answer rt trip provider request)
  else RealIPInterface.providersIPs trip !! provider.

(** The name of a provider as [New] of the other [real_ip.go] reads it. *)
Definition normalized {U : GoStrings.UnicodeTables} (value : string) : string :=
  GoStrings.TrimSpace (GoStrings.ToLower value).

(** What a configuration excludes: what is no address, the addresses
    of its networks and its addresses. *)
Definition excludedByConfig `{Net} (config : Config) (address : string) : Prop :=
  match ParseIP address with
  | None => True
  | Some ip =>
      (∃ v n, v ∈ ExcludedNetworks config ∧ ParseCIDR v = Some n ∧ Contains n ip = true)
      ∨ (∃ v a, v ∈ ExcludedAddresses config ∧ ParseIP v = Some a ∧ Equal ip a = true)
  end.

(** What the headers of a request give for an exclusion set: the
    address of the generic headers and the address of the header of
    Qrator, empty when none passes. *)
Definition genericValue `{Net} (nets : list IPNet) (addrs : list IP)
    (request : GoHTTP.Request) : string :=
  firstNonExcluded (excludedBy nets addrs)
    (genericCandidates (requestValue request "X-Real-Ip")
                       (requestValue request "X-Forwarded-For")).

Definition qratorValue `{Net} (nets : list IPNet) (addrs : list IP)
    (request : GoHTTP.Request) : string :=
  firstNonExcluded (excludedBy nets addrs)
    (option_list (requestValue request "X-Qrator-IP-Source")).

(** * Properties *)

(** ** Strings *)

Lemma string_length_ind (P : string → Prop) :
  (∀ s, (∀ t, String.length t < String.length s → P t) → P s) → ∀ s, P s.
Proof.
  intros step s. remember (String.length s) as n eqn:En. revert s En.
  induction n as [n IH] using lt_wf_ind. intros s ->. apply step.
  intros t Ht. by apply (IH (String.length t)).
Qed.

Lemma TrimLeft_step s :
  GoStrings.TrimLeft s
  = match GoStrings.spaceWidth s with
    | 0 => s
    | w => GoStrings.TrimLeft (GoStrings.skip w s)
    end.
Proof.
  destruct s as [|c1 [|c2 [|c3 s3]]]; simpl; try done.
  - by destruct (GoStrings.isSpace c1).
  - destruct (GoStrings.isSpace c1); [done|]. by destruct (GoStrings.isSpace2 c1 c2).
  - destruct (GoStrings.isSpace c1); [done|]. destruct (GoStrings.isSpace2 c1 c2); [done|].
    by destruct (GoStrings.isSpace3 c1 c2 c3).
Qed.

Lemma skip_length w s :
  GoStrings.spaceWidth s = w → w ≠ 0 → String.length (GoStrings.skip w s) < String.length s.
Proof.
  destruct s as [|c1 [|c2 [|c3 s3]]]; simpl; intros <-; try done.
  - destruct (GoStrings.isSpace c1); simpl; [lia|done].
  - destruct (GoStrings.isSpace c1); simpl; [lia|]. destruct (GoStrings.isSpace2 c1 c2); simpl; [lia|done].
  - destruct (GoStrings.isSpace c1); simpl; [lia|]. destruct (GoStrings.isSpace2 c1 c2); simpl; [lia|].
    destruct (GoStrings.isSpace3 c1 c2 c3); simpl; [lia|done].
Qed.

Lemma TrimLeft_fixed s : GoStrings.spaceWidth s = 0 → GoStrings.TrimLeft s = s.
Proof. intros E. by rewrite TrimLeft_step, E. Qed.

Lemma TrimLeft_head s : GoStrings.spaceWidth (GoStrings.TrimLeft s) = 0.
Proof.
  induction s as [s IH] using string_length_ind.
  rewrite TrimLeft_step. destruct (GoStrings.spaceWidth s) as [|w] eqn:E; [done|].
  apply IH. by apply skip_length.
Qed.

Lemma TrimLeft_idemp s : GoStrings.TrimLeft (GoStrings.TrimLeft s) = GoStrings.TrimLeft s.
Proof. apply TrimLeft_fixed, TrimLeft_head. Qed.

Lemma allSpace_true s : GoStrings.allSpace s = true ↔ GoStrings.TrimLeft s = "".
Proof. unfold GoStrings.allSpace. by destruct (GoStrings.TrimLeft s). Qed.

Lemma spaceWidth_app s t :
  GoStrings.spaceWidth s ≠ 0 →
  GoStrings.spaceWidth (s +:+ t) = GoStrings.spaceWidth s
  ∧ GoStrings.skip (GoStrings.spaceWidth s) (s +:+ t)
    = GoStrings.skip (GoStrings.spaceWidth s) s +:+ t.
Proof.
  destruct s as [|c1 [|c2 [|c3 s3]]]; simpl; try done.
  - destruct (GoStrings.isSpace c1); simpl; done.
  - destruct (GoStrings.isSpace c1); simpl; [done|]. destruct (GoStrings.isSpace2 c1 c2); simpl; done.
  - destruct (GoStrings.isSpace c1); simpl; [done|]. destruct (GoStrings.isSpace2 c1 c2); simpl; [done|].
    destruct (GoStrings.isSpace3 c1 c2 c3); simpl; done.
Qed.

Lemma allSpace_app s t :
  GoStrings.allSpace s = true → GoStrings.allSpace t = true →
  GoStrings.allSpace (s +:+ t) = true.
Proof.
  rewrite !allSpace_true. intros Hs Ht. revert Hs.
  induction s as [s IH] using string_length_ind. intros Hs.
  destruct (GoStrings.spaceWidth s) as [|w] eqn:E.
  { rewrite (TrimLeft_fixed s E) in Hs. by subst s. }
  destruct (spaceWidth_app s t) as [Ew Es]; [by rewrite E|].
  rewrite TrimLeft_step, Ew, E. rewrite E in Es. rewrite Es.
  apply IH; [by apply skip_length|].
  rewrite TrimLeft_step, E in Hs. exact Hs.
Qed.

Lemma TrimRight_split s : ∃ w, s = GoStrings.TrimRight s +:+ w ∧ GoStrings.allSpace w = true.
Proof.
  induction s as [|c s IH]; [by exists ""|].
  cbn [GoStrings.TrimRight]. destruct (GoStrings.allSpace (String c s)) eqn:E; [by eexists|].
  destruct IH as (w & Hs & Hw). exists w. split; [|done].
  change (String c s = String c (GoStrings.TrimRight s +:+ w)). by f_equal.
Qed.

Lemma TrimRight_idemp s : GoStrings.TrimRight (GoStrings.TrimRight s) = GoStrings.TrimRight s.
Proof.
  induction s as [|c s IH]; [done|].
  cbn [GoStrings.TrimRight]. destruct (GoStrings.allSpace (String c s)) eqn:E; [done|].
  cbn [GoStrings.TrimRight]. rewrite IH.
  destruct (GoStrings.allSpace (String c (GoStrings.TrimRight s))) eqn:E'; [|done].
  destruct (TrimRight_split s) as (w & Hs & Hw).
  pose proof (allSpace_app _ w E' Hw) as Happ.
  change (GoStrings.allSpace (String c (GoStrings.TrimRight s +:+ w)) = true) in Happ.
  rewrite <- Hs in Happ.
  congruence.
Qed.

Lemma TrimRight_head s :
  GoStrings.spaceWidth s = 0 → GoStrings.spaceWidth (GoStrings.TrimRight s) = 0.
Proof.
  destruct s as [|c1 s1]; [done|]. cbn [GoStrings.TrimRight].
  destruct (GoStrings.allSpace (String c1 s1)); [done|].
  destruct s1 as [|c2 s2]; [done|]. cbn [GoStrings.TrimRight].
  destruct (GoStrings.allSpace (String c2 s2)).
  { simpl. by destruct (GoStrings.isSpace c1). }
  destruct s2 as [|c3 s3]; [done|]. cbn [GoStrings.TrimRight].
  destruct (GoStrings.allSpace (String c3 s3)).
  { simpl. destruct (GoStrings.isSpace c1); [done|]. by destruct (GoStrings.isSpace2 c1 c2). }
  simpl. destruct (GoStrings.isSpace c1); [done|]. by destruct (GoStrings.isSpace2 c1 c2).
Qed.

Lemma TrimSpace_idemp s : GoStrings.TrimSpace (GoStrings.TrimSpace s) = GoStrings.TrimSpace s.
Proof.
  unfold GoStrings.TrimSpace.
  rewrite (TrimLeft_fixed (GoStrings.TrimRight (GoStrings.TrimLeft s))).
  - apply TrimRight_idemp.
  - apply TrimRight_head, TrimLeft_head.
Qed.

(** White space beyond ASCII is trimmed as well: U+00A0 in front,
    U+2003 and a tab behind. U+200B is no white space. *)
Example TrimSpace_unicode :
  GoStrings.TrimSpace
    (GoStrings.ofBytes [194; 160] +:+ "10.0.0.30" +:+ GoStrings.ofBytes [226; 128; 131; 9])
  = "10.0.0.30"
  ∧ GoStrings.TrimSpace (" " +:+ GoStrings.ofBytes [226; 128; 139] +:+ " ")
    = GoStrings.ofBytes [226; 128; 139].
Proof. by vm_compute. Qed.

(** [strings.ToLower] leaves the tables alone on ASCII and goes to them
    for everything else. *)
Lemma ToLower_cases `{GoStrings.UnicodeTables} s :
  GoStrings.ToLower s
  = if GoStrings.isASCII s then GoStrings.lowerASCII s else GoStrings.mapToLower s.
Proof. done. Qed.

(** ** Request headers *)

Lemma Get_Set_eq h key key' value :
  GoHTTP.CanonicalMIMEHeaderKey key' = GoHTTP.CanonicalMIMEHeaderKey key →
  GoHTTP.Get (GoHTTP.Set_ h key value) key' = value.
Proof. intros E. unfold GoHTTP.Get, GoHTTP.Set_. by rewrite E, lookup_insert_eq. Qed.

Lemma Get_Set_ne h key key' value :
  GoHTTP.CanonicalMIMEHeaderKey key' ≠ GoHTTP.CanonicalMIMEHeaderKey key →
  GoHTTP.Get (GoHTTP.Set_ h key value) key' = GoHTTP.Get h key'.
Proof. intros E. unfold GoHTTP.Get, GoHTTP.Set_. by rewrite lookup_insert_ne. Qed.

(** ** Ranging over a map *)

Lemma omap_lookup_fst {V} (m : gmap string V) (l : list (string * V)) :
  (∀ k v, (k, v) ∈ l → m !! k = Some v) →
  omap (λ k, (k,.) <$> m !! k) l.*1 = l.
Proof.
  induction l as [|[k v] l IH]; intros Hl; simpl; [done|].
  rewrite (Hl k v) by left. simpl. f_equal. apply IH. intros; apply Hl; by right.
Qed.

Lemma rangeMap_perm {V} o (m : gmap string V) : fair o → rangeMap o m ≡ₚ map_to_list m.
Proof.
  intros Ho. unfold rangeMap. rewrite (Ho _), omap_lookup_fst; [done|].
  intros k v. apply elem_of_map_to_list.
Qed.

Lemma rangeMap_elem_of {V} o (m : gmap string V) k v :
  fair o → (k, v) ∈ rangeMap o m ↔ m !! k = Some v.
Proof. intros Ho. by rewrite (rangeMap_perm o m Ho), elem_of_map_to_list. Qed.

Lemma rangeMap_NoDup {V} o (m : gmap string V) : fair o → NoDup (rangeMap o m).*1.
Proof. intros Ho. rewrite (rangeMap_perm o m Ho). apply NoDup_fst_map_to_list. Qed.

Lemma rangeMap_empty {V} o : fair o → rangeMap o (∅ : gmap string V) = [].
Proof.
  intros Ho. apply Permutation_nil_r. by rewrite (rangeMap_perm o _ Ho), map_to_list_empty.
Qed.

Lemma rangeMap_singleton {V} o k (v : V) : fair o → rangeMap o {[k := v]} = [(k, v)].
Proof.
  intros Ho. apply Permutation_singleton_r.
  by rewrite (rangeMap_perm o _ Ho), map_to_list_singleton.
Qed.

(** Two maps with the same keys are visited in the same order. *)
Lemma rangeMap_fmap {V W} o (f : V → W) (m : gmap string V) :
  rangeMap o (f <$> m) = prod_map id f <$> rangeMap o m.
Proof.
  unfold rangeMap. rewrite map_to_list_fmap, <- list_fmap_compose.
  replace ((fst ∘ prod_map id f) <$> map_to_list m) with (map_to_list m).*1
    by (apply list_fmap_ext; by intros ? []).
  induction (o (map_to_list m).*1) as [|k l IH]; [done|].
  cbn [omap list_omap]. rewrite lookup_fmap, IH. by destruct (m !! k).
Qed.

Lemma inOrder_fair : fairRuntime inOrder.
Proof. repeat split; by intros l. Qed.

Lemma backwards_fair : fairRuntime backwards.
Proof. repeat split; intros l; apply reverse_Permutation. Qed.

(** ** The providers *)

Section provider_facts.
Context `{Net}.
Import ProvidersPkg.

Implicit Types (p : Provider) (request : GoHTTP.Request).

Lemma isExcludedIP_unparsed p address :
  ParseIP address = None → isExcludedIP p address = true.
Proof. intros E. unfold isExcludedIP. by rewrite E. Qed.

Lemma isExcludedIP_parsed p address ip :
  ParseIP address = Some ip →
  isExcludedIP p address = true ↔
    (∃ n, n ∈ excludedNetworks p ∧ Contains n ip = true)
    ∨ (∃ a, a ∈ excludedAddresses p ∧ Equal ip a = true).
Proof.
  intros E. unfold isExcludedIP, getExcludedNetworks, getExcludedAddresses. rewrite E.
  destruct (existsb _ (excludedNetworks p)) eqn:En.
  - split; [intros _|done]. left.
    apply existsb_exists in En as (n & Hn & Hc). exists n. by rewrite list_elem_of_In.
  - destruct (existsb _ (excludedAddresses p)) eqn:Ea.
    + split; [intros _|done]. right.
      apply existsb_exists in Ea as (a & Ha & Hc). exists a. by rewrite list_elem_of_In.
    + split; [done|]. intros [(n & Hn & Hc)|(a & Ha & Hc)].
      * rewrite <- En. apply existsb_exists. exists n. by rewrite <- list_elem_of_In.
      * rewrite <- Ea. apply existsb_exists. exists a. by rewrite <- list_elem_of_In.
Qed.

(** The test looks at the exclusion set of the provider only. *)
Lemma isExcludedIP_ext p q address :
  excludedNetworks p = excludedNetworks q →
  excludedAddresses p = excludedAddresses q →
  isExcludedIP p address = isExcludedIP q address.
Proof.
  intros En Ea. unfold isExcludedIP, getExcludedNetworks, getExcludedAddresses.
  by rewrite En, Ea.
Qed.

Lemma isExcludedIP_excludedBy nets addrs key p address :
  standard nets addrs key p → isExcludedIP p address = excludedBy nets addrs address.
Proof. intros (_ & En & Ea & _). by apply isExcludedIP_ext. Qed.

Lemma fillStep_fields request p header :
  kind (fillStep request p header) = kind p
  ∧ name (fillStep request p header) = name p
  ∧ headers (fillStep request p header) = headers p
  ∧ excludedNetworks (fillStep request p header) = excludedNetworks p
  ∧ excludedAddresses (fillStep request p header) = excludedAddresses p.
Proof. unfold fillStep. by case_bool_decide. Qed.

Lemma fill_fields request hs p :
  kind (foldl (fillStep request) p hs) = kind p
  ∧ name (foldl (fillStep request) p hs) = name p
  ∧ headers (foldl (fillStep request) p hs) = headers p
  ∧ excludedNetworks (foldl (fillStep request) p hs) = excludedNetworks p
  ∧ excludedAddresses (foldl (fillStep request) p hs) = excludedAddresses p.
Proof.
  revert p. induction hs as [|h hs IH]; intros p; simpl; [done|].
  destruct (IH (fillStep request p h)) as (-> & -> & -> & -> & ->).
  apply fillStep_fields.
Qed.

Lemma fill_lookup request hs p h :
  values (foldl (fillStep request) p hs) !! h =
    match requestValue request h with
    | Some v => if bool_decide (h ∈ hs) then Some v else values p !! h
    | None => values p !! h
    end.
Proof.
  revert p. induction hs as [|h' hs IH]; intros p; cbn [foldl].
  - destruct (requestValue request h); [|done]. by rewrite bool_decide_eq_false_2 by set_solver.
  - rewrite IH. unfold requestValue, fillStep.
    destruct (decide (h = h')) as [->|Hne].
    + rewrite (bool_decide_eq_true_2 (h' ∈ h' :: hs)) by set_solver.
      destruct (bool_decide (GoHTTP.Get _ h' ≠ "")); [|done].
      unfold set_values; cbn [values]. rewrite lookup_insert_eq. by case_bool_decide.
    + rewrite (bool_decide_ext (h ∈ h' :: hs) (h ∈ hs))
        by (rewrite elem_of_cons; intuition congruence).
      destruct (bool_decide (GoHTTP.Get _ h ≠ "")), (bool_decide (GoHTTP.Get _ h' ≠ ""));
        unfold set_values; cbn [values]; by rewrite ?lookup_insert_ne.
Qed.

Lemma fillValues_fields p request :
  kind (fillValues p request) = kind p
  ∧ name (fillValues p request) = name p
  ∧ headers (fillValues p request) = headers p
  ∧ excludedNetworks (fillValues p request) = excludedNetworks p
  ∧ excludedAddresses (fillValues p request) = excludedAddresses p.
Proof. apply fill_fields. Qed.

(** What [fillValues] leaves in the map: the value of the request for a
    header of the provider that the request carries, and the value
    that was there for any other key. *)
Lemma candidate_lookup p request h :
  candidate p request h =
    match requestValue request h with
    | Some v => if bool_decide (h ∈ headers p) then Some v else values p !! h
    | None => values p !! h
    end.
Proof. apply fill_lookup. Qed.

Lemma candidate_fresh p request h :
  values p = ∅ → h ∈ headers p → candidate p request h = requestValue request h.
Proof.
  intros E Hh. rewrite candidate_lookup, E, lookup_empty.
  destruct (requestValue request h); [|done]. by rewrite bool_decide_eq_true_2.
Qed.

Lemma isExcludedIP_fillValues p request address :
  isExcludedIP (fillValues p request) address = isExcludedIP p address.
Proof. destruct (fillValues_fields p request) as (_ & _ & _ & ? & ?). by apply isExcludedIP_ext. Qed.

Lemma fillValues_standard nets addrs key p request :
  standard nets addrs key p → standard nets addrs key (fillValues p request).
Proof.
  intros ((k & Hk & Hkind & Hname & Hh) & Hn & Ha & Hv).
  destruct (fillValues_fields p request) as (Ek & En & Eh & Enets & Eaddrs).
  split; [exists k; by rewrite Ek, En, Eh|]. rewrite Enets, Eaddrs, Eh.
  split; [done|]. split; [done|]. intros h v.
  change (values (fillValues p request) !! h) with (candidate p request h).
  rewrite candidate_lookup. unfold requestValue.
  case_bool_decide; [case_bool_decide|]; try apply Hv.
  intros [= <-]. split; [done|]. apply TrimSpace_idemp.
Qed.

(** Two requests that agree on the headers of a provider leave the
    same values, and reading the same request again changes nothing. *)
Lemma fillValues_agree p request request' :
  (∀ h, h ∈ headers p → requestValue request' h = requestValue request h) →
  fillValues (fillValues p request) request' = fillValues p request.
Proof.
  intros Hagree.
  destruct (fillValues_fields p request) as (Ek & En & Eh & Enets & Eaddrs).
  destruct (fillValues_fields (fillValues p request) request') as (Ek' & En' & Eh' & Enets' & Eaddrs').
  assert (values (fillValues (fillValues p request) request') = values (fillValues p request)) as Ev.
  { apply map_eq. intros h.
    change (candidate (fillValues p request) request' h = candidate p request h).
    rewrite (candidate_lookup (fillValues p request)), Eh.
    change (values (fillValues p request) !! h) with (candidate p request h).
    rewrite candidate_lookup.
    destruct (decide (h ∈ headers p)) as [Hh|Hh].
    - rewrite (Hagree h Hh), bool_decide_eq_true_2 by done. by destruct (requestValue request h).
    - rewrite !bool_decide_eq_false_2 by done. by destruct (requestValue request' h), (requestValue request h). }
  destruct (fillValues (fillValues p request) request'), (fillValues p request).
  simpl in *. congruence.
Qed.

End provider_facts.

(** ** What the providers return *)

Section resolve_facts.
Context `{Net}.
Import ProvidersPkg.

Implicit Types (p : Provider) (request : GoHTTP.Request).

Lemma find_firstNonExcluded (f excluded : string → bool) l :
  (∀ c, f c = negb (excluded c)) →
  from_option id "" (List.find f l) = firstNonExcluded excluded l.
Proof.
  intros Hf. unfold firstNonExcluded.
  induction l as [|c l IH]; [done|]. cbn [List.find]. rewrite filter_cons, Hf.
  by destruct (excluded c).
Qed.

Lemma firstNonExcluded_cons excluded c l :
  firstNonExcluded excluded (c :: l) =
    if excluded c then firstNonExcluded excluded l else c.
Proof.
  unfold firstNonExcluded. rewrite filter_cons.
  by destruct (excluded c).
Qed.

Lemma firstNonExcluded_elem excluded l :
  firstNonExcluded excluded l ≠ "" →
  firstNonExcluded excluded l ∈ l ∧ excluded (firstNonExcluded excluded l) = false.
Proof.
  induction l as [|c l IH]; [done|]. rewrite firstNonExcluded_cons.
  destruct (excluded c) eqn:E; [|split; [left|done]].
  intros Hr. destruct (IH Hr). split; [by right|done].
Qed.

Lemma firstNonExcluded_all excluded l :
  (∀ c, c ∈ l → excluded c = true) → firstNonExcluded excluded l = "".
Proof.
  induction l as [|c l IH]; [done|]. intros Hl. rewrite firstNonExcluded_cons.
  rewrite (Hl c) by left. apply IH. intros; apply Hl; by right.
Qed.

(** The first candidate that passes is the result, whatever follows it. *)
Lemma firstNonExcluded_app excluded l c l' :
  (∀ x, x ∈ l → excluded x = true) → excluded c = false →
  firstNonExcluded excluded (l ++ c :: l') = c.
Proof.
  intros Hl Hc. induction l as [|x l IH]; simpl.
  - by rewrite firstNonExcluded_cons, Hc.
  - rewrite firstNonExcluded_cons, (Hl x) by left. apply IH. intros; apply Hl; by right.
Qed.

Lemma GenericProvider_GetRealIP_state gp request :
  (GenericProvider_GetRealIP gp request).2 = fillValues gp request.
Proof.
  unfold GenericProvider_GetRealIP.
  repeat (match goal with |- context [match ?x with _ => _ end] => destruct x end); done.
Qed.

Lemma GenericProvider_GetRealIP_result gp request :
  (GenericProvider_GetRealIP gp request).1 =
    firstNonExcluded (isExcludedIP gp)
      (genericCandidates (candidate gp request _genericProviderXRealIPHeader)
                         (candidate gp request _genericProviderXForwardedForHeader)).
Proof.
  unfold GenericProvider_GetRealIP, genericCandidates, candidate, GetValues.
  set (chain := values (fillValues gp request) !! _genericProviderXForwardedForHeader).
  assert (∀ l, from_option id ""
                 (List.find (λ ip, negb (isExcludedIP (fillValues gp request) ip)) l)
               = firstNonExcluded (isExcludedIP gp) l) as Hfind.
  { intros l. apply find_firstNonExcluded. intros c. by rewrite isExcludedIP_fillValues. }
  assert ((match chain with
           | Some value =>
               match List.find (λ ip, negb (isExcludedIP (fillValues gp request) ip))
                               (GoStrings.TrimSpace <$> GoStrings.Split value ",") with
               | Some ip => (ip, fillValues gp request)
               | None => ("", fillValues gp request)
               end
           | None => ("", fillValues gp request)
           end).1
          = firstNonExcluded (isExcludedIP gp)
              (from_option (λ chain, GoStrings.TrimSpace <$> GoStrings.Split chain ",") [] chain))
    as Hchain.
  { destruct chain as [value|]; simpl; [|done]. rewrite <- Hfind.
    by destruct (List.find _ _). }
  destruct (values (fillValues gp request) !! _genericProviderXRealIPHeader) as [v|]; simpl.
  - rewrite firstNonExcluded_cons, isExcludedIP_fillValues.
    destruct (isExcludedIP gp v); simpl; [apply Hchain|done].
  - apply Hchain.
Qed.

Lemma CloudflareProvider_GetRealIP_state o cfp request :
  (CloudflareProvider_GetRealIP o cfp request).2 = fillValues cfp request.
Proof. unfold CloudflareProvider_GetRealIP. by destruct (List.find _ _). Qed.

Lemma QratorProvider_GetRealIP_state o qp request :
  (QratorProvider_GetRealIP o qp request).2 = fillValues qp request.
Proof. unfold QratorProvider_GetRealIP. by destruct (List.find _ _). Qed.

Lemma GetRealIP_state rt p request :
  (GetRealIP rt p request).2 = fillValues p request.
Proof.
  unfold GetRealIP. destruct (kind p);
    auto using GenericProvider_GetRealIP_state, CloudflareProvider_GetRealIP_state,
               QratorProvider_GetRealIP_state.
Qed.

(** The first value of a map that passes, in the order of the runtime:
    a value of the map that passes, or nothing when none does. *)
Lemma find_rangeMap o (m : gmap string string) (f : string * string → bool) :
  fair o →
  match List.find f (rangeMap o m) with
  | Some kv => m !! kv.1 = Some kv.2 ∧ f kv = true
  | None => ∀ k v, m !! k = Some v → f (k, v) = false
  end.
Proof.
  intros Ho. destruct (List.find f (rangeMap o m)) as [[k v]|] eqn:E.
  - apply find_some in E as [Hin Hf]. split; [|done].
    by apply (rangeMap_elem_of o m k v Ho), list_elem_of_In.
  - intros k v Hkv. apply (find_none _ _ E (k, v)).
    by apply list_elem_of_In, (rangeMap_elem_of o m k v Ho).
Qed.

Lemma CloudflareProvider_GetRealIP_result o cfp request :
  fair o →
  let r := (CloudflareProvider_GetRealIP o cfp request).1 in
  (∃ h, candidate cfp request h = Some r ∧ isExcludedIP cfp r = false)
  ∨ (r = "" ∧ ∀ h v, candidate cfp request h = Some v → isExcludedIP cfp v = true).
Proof.
  intros Ho. unfold CloudflareProvider_GetRealIP, candidate, GetValues.
  pose proof (find_rangeMap o (values (fillValues cfp request))
                (λ kv, negb (isExcludedIP (fillValues cfp request) kv.2)) Ho) as Hfind.
  destruct (List.find _ _) as [[h v]|]; simpl in *.
  - left. exists h. destruct Hfind as [Hv Hex]. rewrite isExcludedIP_fillValues in Hex.
    split; [done|]. by destruct (isExcludedIP cfp v).
  - right. split; [done|]. intros h v Hv. specialize (Hfind h v Hv).
    rewrite isExcludedIP_fillValues in Hfind. by destruct (isExcludedIP cfp v).
Qed.

Lemma QratorProvider_GetRealIP_result o qp request :
  fair o →
  let r := (QratorProvider_GetRealIP o qp request).1 in
  (∃ h, candidate qp request h = Some r ∧ isExcludedIP qp r = false)
  ∨ (r = "" ∧ ∀ h v, candidate qp request h = Some v → isExcludedIP qp v = true).
Proof.
  intros Ho. unfold QratorProvider_GetRealIP, candidate, GetValues.
  pose proof (find_rangeMap o (values (fillValues qp request))
                (λ kv, negb (isExcludedIP (fillValues qp request) kv.2)) Ho) as Hfind.
  destruct (List.find _ _) as [[h v]|]; simpl in *.
  - left. exists h. destruct Hfind as [Hv Hex]. rewrite isExcludedIP_fillValues in Hex.
    split; [done|]. by destruct (isExcludedIP qp v).
  - right. split; [done|]. intros h v Hv. specialize (Hfind h v Hv).
    rewrite isExcludedIP_fillValues in Hfind. by destruct (isExcludedIP qp v).
Qed.

(** The Qrator provider has one header: its result does not depend on
    the order of the runtime. *)
Lemma QratorProvider_GetRealIP_standard o nets addrs qp request :
  fair o → standard nets addrs "qrator" qp →
  (QratorProvider_GetRealIP o qp request).1 =
    firstNonExcluded (isExcludedIP qp)
      (option_list (candidate qp request _qratorProviderXQratorIPSourceHeader)).
Proof.
  intros Ho Hstd. apply (fillValues_standard _ _ _ _ request) in Hstd.
  destruct Hstd as ((k & Hk & _ & _ & Hh) & _ & _ & Hv).
  assert (k = Qrator) as -> by (destruct Hk as [[? _]|[[? _]|[_ ?]]]; done).
  simpl in Hh. rewrite Hh in Hv.
  unfold QratorProvider_GetRealIP, candidate, GetValues.
  set (m := values (fillValues qp request)) in *.
  destruct (m !! _qratorProviderXQratorIPSourceHeader) as [v|] eqn:E.
  - assert (m = {[_qratorProviderXQratorIPSourceHeader := v]}) as ->.
    { apply map_eq. intros h. destruct (decide (h = _qratorProviderXQratorIPSourceHeader)) as [->|Hne].
      - by rewrite lookup_singleton_eq.
      - rewrite lookup_singleton_ne by done. destruct (m !! h) eqn:E'; [|done].
        destruct (Hv _ _ E') as [Hin _]. by apply list_elem_of_singleton in Hin. }
    rewrite (rangeMap_singleton o _ _ Ho). simpl.
    rewrite firstNonExcluded_cons, isExcludedIP_fillValues.
    by destruct (isExcludedIP qp v).
  - assert (m = ∅) as ->.
    { apply map_eq. intros h. rewrite lookup_empty. destruct (m !! h) eqn:E'; [|done].
      destruct (Hv _ _ E') as [Hin _]. apply list_elem_of_singleton in Hin. congruence. }
    by rewrite (rangeMap_empty o Ho).
Qed.

End resolve_facts.

Section accepted.
Context `{Net}.
Import ProvidersPkg.

(** An address a standard provider returns passes the exclusion test of
    the handler and has no white space around it. *)
Lemma GetRealIP_accepted rt nets addrs key p request :
  fairRuntime rt → standard nets addrs key p →
  (GetRealIP rt p request).1 ≠ "" →
  excludedBy nets addrs (GetRealIP rt p request).1 = false
  ∧ GoStrings.TrimSpace (GetRealIP rt p request).1 = (GetRealIP rt p request).1.
Proof.
  intros (Hcf & Hq & _) Hstd.
  pose proof (fillValues_standard _ _ _ _ request Hstd) as (_ & _ & _ & Hv).
  assert (∀ r, (∃ h, candidate p request h = Some r ∧ isExcludedIP p r = false)
               ∨ (r = "" ∧ ∀ h v, candidate p request h = Some v → isExcludedIP p v = true) →
               r ≠ "" → excludedBy nets addrs r = false ∧ GoStrings.TrimSpace r = r) as Hmap.
  { intros r [(h & Hc & Hex)|[-> _]] Hr; [|done].
    rewrite <- (isExcludedIP_excludedBy _ _ _ _ _ Hstd). split; [done|]. by eapply Hv. }
  unfold GetRealIP. destruct (kind p).
  - rewrite GenericProvider_GetRealIP_result. intros Hr.
    destruct (firstNonExcluded_elem _ _ Hr) as [Hin Hex].
    rewrite <- (isExcludedIP_excludedBy _ _ _ _ _ Hstd). split; [done|].
    clear Hr Hex. revert Hin. generalize (firstNonExcluded (isExcludedIP p)
      (genericCandidates (candidate p request _genericProviderXRealIPHeader)
                         (candidate p request _genericProviderXForwardedForHeader))).
    intros r Hin.
    unfold genericCandidates in Hin. apply elem_of_app in Hin as [Hin|Hin].
    + destruct (candidate p request _genericProviderXRealIPHeader) as [v|] eqn:E;
        simpl in Hin; [|by apply elem_of_nil in Hin].
      apply list_elem_of_singleton in Hin. rewrite Hin. by eapply Hv.
    + destruct (candidate p request _genericProviderXForwardedForHeader) as [v|];
        simpl in Hin; [|by apply elem_of_nil in Hin].
      apply list_elem_of_fmap in Hin as (t & -> & _). apply TrimSpace_idemp.
  - apply Hmap, CloudflareProvider_GetRealIP_result, Hcf.
  - apply Hmap, QratorProvider_GetRealIP_result, Hq.
Qed.

End accepted.

(** ** The handler of [src/real_ip.go] *)

Section realip_facts.
Context `{Net} {ResponseWriter : Type}.
Import RealIP.

Implicit Types (trip : TraefikRealIP (ResponseWriter := ResponseWriter)).
Implicit Types (request : GoHTTP.Request) (next : Handler ResponseWriter).

(** The answer of the preferred provider, when [ServeHTTP] asks one. *)
Lemma resolveRealIP_eq rt trip request gp cfp qp :
  genericProvider trip = Some gp →
  cloudflareProvider trip = Some cfp →
  qratorProvider trip = Some qp →
  resolveRealIP rt trip request =
    let preferred :=
      if bool_decide (preferredProvider trip = "cloudflare")
      then answer rt trip "cloudflare" request
      else if bool_decide (preferredProvider trip = "qrator")
      then answer rt trip "qrator" request
      else "" in
    let trip1 :=
      if bool_decide (preferredProvider trip = "cloudflare")
      then set_cloudflareProvider trip (Some (ProvidersPkg.fillValues cfp request))
      else if bool_decide (preferredProvider trip = "qrator")
      then set_qratorProvider trip (Some (ProvidersPkg.fillValues qp request))
      else trip in
    Some (if bool_decide (preferred = "")
          then (answer rt trip "generic" request,
                set_genericProvider trip1 (Some (ProvidersPkg.fillValues gp request)))
          else (preferred, trip1)).
Proof.
  intros Hg Hc Hq. unfold resolveRealIP, answer, HasPreferredProvider, GetPreferredProvider.
  rewrite Hg, Hc, Hq. simpl.
  pose proof (CloudflareProvider_GetRealIP_state (rangeCloudflareValues rt) cfp request) as Ecf.
  pose proof (QratorProvider_GetRealIP_state (rangeQratorValues rt) qp request) as Eq.
  pose proof (GenericProvider_GetRealIP_state gp request) as Eg.
  destruct (decide (preferredProvider trip = "cloudflare")) as [E|E].
  - rewrite (bool_decide_eq_true_2 _ E).
    rewrite (bool_decide_eq_true_2 (preferredProvider trip ≠ "")) by (rewrite E; done).
    destruct (ProvidersPkg.CloudflareProvider_GetRealIP _ cfp request) as [c cfp'].
    simpl in *. subst cfp'.
    rewrite (bool_decide_eq_false_2 (preferredProvider trip = "qrator")) by (rewrite E; done).
    simpl. case_bool_decide; [|done]. rewrite Hg. simpl.
    destruct (ProvidersPkg.GenericProvider_GetRealIP gp request) as [g gp'].
    simpl in *. by subst gp'.
  - rewrite (bool_decide_eq_false_2 _ E).
    destruct (decide (preferredProvider trip = "qrator")) as [E'|E'].
    + rewrite (bool_decide_eq_true_2 _ E').
      rewrite (bool_decide_eq_true_2 (preferredProvider trip ≠ "")) by (rewrite E'; done).
      simpl. rewrite (bool_decide_eq_true_2 _ E'), Hq. simpl.
      destruct (ProvidersPkg.QratorProvider_GetRealIP _ qp request) as [q qp'].
      simpl in *. subst qp'. case_bool_decide; [|done]. rewrite Hg. simpl.
      destruct (ProvidersPkg.GenericProvider_GetRealIP gp request) as [g gp'].
      simpl in *. by subst gp'.
    + rewrite (bool_decide_eq_false_2 _ E').
      assert ((if bool_decide (preferredProvider trip ≠ "")
               then Some ("", trip) ≫= (λ '(realIP, trip0),
                      if bool_decide (preferredProvider trip0 = "qrator")
                      then qratorProvider trip0 ≫= (λ qp0,
                             let '(ip, qp1) :=
                               ProvidersPkg.QratorProvider_GetRealIP (rangeQratorValues rt) qp0 request in
                             Some (ip, set_qratorProvider trip0 (Some qp1)))
                      else Some (realIP, trip0))
               else Some ("", trip)) = Some ("", trip)) as ->.
      { case_bool_decide; [|done]. simpl. by rewrite (bool_decide_eq_false_2 _ E'). }
      simpl. rewrite Hg. simpl.
      destruct (ProvidersPkg.GenericProvider_GetRealIP gp request) as [g gp'].
      simpl in *. by subst gp'.
Qed.

Lemma existsb_elem_of (x : string) (l : list string) :
  existsb (λ value, bool_decide (value = x)) l = bool_decide (x ∈ l).
Proof.
  induction l as [|y l IH]; cbn [existsb].
  - symmetry. apply bool_decide_eq_false_2, not_elem_of_nil.
  - rewrite IH. destruct (decide (y = x)) as [->|Hne].
    + rewrite (bool_decide_eq_true_2 (x = x)) by done.
      by rewrite (bool_decide_eq_true_2 (x ∈ x :: l)) by left.
    + rewrite (bool_decide_eq_false_2 (y = x)) by done. simpl.
      apply bool_decide_ext. rewrite elem_of_cons. intuition congruence.
Qed.

Lemma parseExcludedNetworks_inl values acc v :
  v ∈ values → ParseCIDR v = None →
  ∃ v', v' ∈ values ∧ ParseCIDR v' = None
        ∧ parseExcludedNetworks values acc = inl (ParseError "CIDR address" v').
Proof.
  revert acc. induction values as [|x values IH]; intros acc Hin Hv.
  - by apply elem_of_nil in Hin.
  - simpl. destruct (ParseCIDR x) as [n|] eqn:E.
    + apply elem_of_cons in Hin as [->|Hin]; [congruence|].
      destruct (IH (acc ++ [n]) Hin Hv) as (v' & Hin' & Hv' & ->).
      exists v'. split; [by right|done].
    + exists x. split; [left|done].
Qed.

Lemma parseExcludedNetworks_inr values acc :
  (∀ v, v ∈ values → is_Some (ParseCIDR v)) →
  parseExcludedNetworks values acc = inr (acc ++ omap ParseCIDR values).
Proof.
  revert acc. induction values as [|x values IH]; intros acc Hall; simpl.
  - by rewrite app_nil_r.
  - destruct (Hall x) as [n Hn]; [left|]. rewrite Hn. simpl.
    rewrite IH by (intros; apply Hall; by right). by rewrite <- app_assoc.
Qed.

Lemma find_invalid_None (valid : list string) (l : list string) :
  (∀ x, x ∈ l → x ∈ valid) →
  List.find (λ provider, negb (existsb (λ value, bool_decide (value = provider)) valid)) l = None.
Proof.
  induction l as [|x l IH]; intros Hl; simpl; [done|].
  rewrite existsb_elem_of, bool_decide_eq_true_2 by (apply Hl; left). simpl.
  apply IH. intros; apply Hl; by right.
Qed.

Lemma find_invalid_Some (valid : list string) (l : list string) x :
  x ∈ l → x ∉ valid →
  is_Some (List.find (λ provider, negb (existsb (λ value, bool_decide (value = provider)) valid)) l).
Proof.
  induction l as [|y l IH]; intros Hin Hx; [by apply elem_of_nil in Hin|]. simpl.
  rewrite existsb_elem_of. destruct (decide (y ∈ valid)) as [Hy|Hy].
  - rewrite bool_decide_eq_true_2 by done. simpl. apply IH; [|done].
    apply elem_of_cons in Hin as [->|]; done.
  - rewrite bool_decide_eq_false_2 by done. simpl. by eexists.
Qed.

Lemma New_inr next config name trip :
  New next config name = inr trip →
  ∃ nets, parseExcludedNetworks (ExcludedNetworks config) [] = inr nets
          ∧ trip = made next config name nets.
Proof.
  unfold New. destruct (parseExcludedNetworks _ _) as [e|nets]; [done|].
  destruct (_ && _); [done|]. destruct (List.find _ _); [done|].
  assert (bool_decide (Providers config ≠ None)
          || bool_decide (length (elems (Providers config)) = 0) = true) as ->.
  { by destruct (Providers config). }
  intros [= <-]. by exists nets.
Qed.

Lemma New_ok next config name :
  (∀ v, v ∈ ExcludedNetworks config → is_Some (ParseCIDR v)) →
  (∀ p, p ∈ elems (Providers config) → p ∈ ["generic"; "cloudflare"; "qrator"]) →
  PreferredProvider config = ""
    ∨ PreferredProvider config ∈ ["generic"; "cloudflare"; "qrator"] →
  New next config name
  = inr (made next config name (omap ParseCIDR (ExcludedNetworks config))).
Proof.
  intros Hnets Hps Hpref. unfold New.
  rewrite (parseExcludedNetworks_inr _ [] Hnets). simpl.
  unfold IsValidProvider. simpl availableProviders.
  assert (bool_decide (PreferredProvider config ≠ "")
          && negb (existsb (λ value, bool_decide (value = PreferredProvider config))
                           ["generic"; "cloudflare"; "qrator"]) = false) as ->.
  { destruct Hpref as [->|Hin]; [done|].
    rewrite existsb_elem_of, (bool_decide_eq_true_2 _ Hin). simpl. apply andb_false_r. }
  rewrite (find_invalid_None _ _ Hps).
  assert (bool_decide (Providers config ≠ None)
          || bool_decide (length (elems (Providers config)) = 0) = true) as ->.
  { by destruct (Providers config). }
  done.
Qed.

Lemma made_wellFormed next config name nets :
  wellFormed (made next config name nets).
Proof.
  repeat split; eexists; (split; [done|]).
  - split; [exists ProvidersPkg.Generic; naive_solver|]. by repeat split.
  - split; [exists ProvidersPkg.Cloudflare; naive_solver|]. by repeat split.
  - split; [exists ProvidersPkg.Qrator; naive_solver|]. by repeat split.
Qed.

(** A handler that is well formed serves the request, and is well
    formed afterwards. *)
Lemma resolveRealIP_wellFormed rt trip request :
  wellFormed trip →
  ∃ realIP trip',
    resolveRealIP rt trip request = Some (realIP, trip')
    ∧ wellFormed trip'
    ∧ next trip' = next trip
    ∧ preferredProvider trip' = preferredProvider trip
    ∧ excludedNetworks trip' = excludedNetworks trip
    ∧ excludedAddresses trip' = excludedAddresses trip.
Proof.
  intros ((gp & Hg & Sg) & (cfp & Hc & Sc) & (qp & Hq & Sq)).
  rewrite (resolveRealIP_eq rt trip request gp cfp qp Hg Hc Hq).
  pose proof (fillValues_standard _ _ _ _ request Sg) as Sg'.
  pose proof (fillValues_standard _ _ _ _ request Sc) as Sc'.
  pose proof (fillValues_standard _ _ _ _ request Sq) as Sq'.
  cbv zeta.
  repeat case_bool_decide; eexists _, _; (split; [done|]); simpl;
    (split; [|done]); unfold wellFormed; simpl; rewrite ?Hg, ?Hc, ?Hq; eauto 10.
Qed.

End realip_facts.

(** ** The handler with the providers behind the interface *)

Section interface_facts.
Context `{Net} {U : GoStrings.UnicodeTables} {ResponseWriter : Type}.
Import RealIPInterface.

Implicit Types (trip : TraefikRealIP (ResponseWriter := ResponseWriter)).
Implicit Types (request : GoHTTP.Request) (next : Handler ResponseWriter).

Lemma trip_eq trip trip' :
  next trip = next trip' → name trip = name trip' →
  excludedNetworks trip = excludedNetworks trip' →
  excludedAddresses trip = excludedAddresses trip' →
  providers trip = providers trip' →
  preferredProvider trip = preferredProvider trip' →
  providersIPs trip = providersIPs trip' →
  trip = trip'.
Proof. destruct trip, trip'; simpl; congruence. Qed.

Lemma collectStep_fields rt request trip k p :
  next (collectStep rt request trip (k, p)) = next trip
  ∧ name (collectStep rt request trip (k, p)) = name trip
  ∧ excludedNetworks (collectStep rt request trip (k, p)) = excludedNetworks trip
  ∧ excludedAddresses (collectStep rt request trip (k, p)) = excludedAddresses trip
  ∧ preferredProvider (collectStep rt request trip (k, p)) = preferredProvider trip
  ∧ providers (collectStep rt request trip (k, p))
    = <[k := ProvidersPkg.fillValues p request]> (providers trip)
  ∧ providersIPs (collectStep rt request trip (k, p))
    = if bool_decide ((ProvidersPkg.GetRealIP rt p request).1 ≠ "")
      then <[k := (ProvidersPkg.GetRealIP rt p request).1]> (providersIPs trip)
      else providersIPs trip.
Proof.
  unfold collectStep.
  pose proof (GetRealIP_state rt p request) as Est.
  destruct (ProvidersPkg.GetRealIP rt p request) as [r p']. simpl in *. subst p'.
  by case_bool_decide.
Qed.

(** The first loop of [ServeHTTP] over entries of distinct keys. *)
Lemma collect_fold rt request (l : list (string * ProvidersPkg.Provider)) trip :
  NoDup l.*1 →
  next (foldl (collectStep rt request) trip l) = next trip
  ∧ name (foldl (collectStep rt request) trip l) = name trip
  ∧ excludedNetworks (foldl (collectStep rt request) trip l) = excludedNetworks trip
  ∧ excludedAddresses (foldl (collectStep rt request) trip l) = excludedAddresses trip
  ∧ preferredProvider (foldl (collectStep rt request) trip l) = preferredProvider trip
  ∧ (∀ key, providers (foldl (collectStep rt request) trip l) !! key =
            match (list_to_map l : gmap string ProvidersPkg.Provider) !! key with
            | Some p => Some (ProvidersPkg.fillValues p request)
            | None => providers trip !! key
            end)
  ∧ (∀ key, providersIPs (foldl (collectStep rt request) trip l) !! key =
            match (list_to_map l : gmap string ProvidersPkg.Provider) !! key with
            | Some p =>
                if bool_decide ((ProvidersPkg.GetRealIP rt p request).1 ≠ "")
                then Some (ProvidersPkg.GetRealIP rt p request).1
                else providersIPs trip !! key
            | None => providersIPs trip !! key
            end).
Proof.
  revert trip. induction l as [|[k p] l IH]; intros trip Hnd; [done|].
  apply NoDup_cons in Hnd as [Hk Hnd]. cbn [foldl].
  destruct (IH (collectStep rt request trip (k, p)) Hnd) as (-> & -> & -> & -> & -> & Hps & Hips).
  assert ((list_to_map l : gmap string ProvidersPkg.Provider) !! k = None) as Hnone
    by by apply not_elem_of_list_to_map_1.
  destruct (collectStep_fields rt request trip k p) as (-> & -> & -> & -> & -> & Ep & Ei).
  repeat split.
  - intros key. rewrite Hps, Ep. cbn [list_to_map foldr]. simpl fst; simpl snd.
    destruct (decide (key = k)) as [->|Hne].
    + by rewrite Hnone, !lookup_insert_eq.
    + by rewrite !(lookup_insert_ne _ k key) by done.
  - intros key. rewrite Hips, Ei. cbn [list_to_map foldr]. simpl fst; simpl snd.
    destruct (decide (key = k)) as [->|Hne].
    + rewrite Hnone, lookup_insert_eq. case_bool_decide; by rewrite ?lookup_insert_eq.
    + rewrite (lookup_insert_ne _ k key) by done.
      assert ((if bool_decide ((ProvidersPkg.GetRealIP rt p request).1 ≠ "")
               then <[k := (ProvidersPkg.GetRealIP rt p request).1]> (providersIPs trip)
               else providersIPs trip) !! key = providersIPs trip !! key) as ->
        by (case_bool_decide; by rewrite ?lookup_insert_ne).
      done.
Qed.

Lemma list_to_map_rangeMap {V} o (m : gmap string V) :
  fair o → list_to_map (rangeMap o m) = m.
Proof.
  intros Ho. rewrite <- (list_to_map_to_list m) at 2.
  apply list_to_map_proper; [by apply rangeMap_NoDup|by apply rangeMap_perm].
Qed.

Lemma answers_lookup rt trip request key :
  answers rt trip request !! key =
    match providers trip !! key with
    | Some p =>
        if bool_decide ((ProvidersPkg.GetRealIP rt p request).1 ≠ "")
        then Some (ProvidersPkg.GetRealIP rt p request).1 else None
    | None => None
    end.
Proof. unfold answers. rewrite lookup_omap. by destruct (providers trip !! key). Qed.

(** The first loop, whatever the order in which the providers are asked. *)
Lemma collect_collected rt trip request :
  fair (rangeCollect rt) → collect rt trip request = collected rt trip request.
Proof.
  intros Ho. unfold collect, GetProviders.
  destruct (collect_fold rt request (rangeMap (rangeCollect rt) (providers trip)) trip
              (rangeMap_NoDup _ _ Ho)) as (En & Ena & Ene & Ea & Ep & Hps & Hips).
  rewrite (list_to_map_rangeMap _ _ Ho) in Hps, Hips.
  apply trip_eq; try done.
  - apply map_eq. intros key. rewrite Hps. simpl. rewrite lookup_fmap.
    by destruct (providers trip !! key).
  - apply map_eq. intros key. rewrite Hips. simpl.
    rewrite lookup_union, answers_lookup.
    destruct (providers trip !! key); [case_bool_decide|];
      by destruct (providersIPs trip !! key).
Qed.

(** The handler after [ServeHTTP]: the result of the generic provider is
    taken off the record, every other result stays. *)
Lemma iface_resolveRealIP_state rt trip request :
  fair (rangeCollect rt) →
  (resolveRealIP rt trip request).2
  = set_providersIPs (collected rt trip request)
      (delete "generic" (providersIPs (collected rt trip request))).
Proof.
  intros Ho. unfold resolveRealIP. rewrite (collect_collected _ _ _ Ho).
  destruct (providersIPs (collected rt trip request) !! "generic") eqn:E; simpl; [done|].
  apply trip_eq; try done. simpl. by rewrite delete_id.
Qed.

(** The address [ServeHTTP] settles on when a provider is preferred. *)
Lemma iface_resolveRealIP_preferred rt trip request :
  fair (rangeCollect rt) → preferredProvider trip ≠ "" →
  let ips := providersIPs (collected rt trip request) in
  (resolveRealIP rt trip request).1
  = default (default "" (ips !! "generic"))
            (delete "generic" ips !! preferredProvider trip).
Proof.
  intros Ho Hpref ips. unfold resolveRealIP. rewrite (collect_collected _ _ _ Ho).
  fold ips. unfold HasPreferredProvider, GetPreferredProvider.
  destruct (ips !! "generic") as [g|] eqn:E; cbn [fst snd default].
  - cbn [providersIPs preferredProvider set_providersIPs collected set_providers].
    rewrite (bool_decide_eq_true_2 _ Hpref).
    case_bool_decide as Hsize; [by destruct (_ !! _)|].
    assert (delete "generic" ips = ∅) as -> by (apply map_size_empty_iff; lia).
    by rewrite lookup_empty.
  - rewrite (delete_id ips) by done.
    cbn [providersIPs preferredProvider set_providersIPs collected set_providers].
    rewrite (bool_decide_eq_true_2 _ Hpref).
    change (answers rt trip request ∪ providersIPs trip) with ips.
    case_bool_decide as Hsize; [by destruct (_ !! _)|].
    assert (ips = ∅) as -> by (apply map_size_empty_iff; lia).
    by rewrite lookup_empty.
Qed.

(** The address [ServeHTTP] settles on without a preference: the result
    on record of the provider the second loop meets first, else the
    result of the generic provider. *)
Lemma iface_resolveRealIP_unpreferred rt trip request :
  fair (rangeCollect rt) → preferredProvider trip = "" →
  let c := collected rt trip request in
  let ips := delete "generic" (providersIPs c) in
  (resolveRealIP rt trip request).1
  = match List.find (λ entry, bool_decide (is_Some (ips !! ProvidersPkg.GetName entry.2)))
                    (rangeMap (rangeSelect rt) (providers c)) with
    | Some entry => default "" (ips !! ProvidersPkg.GetName entry.2)
    | None => default "" (providersIPs c !! "generic")
    end.
Proof.
  intros Ho Hpref c ips. unfold resolveRealIP. rewrite (collect_collected _ _ _ Ho).
  fold c. unfold HasPreferredProvider, GetPreferredProvider, GetProviders.
  assert (∀ (m : gmap string string) g,
            (if bool_decide (0 < size m)
             then match List.find (λ entry, bool_decide (is_Some (m !! ProvidersPkg.GetName entry.2)))
                                  (rangeMap (rangeSelect rt) (providers c)) with
                  | Some entry => default "" (m !! ProvidersPkg.GetName entry.2)
                  | None => g
                  end
             else g)
            = match List.find (λ entry, bool_decide (is_Some (m !! ProvidersPkg.GetName entry.2)))
                              (rangeMap (rangeSelect rt) (providers c)) with
              | Some entry => default "" (m !! ProvidersPkg.GetName entry.2)
              | None => g
              end) as Hsel.
  { intros m g. case_bool_decide as Hsize; [done|].
    assert (m = ∅) as -> by (apply map_size_empty_iff; lia).
    destruct (List.find _ _) as [entry|] eqn:E; [|done].
    apply find_some in E as [_ E]. rewrite lookup_empty in E.
    apply bool_decide_eq_true in E. by destruct E. }
  destruct (providersIPs c !! "generic") as [g|] eqn:E; cbn [fst snd default].
  - cbn [providersIPs preferredProvider providers set_providersIPs].
    replace (preferredProvider c) with "" by done.
    rewrite (bool_decide_eq_false_2 ("" ≠ "")) by (intros ?; done).
    apply Hsel.
  - replace (preferredProvider c) with "" by done.
    rewrite (bool_decide_eq_false_2 ("" ≠ "")) by (intros ?; done).
    unfold ips. rewrite (delete_id (providersIPs c)) by done. apply Hsel.
Qed.

(** *** Construction *)

Lemma Initialize_providers nets addrs :
  ProvidersPkg.providers (ProvidersPkg.Initialize nets addrs)
  = <["generic" := ProvidersPkg.InitializeGenericProvider nets addrs]>
      (<["cloudflare" := ProvidersPkg.CloudflareProvider_Initialize nets addrs]>
         {["qrator" := ProvidersPkg.QratorProvider_Initialize nets addrs]}).
Proof.
  unfold ProvidersPkg.Initialize. cbn [ProvidersPkg.providers].
  by rewrite !fmap_insert, map_fmap_singleton.
Qed.

Lemma Initialize_lookup nets addrs key :
  ProvidersPkg.providers (ProvidersPkg.Initialize nets addrs) !! key
  = if bool_decide (key = "generic")
    then Some (ProvidersPkg.InitializeGenericProvider nets addrs)
    else if bool_decide (key = "cloudflare")
    then Some (ProvidersPkg.CloudflareProvider_Initialize nets addrs)
    else if bool_decide (key = "qrator")
    then Some (ProvidersPkg.QratorProvider_Initialize nets addrs)
    else None.
Proof.
  rewrite Initialize_providers.
  repeat (case_bool_decide; [subst key; by simplify_map_eq|]).
  by simplify_map_eq.
Qed.

Lemma Initialize_standard nets addrs key p :
  ProvidersPkg.providers (ProvidersPkg.Initialize nets addrs) !! key = Some p →
  standard nets addrs key p ∧ ProvidersPkg.values p = ∅.
Proof.
  rewrite Initialize_lookup.
  repeat case_bool_decide; intros [= <-]; subst key; (split; [|done]).
  - split; [exists ProvidersPkg.Generic; naive_solver|]. by repeat split.
  - split; [exists ProvidersPkg.Cloudflare; naive_solver|]. by repeat split.
  - split; [exists ProvidersPkg.Qrator; naive_solver|]. by repeat split.
Qed.

(** A name is valid when it is one of the three, whatever the order
    in which the registry is listed. *)
Lemma IsValidProvider_names o nets addrs provider :
  fair o →
  ProvidersPkg.IsValidProvider o (ProvidersPkg.Initialize nets addrs) provider
  = bool_decide (provider ∈ names).
Proof.
  intros Ho. unfold ProvidersPkg.IsValidProvider, ProvidersPkg.GetAvailableProviders.
  rewrite existsb_elem_of. apply bool_decide_ext.
  rewrite (rangeMap_perm o _ Ho), list_elem_of_fmap. split.
  - intros ([k p] & -> & Hin). apply elem_of_map_to_list in Hin.
    rewrite Initialize_lookup in Hin. unfold names. simpl.
    repeat case_bool_decide; try done; subst k; repeat constructor.
  - intros Hin.
    assert (is_Some (ProvidersPkg.providers (ProvidersPkg.Initialize nets addrs) !! provider))
      as [p Hp].
    { rewrite Initialize_lookup. unfold names in Hin.
      repeat case_bool_decide; try by eexists. no_name Hin. }
    exists (provider, p). split; [done|]. by apply elem_of_map_to_list.
Qed.

Lemma enableProviders_invalid o nets addrs values acc v :
  fair o → v ∈ values → GoStrings.TrimSpace (GoStrings.ToLower v) ∉ names →
  enableProviders o (ProvidersPkg.Initialize nets addrs) values acc
  = inl ProvidersPkg.ErrorInvalidProvider.
Proof.
  intros Ho. revert acc. induction values as [|x values IH]; intros acc Hin Hv.
  - by apply elem_of_nil in Hin.
  - cbn [enableProviders]. rewrite (IsValidProvider_names o _ _ _ Ho).
    case_bool_decide as Hx; [|done].
    destruct (ProvidersPkg.GetProvider _ _); [|done].
    apply IH; [|done]. apply elem_of_cons in Hin as [->|]; done.
Qed.

Lemma enableProviders_valid o nets addrs values acc :
  fair o → (∀ v, v ∈ values → GoStrings.TrimSpace (GoStrings.ToLower v) ∈ names) →
  ∃ ps, enableProviders o (ProvidersPkg.Initialize nets addrs) values acc = inr ps
        ∧ ∀ key p, ps !! key = Some p →
                   acc !! key = Some p
                   ∨ ProvidersPkg.providers (ProvidersPkg.Initialize nets addrs) !! key = Some p.
Proof.
  intros Ho. revert acc. induction values as [|x values IH]; intros acc Hall.
  - exists acc. split; [done|]. by left.
  - cbn [enableProviders]. rewrite (IsValidProvider_names o _ _ _ Ho).
    rewrite bool_decide_eq_true_2 by (apply Hall; left).
    unfold ProvidersPkg.GetProvider.
    destruct (ProvidersPkg.providers _ !! _) as [p|] eqn:Ep.
    + destruct (IH (<[GoStrings.TrimSpace (GoStrings.ToLower x) := p]> acc)) as (ps & -> & Hps).
      { intros; apply Hall; by right. }
      exists ps. split; [done|]. intros key q Hq. destruct (Hps key q Hq) as [Hacc|]; [|by right].
      destruct (decide (key = GoStrings.TrimSpace (GoStrings.ToLower x))) as [->|Hne].
      * rewrite lookup_insert_eq in Hacc. right. congruence.
      * rewrite lookup_insert_ne in Hacc by done. by left.
    + exfalso. rewrite Initialize_lookup in Ep.
      assert (GoStrings.TrimSpace (GoStrings.ToLower x) ∈ names) as Hin by (apply Hall; left).
      repeat case_bool_decide; try done. no_name Hin.
Qed.

Lemma enableProviders_inr o manager values acc ps :
  enableProviders o manager values acc = inr ps →
  ∀ key p, ps !! key = Some p →
           acc !! key = Some p ∨ ProvidersPkg.providers manager !! key = Some p.
Proof.
  revert acc. induction values as [|x values IH]; intros acc; cbn [enableProviders].
  - intros [= <-]. by left.
  - destruct (ProvidersPkg.IsValidProvider _ _ _); [|done].
    unfold ProvidersPkg.GetProvider.
    destruct (ProvidersPkg.providers manager !! _) as [q|] eqn:Eq; [|done].
    intros Hps key p Hp. destruct (IH _ Hps key p Hp) as [Hacc|]; [|by right].
    destruct (decide (key = GoStrings.TrimSpace (GoStrings.ToLower x))) as [->|Hne].
    + rewrite lookup_insert_eq in Hacc. right. congruence.
    + rewrite lookup_insert_ne in Hacc by done. by left.
Qed.

Lemma iface_New_inr rt next config name trip :
  New rt next config name = inr trip →
  ∃ nets,
    parseExcludedNetworks (ExcludedNetworks config) [] = inr nets
    ∧ RealIPInterface.next trip = next
    ∧ excludedNetworks trip = nets
    ∧ excludedAddresses trip = parseExcludedAddresses (ExcludedAddresses config)
    ∧ preferredProvider trip = PreferredProvider config
    ∧ providersIPs trip = ∅
    ∧ (∀ key p, providers trip !! key = Some p →
                ProvidersPkg.providers
                  (ProvidersPkg.Initialize nets (parseExcludedAddresses (ExcludedAddresses config)))
                !! key = Some p)
    ∧ is_Some (providers trip !! "generic").
Proof.
  unfold New. destruct (parseExcludedNetworks _ _) as [e|nets]; [done|].
  cbn [GetExcludedNetworks GetExcludedAddresses excludedNetworks excludedAddresses providers].
  destruct (_ && _); [done|]. intros Hnew. exists nets. split; [done|].
  case_bool_decide.
  - injection Hnew as <-. repeat split; try done.
    all: cbn [providers set_providers]; unfold ProvidersPkg.GetProviders;
      rewrite Initialize_lookup; by eexists.
  - destruct (enableProviders _ _ _ _) as [e|ps] eqn:Eps; [done|].
    injection Hnew as <-. cbn [providers set_providers].
    set (M := ProvidersPkg.Initialize nets (parseExcludedAddresses (ExcludedAddresses config))) in *.
    assert (∀ key p, ps !! key = Some p → ProvidersPkg.providers M !! key = Some p) as Hps.
    { intros key p Hp. destruct (enableProviders_inr _ _ _ _ _ Eps key p Hp) as [Hacc|]; [|done].
      by rewrite lookup_empty in Hacc. }
    assert (ProvidersPkg.GetProvider M "generic"
            = Some (ProvidersPkg.InitializeGenericProvider nets
                      (parseExcludedAddresses (ExcludedAddresses config)))) as Eg
      by (unfold ProvidersPkg.GetProvider, M; by rewrite Initialize_lookup).
    repeat split; try done.
    + intros key p. destruct (ps !! "generic") eqn:E; [apply Hps|]. rewrite Eg.
      destruct (decide (key = "generic")) as [->|Hne].
      * rewrite lookup_insert_eq. intros [= <-]. exact Eg.
      * rewrite lookup_insert_ne by done. apply Hps.
    + destruct (ps !! "generic") eqn:E; [by rewrite E|]. rewrite Eg.
      by rewrite lookup_insert_eq.
Qed.

Lemma iface_New_ok rt next config name :
  fair (rangeAvailable rt) →
  (∀ v, v ∈ ExcludedNetworks config → is_Some (ParseCIDR v)) →
  (∀ p, p ∈ elems (Providers config) → GoStrings.TrimSpace (GoStrings.ToLower p) ∈ names) →
  PreferredProvider config = "" ∨ PreferredProvider config ∈ names →
  ∃ trip, New rt next config name = inr trip.
Proof.
  intros Ho Hnets Hps Hpref. unfold New.
  rewrite (parseExcludedNetworks_inr _ [] Hnets).
  cbn [GetExcludedNetworks GetExcludedAddresses excludedNetworks excludedAddresses providers].
  rewrite (IsValidProvider_names _ _ _ _ Ho).
  assert (bool_decide (PreferredProvider config ≠ "")
          && negb (bool_decide (PreferredProvider config ∈ names)) = false) as ->.
  { destruct Hpref as [->|Hin]; [done|].
    rewrite (bool_decide_eq_true_2 _ Hin). apply andb_false_r. }
  case_bool_decide; [by eexists|].
  destruct (enableProviders_valid (rangeAvailable rt) ([] ++ omap ParseCIDR (ExcludedNetworks config))
              (parseExcludedAddresses (ExcludedAddresses config))
              (elems (Providers config)) ∅ Ho Hps) as (ps & -> & _).
  by eexists.
Qed.

Lemma iface_New_wellFormed rt next config name trip :
  New rt next config name = inr trip →
  wellFormed trip
  ∧ ∀ key p, providers trip !! key = Some p → ProvidersPkg.values p = ∅.
Proof.
  intros (nets & _ & _ & En & Ea & _ & Ei & Hps & _)%iface_New_inr.
  rewrite <- En, <- Ea in Hps. split; [split|].
  - intros key p Hp. by apply Initialize_standard, Hps.
  - rewrite Ei. apply lookup_empty.
  - intros key p Hp. by eapply Initialize_standard, Hps.
Qed.

(** *** Serving *)

Lemma collected_lookup rt trip request key :
  providers (collected rt trip request) !! key
  = (λ p, ProvidersPkg.fillValues p request) <$> providers trip !! key.
Proof. unfold collected. cbn [providers set_providers set_providersIPs]. apply lookup_fmap. Qed.

Lemma iface_resolveRealIP_fields rt trip request :
  fair (rangeCollect rt) →
  next (resolveRealIP rt trip request).2 = next trip
  ∧ excludedNetworks (resolveRealIP rt trip request).2 = excludedNetworks trip
  ∧ excludedAddresses (resolveRealIP rt trip request).2 = excludedAddresses trip
  ∧ preferredProvider (resolveRealIP rt trip request).2 = preferredProvider trip
  ∧ providers (resolveRealIP rt trip request).2
    = (λ p, ProvidersPkg.fillValues p request) <$> providers trip
  ∧ providersIPs (resolveRealIP rt trip request).2
    = delete "generic" (answers rt trip request ∪ providersIPs trip).
Proof. intros Ho. by rewrite (iface_resolveRealIP_state _ _ _ Ho). Qed.

Lemma iface_resolveRealIP_wellFormed rt trip request :
  fair (rangeCollect rt) → wellFormed trip → wellFormed (resolveRealIP rt trip request).2.
Proof.
  intros Ho [Hstd Hg].
  destruct (iface_resolveRealIP_fields rt trip request Ho) as (_ & En & Ea & _ & Ep & Ei).
  split.
  - intros key p. rewrite En, Ea, Ep, lookup_fmap.
    destruct (providers trip !! key) as [q|] eqn:Eq; [|done].
    intros [= <-]. by apply fillValues_standard, Hstd.
  - rewrite Ei. apply lookup_delete_eq.
Qed.

End interface_facts.

(** ** The tests of the repository *)

(** Both handlers pass the tests of the repository, whichever way the
    runtime ranges over the maps. *)
Example repository_tests_realip :
  Forall (λ t, realipResolves inOrder t.1.1 t.1.2 = Some t.2
               ∧ realipResolves backwards t.1.1 t.1.2 = Some t.2) repositoryTests.
Proof. repeat constructor. Qed.

Example repository_tests_interface :
  Forall (λ t, interfaceResolves inOrder t.1.1 t.1.2 = Some t.2
               ∧ interfaceResolves backwards t.1.1 t.1.2 = Some t.2) repositoryTests.
Proof. repeat constructor. Qed.

(** A header value with U+00A0 in front: the Qrator provider trims it
    and returns the address. *)
Example qrator_unicode_space :
  (ProvidersPkg.QratorProvider_GetRealIP id
     (ProvidersPkg.QratorProvider_Initialize (H := IPv4.net) [] [])
     (requestWith [("X-Qrator-IP-Source", GoStrings.ofBytes [194; 160] +:+ "10.0.0.30")])).1
  = "10.0.0.30".
Proof. by vm_compute. Qed.

(** Provider names beyond ASCII go through the tables of [unicode]:
    with tables that take [GENER] U+0130 [C] to [generic], as those of Go
    do, [New] enables the generic provider for this name; and with tables
    that leave [qrator] U+00A0 as it is, [New] takes this name for Qrator,
    the white space being trimmed. *)
Example unicode_provider_names (U : GoStrings.UnicodeTables) :
  let dotted := GoStrings.ofBytes [71; 69; 78; 69; 82; 196; 176; 67] in
  let spaced := "qrator" +:+ GoStrings.ofBytes [194; 160] in
  GoStrings.mapToLower dotted = "generic" → GoStrings.mapToLower spaced = spaced →
  ∃ trip, RealIPInterface.New (H := IPv4.net) inOrder noNext
            (mkConfig [] [] (Some [dotted; spaced]) "") "traefik-real-ip" = inr trip.
Proof.
  intros dotted spaced Hd Hs. apply iface_New_ok.
  - by intros l.
  - intros v Hv. by apply elem_of_nil in Hv.
  - intros p Hp. apply elem_of_cons in Hp as [->|Hp].
    + rewrite ToLower_cases. change (GoStrings.isASCII dotted) with false.
      cbv iota. rewrite Hd. by repeat constructor.
    + apply list_elem_of_singleton in Hp as ->.
      rewrite ToLower_cases. change (GoStrings.isASCII spaced) with false.
      cbv iota. rewrite Hs. change (GoStrings.TrimSpace spaced) with "qrator".
      by repeat constructor.
  - by left.
Qed.

(** * The claims *)

(** ** The exclusion test *)

(** C3: for every candidate string the exclusion test answers true when
    the string does not parse as an address; for a string that parses, it
    answers true exactly when the address lies in one of the excluded
    networks or equals one of the excluded addresses, and false otherwise. *)
Theorem C3_isExcludedIP_fail_closed `{Net} (p : ProvidersPkg.Provider) (address : string) :
  (ParseIP address = None → ProvidersPkg.isExcludedIP p address = true)
  ∧ (∀ ip, ParseIP address = Some ip →
       (ProvidersPkg.isExcludedIP p address = true ↔
          (∃ n, n ∈ ProvidersPkg.excludedNetworks p ∧ Contains n ip = true)
          ∨ (∃ a, a ∈ ProvidersPkg.excludedAddresses p ∧ Equal ip a = true))
       ∧ (ProvidersPkg.isExcludedIP p address = false ↔
          (∀ n, n ∈ ProvidersPkg.excludedNetworks p → Contains n ip = false)
          ∧ (∀ a, a ∈ ProvidersPkg.excludedAddresses p → Equal ip a = false))).
Proof.
  split; [apply isExcludedIP_unparsed|]. intros ip Hip.
  pose proof (isExcludedIP_parsed p address ip Hip) as Hiff. split; [done|].
  destruct (ProvidersPkg.isExcludedIP p address).
  - split; [done|]. intros [Hn Ha]. destruct (proj1 Hiff eq_refl) as [(n & Hin & Hc)|(a & Hin & Hc)].
    + by rewrite (Hn n Hin) in Hc.
    + by rewrite (Ha a Hin) in Hc.
  - split; [intros _|done]. split.
    + intros n Hin. destruct (Contains n ip) eqn:E; [|done].
      assert (false = true) as Habs by (apply Hiff; left; eauto). done.
    + intros a Hin. destruct (Equal ip a) eqn:E; [|done].
      assert (false = true) as Habs by (apply Hiff; right; eauto). done.
Qed.

(** With the network 127.0.0.1/24 excluded: ["not-an-ip"] is excluded as it
    does not parse, 127.0.0.2 as it lies in the network, 10.0.0.20 is not. *)
Lemma C3_witness :
  let p := ProvidersPkg.InitializeGenericProvider (H := IPv4.net)
             (omap IPv4.parseCIDR ["127.0.0.1/24"]) [] in
  ProvidersPkg.isExcludedIP p "not-an-ip" = true
  ∧ ProvidersPkg.isExcludedIP p "127.0.0.2" = true
  ∧ ProvidersPkg.isExcludedIP p "10.0.0.20" = false.
Proof.
  intros p. split; [|split].
  - apply (proj1 (C3_isExcludedIP_fail_closed p "not-an-ip")). reflexivity.
  - apply (proj1 (proj2 (C3_isExcludedIP_fail_closed p "127.0.0.2") 2130706434%Z eq_refl)).
    left. exists (2130706432%Z, 4294967040%Z). split; [left|reflexivity].
  - apply (proj2 (proj2 (C3_isExcludedIP_fail_closed p "10.0.0.20") 167772180%Z eq_refl)).
    split.
    + intros n Hn. apply list_elem_of_singleton in Hn. by subst n.
    + intros a Ha. by apply elem_of_nil in Ha.
Defined.

(** ** The generic provider *)

(** C4 at its failing input: a generic provider that has served a
    request with [X-Real-Ip] is asked for a request that carries
    [X-Forwarded-For] alone. As initialised it resolves this request to
    the first token of the chain, which is what C4 says; after the
    earlier request it still holds the [X-Real-Ip] of that request,
    checks it first and returns it. *)
Theorem C4_earlier_value_checked_first :
  let p0 := ProvidersPkg.InitializeGenericProvider (H := IPv4.net) [] [] in
  let first := requestWith [("X-Real-Ip", "10.0.0.20")] in
  let second := requestWith [("X-Forwarded-For", "10.0.0.7, 10.0.0.8")] in
  let p1 := (ProvidersPkg.GenericProvider_GetRealIP p0 first).2 in
  GoHTTP.Get (GoHTTP.Header_ second) "X-Real-Ip" = ""
  ∧ (ProvidersPkg.GenericProvider_GetRealIP p0 first).1 = "10.0.0.20"
  ∧ (ProvidersPkg.GenericProvider_GetRealIP p0 second).1 = "10.0.0.7"
  ∧ (ProvidersPkg.GenericProvider_GetRealIP p1 second).1 = "10.0.0.20".
Proof. vm_compute. done. Qed.

(** The order of the candidates on the repository's kind of input: the
    value of [X-Real-Ip] wins over the chain, and within the chain the
    first token that parses and is not excluded. *)
Example generic_real_ip_first :
  (ProvidersPkg.GenericProvider_GetRealIP
     (ProvidersPkg.InitializeGenericProvider (H := IPv4.net) [] [])
     (requestWith [("X-Forwarded-For", "10.0.0.1, 10.0.0.2"); ("X-Real-Ip", " 10.0.0.20 ")])).1
  = "10.0.0.20".
Proof. reflexivity. Qed.

Example generic_chain_left_to_right :
  (ProvidersPkg.GenericProvider_GetRealIP
     (ProvidersPkg.InitializeGenericProvider (H := IPv4.net)
        (omap IPv4.parseCIDR ["127.0.0.1/24"]) [])
     (requestWith [("X-Forwarded-For", "unknown, 127.0.0.2 ,10.0.0.2, 10.0.0.3");
                   ("X-Real-Ip", "127.0.0.9")])).1
  = "10.0.0.2".
Proof. reflexivity. Qed.

Example generic_nothing_passes :
  (ProvidersPkg.GenericProvider_GetRealIP
     (ProvidersPkg.InitializeGenericProvider (H := IPv4.net)
        (omap IPv4.parseCIDR ["127.0.0.1/24"]) [])
     (requestWith [("X-Forwarded-For", "127.0.0.2")])).1
  = "".
Proof. reflexivity. Qed.




(** ** The values a provider holds *)

(** C8 at its failing input: a generic provider that has read a request
    with [X-Real-Ip] and then reads a request without any header still
    holds the value of the first request, and returns it. *)
Theorem C8_fillValues_keeps_absent_header :
  let p0 := ProvidersPkg.InitializeGenericProvider (H := IPv4.net) [] [] in
  let first := requestWith [("X-Real-Ip", "10.0.0.20")] in
  let second := requestWith [] in
  let p1 := ProvidersPkg.fillValues p0 first in
  GoHTTP.Get (GoHTTP.Header_ second) "X-Real-Ip" = ""
  ∧ ProvidersPkg.GetValues (ProvidersPkg.fillValues p1 second) !! "X-Real-Ip" = Some "10.0.0.20"
  ∧ ProvidersPkg.GetValues (ProvidersPkg.fillValues p0 second) !! "X-Real-Ip" = None
  ∧ (ProvidersPkg.GenericProvider_GetRealIP p1 second).1 = "10.0.0.20".
Proof. vm_compute. done. Qed.

(** What of C8 holds on every provider: a header that the request
    carries is recorded trimmed, over what was there; a header of the
    provider that is absent or empty adds nothing and keeps what was
    there; on a provider that holds nothing the values are those of the
    request. *)
Lemma fillValues_from_request `{Net} (p : ProvidersPkg.Provider) (request : GoHTTP.Request)
    (h : string) :
  h ∈ ProvidersPkg.GetHeaders p →
  ProvidersPkg.GetValues (ProvidersPkg.fillValues p request) !! h
  = if bool_decide (GoHTTP.Get (GoHTTP.Header_ request) h ≠ "")
    then Some (GoStrings.TrimSpace (GoHTTP.Get (GoHTTP.Header_ request) h))
    else ProvidersPkg.GetValues p !! h.
Proof.
  intros Hh. change (ProvidersPkg.GetValues (ProvidersPkg.fillValues p request) !! h)
    with (candidate p request h).
  rewrite candidate_lookup. unfold requestValue.
  case_bool_decide; [|done]. by rewrite bool_decide_eq_true_2.
Qed.

(** ** The request handed to the next handler *)

Lemma writeRealIP_written realIP request :
  headersWritten realIP request (RealIP.writeRealIP realIP request).
Proof.
  unfold headersWritten, RealIP.writeRealIP. case_bool_decide; [|done].
  cbn [GoHTTP.Header_]. unfold GoHTTP.Set_.
  change (GoHTTP.CanonicalMIMEHeaderKey "X-Forwarded-For") with "X-Forwarded-For".
  change (GoHTTP.CanonicalMIMEHeaderKey "X-Real-Ip") with "X-Real-Ip".
  split; [by simplify_map_eq|]. split; [by simplify_map_eq|].
  intros key H1 H2. by rewrite !lookup_insert_ne.
Qed.

Lemma iface_writeRealIP_written realIP request :
  headersWritten realIP request (RealIPInterface.writeRealIP realIP request).
Proof. apply writeRealIP_written. Qed.

(** C6: when an address is determined, [ServeHTTP] sets [X-Forwarded-For]
    and [X-Real-Ip] of the request to it, over what they held, and leaves
    every other header as it was; when none is determined the request is
    left as it was; either way the next handler is then called, once, on
    the response writer and that request. In both [real_ip.go]. *)
Theorem C6_headers_written_then_next `{Net} {ResponseWriter : Type}
    (rt : Runtime) (responseWriter : ResponseWriter) (request : GoHTTP.Request) :
  fairRuntime rt →
  (∀ trip : RealIP.TraefikRealIP,
     RealIP.wellFormed trip →
     ∃ realIP trip' request',
       RealIP.resolveRealIP rt trip request = Some (realIP, trip')
       ∧ RealIP.ServeHTTP rt trip responseWriter request
         = Some (trip', RealIP.next trip responseWriter request')
       ∧ headersWritten realIP request request')
  ∧ (∀ trip : RealIPInterface.TraefikRealIP,
       ∃ realIP trip' request',
         RealIPInterface.resolveRealIP rt trip request = (realIP, trip')
         ∧ RealIPInterface.ServeHTTP rt trip responseWriter request
           = (trip', RealIPInterface.next trip responseWriter request')
         ∧ headersWritten realIP request request').
Proof.
  intros (_ & _ & _ & Hcollect & _). split.
  - intros trip Hwf.
    destruct (resolveRealIP_wellFormed rt trip request Hwf) as (realIP & trip' & E & _ & En & _).
    exists realIP, trip', (RealIP.writeRealIP realIP request).
    split; [done|]. split; [|apply writeRealIP_written].
    unfold RealIP.ServeHTTP. rewrite E. simpl. by rewrite En.
  - intros trip.
    destruct (iface_resolveRealIP_fields rt trip request Hcollect) as (En & _).
    unfold RealIPInterface.ServeHTTP.
    destruct (RealIPInterface.resolveRealIP rt trip request) as [realIP trip'].
    exists realIP, trip', (RealIPInterface.writeRealIP realIP request).
    split; [done|]. split; [|apply iface_writeRealIP_written].
    simpl in En. by rewrite En.
Qed.

(** ** Construction *)

(** C7: [New] fails for a configuration with an excluded network that
    is no CIDR, with a provider whose name is not known, or with a
    preferred provider that is neither empty nor known; an excluded
    address that does not parse makes no configuration fail and is left
    out of the exclusion set. In [src/real_ip.go] a name is known when it
    is one of the three; in the other [real_ip.go] a provider is known
    when its name in lower case and trimmed is one of the three. *)
Theorem C7_construction_errors `{Net} {U : GoStrings.UnicodeTables} {ResponseWriter : Type}
    (rt : Runtime) (next : Handler ResponseWriter) (config : Config) (name : string) :
  fair (rangeAvailable rt) →
  (* a malformed network *)
  (∀ v, v ∈ ExcludedNetworks config → ParseCIDR v = None →
        (∃ e, RealIP.New next config name = inl e)
        ∧ (∃ e, RealIPInterface.New rt next config name = inl e))
  (* an unknown provider *)
  ∧ (∀ p, p ∈ elems (Providers config) → p ∉ names →
          ∃ e, RealIP.New next config name = inl e)
  ∧ (∀ p, p ∈ elems (Providers config) →
          GoStrings.TrimSpace (GoStrings.ToLower p) ∉ names →
          ∃ e, RealIPInterface.New rt next config name = inl e)
  (* an unknown preferred provider *)
  ∧ (PreferredProvider config ≠ "" → PreferredProvider config ∉ names →
     (∃ e, RealIP.New next config name = inl e)
     ∧ (∃ e, RealIPInterface.New rt next config name = inl e))
  (* an address that does not parse *)
  ∧ (∀ before bad after,
       ExcludedAddresses config = before ++ bad :: after → ParseIP bad = None →
       RealIP.New next config name
       = RealIP.New next (withAddresses config (before ++ after)) name
       ∧ RealIPInterface.New rt next config name
         = RealIPInterface.New rt next (withAddresses config (before ++ after)) name)
  ∧ ((∀ v, v ∈ ExcludedNetworks config → is_Some (ParseCIDR v)) →
     PreferredProvider config = "" ∨ PreferredProvider config ∈ names →
     ((∀ p, p ∈ elems (Providers config) → p ∈ names) →
      ∃ trip, RealIP.New next config name = inr trip
              ∧ RealIP.excludedAddresses trip = omap ParseIP (ExcludedAddresses config))
     ∧ ((∀ p, p ∈ elems (Providers config) →
              GoStrings.TrimSpace (GoStrings.ToLower p) ∈ names) →
        ∃ trip, RealIPInterface.New rt next config name = inr trip
                ∧ RealIPInterface.excludedAddresses trip
                  = omap ParseIP (ExcludedAddresses config))).
Proof.
  intros Ho. repeat split.
  - destruct (parseExcludedNetworks_inl (ExcludedNetworks config) [] v) as (v' & _ & _ & E);
      [done..|].
    unfold RealIP.New. rewrite E. by eexists.
  - destruct (parseExcludedNetworks_inl (ExcludedNetworks config) [] v) as (v' & _ & _ & E);
      [done..|].
    unfold RealIPInterface.New. rewrite E. by eexists.
  - intros p Hin Hp. unfold RealIP.New.
    destruct (parseExcludedNetworks _ _); [by eexists|].
    destruct (_ && _); [by eexists|].
    destruct (find_invalid_Some names (elems (Providers config)) p Hin Hp) as [x Hx].
    unfold RealIP.IsValidProvider. cbn [RealIP.availableProviders RealIP.set_genericProvider].
    unfold names in Hx. rewrite Hx. by eexists.
  - intros p Hin Hp. unfold RealIPInterface.New.
    destruct (parseExcludedNetworks _ _); [by eexists|].
    destruct (_ && _); [by eexists|].
    rewrite bool_decide_eq_false_2 by (destruct (Providers config) as [[|]|]; set_solver).
    cbn [RealIPInterface.GetExcludedNetworks RealIPInterface.GetExcludedAddresses
         RealIPInterface.excludedNetworks RealIPInterface.excludedAddresses
         RealIPInterface.providers].
    rewrite (enableProviders_invalid _ _ _ _ _ p Ho Hin Hp). by eexists.
  - unfold RealIP.New. destruct (parseExcludedNetworks _ _); [by eexists|].
    unfold RealIP.IsValidProvider. cbn [RealIP.availableProviders].
    rewrite existsb_elem_of.
    rewrite (bool_decide_eq_true_2 (PreferredProvider config ≠ "")) by done.
    fold names. rewrite (bool_decide_eq_false_2 (PreferredProvider config ∈ names)) by done.
    by eexists.
  - unfold RealIPInterface.New. destruct (parseExcludedNetworks _ _); [by eexists|].
    rewrite (IsValidProvider_names _ _ _ _ Ho).
    rewrite (bool_decide_eq_true_2 (PreferredProvider config ≠ "")) by done.
    rewrite (bool_decide_eq_false_2 (PreferredProvider config ∈ names)) by done.
    by eexists.
  - unfold RealIP.New, RealIP.made, withAddresses. simpl.
    match goal with E : ExcludedAddresses config = _ |- _ => rewrite E end.
    unfold parseExcludedAddresses. rewrite !omap_app. simpl.
    by match goal with E : ParseIP _ = None |- _ => rewrite E end.
  - unfold RealIPInterface.New, withAddresses. simpl.
    match goal with E : ExcludedAddresses config = _ |- _ => rewrite E end.
    unfold parseExcludedAddresses. rewrite !omap_app. simpl.
    by match goal with E : ParseIP _ = None |- _ => rewrite E end.
  - intros Hps. rewrite (New_ok next config name); [by eexists|done..].
  - intros Hps. destruct (iface_New_ok rt next config name) as [trip Htrip]; [done..|].
    exists trip. split; [done|].
    by apply iface_New_inr in Htrip as (nets & _ & _ & _ & -> & _).
Qed.

(** The tests of the repository: a network that is no CIDR and names
    that are not known are refused, an address that does not parse is
    not. *)
Lemma C7_witness :
  (∃ e, RealIP.New (H := IPv4.net) noNext
          (mkConfig ["invalid"] [] None "") "traefik-real-ip" = inl e)
  ∧ (∃ e, RealIPInterface.New (H := IPv4.net) (U := ASCII.tables) inOrder noNext
            (mkConfig [] [] (Some ["invalid"]) "") "traefik-real-ip" = inl e)
  ∧ (∃ e, RealIP.New (H := IPv4.net) noNext
            (mkConfig [] [] None "invalid") "traefik-real-ip" = inl e)
  ∧ RealIPInterface.New (H := IPv4.net) (U := ASCII.tables) inOrder noNext
      (mkConfig [] ["invalid"] None "") "traefik-real-ip"
    = RealIPInterface.New (H := IPv4.net) (U := ASCII.tables) inOrder noNext
        (mkConfig [] [] None "") "traefik-real-ip"
  ∧ (∃ trip, RealIP.New (H := IPv4.net) noNext
               (mkConfig [] ["invalid"; "192.168.1.1"] None "") "traefik-real-ip" = inr trip
             ∧ RealIP.excludedAddresses trip = [3232235777%Z]).
Proof.
  assert (fair (rangeAvailable inOrder)) as Ho by (by intros l).
  split; [|split; [|split; [|split]]].
  - refine (proj1 (proj1 (C7_construction_errors (H := IPv4.net) (U := ASCII.tables) inOrder noNext
                            (mkConfig ["invalid"] [] None "") "traefik-real-ip" Ho)
                     "invalid" _ _)); [left|reflexivity].
  - refine (proj1 (proj2 (proj2 (C7_construction_errors (H := IPv4.net) (U := ASCII.tables) inOrder noNext
                            (mkConfig [] [] (Some ["invalid"]) "") "traefik-real-ip" Ho)))
              "invalid" _ _); [left|].
    vm_compute. intros Hin. no_name Hin.
  - refine (proj1 (proj1 (proj2 (proj2 (proj2
              (C7_construction_errors (H := IPv4.net) (U := ASCII.tables) inOrder noNext
                 (mkConfig [] [] None "invalid") "traefik-real-ip" Ho)))) _ _)); [done|].
    simpl. intros Hin. no_name Hin.
  - exact (proj2 (proj1 (proj2 (proj2 (proj2 (proj2
              (C7_construction_errors (H := IPv4.net) (U := ASCII.tables) inOrder noNext
                 (mkConfig [] ["invalid"] None "") "traefik-real-ip" Ho)))))
              [] "invalid" [] eq_refl eq_refl)).
  - refine (proj1 (proj2 (proj2 (proj2 (proj2 (proj2
              (C7_construction_errors (H := IPv4.net) (U := ASCII.tables) inOrder noNext
                 (mkConfig [] ["invalid"; "192.168.1.1"] None "") "traefik-real-ip" Ho)))))
              _ _) _).
    + intros v Hv. by apply elem_of_nil in Hv.
    + by left.
    + intros p Hp. by apply elem_of_nil in Hp.
Defined.

(** On the request of the tests, with the Qrator provider preferred, both
    handlers hand on a request whose two headers hold an address. *)
Lemma C6_witness :
  (∃ realIP trip' request',
     RealIP.resolveRealIP (H := IPv4.net) inOrder
       (RealIP.made noNext (preferring "qrator") "traefik-real-ip" [])
       (requestWith allHeaders) = Some (realIP, trip')
     ∧ RealIP.ServeHTTP inOrder
         (RealIP.made noNext (preferring "qrator") "traefik-real-ip" []) tt
         (requestWith allHeaders)
       = Some (trip', noNext tt request')
     ∧ headersWritten realIP (requestWith allHeaders) request').
Proof.
  apply (proj1 (C6_headers_written_then_next (H := IPv4.net) inOrder tt
                  (requestWith allHeaders) inOrder_fair)).
  apply made_wellFormed.
Defined.

(** ** State that outlives the request *)

(** C5: in the handler with the providers behind the interface, a
    result on record for a provider other than the generic one stays on
    record over a call of [ServeHTTP], and a value a provider holds stays
    over a call of [fillValues]. There are two requests in a row for one
    handler, the second without the Qrator header, for which the address
    of the second is the Qrator address of the first, although the same
    request resolves to its own address on the handler as constructed. *)
Theorem C5_results_outlive_request :
  (∀ (N : Net) (ResponseWriter : Type) rt
     (trip : RealIPInterface.TraefikRealIP (ResponseWriter := ResponseWriter)) request key ip,
     fair (rangeCollect rt) → key ≠ "generic" →
     RealIPInterface.providersIPs trip !! key = Some ip →
     is_Some (RealIPInterface.providersIPs (RealIPInterface.resolveRealIP rt trip request).2 !! key))
  ∧ (∀ (N : Net) (p : ProvidersPkg.Provider) request h v,
       ProvidersPkg.values p !! h = Some v →
       is_Some (ProvidersPkg.values (ProvidersPkg.fillValues p request) !! h))
  ∧ (∃ trip0 : RealIPInterface.TraefikRealIP,
       RealIPInterface.New (H := IPv4.net) (U := ASCII.tables) inOrder noNext (preferring "qrator")
         "traefik-real-ip" = inr trip0
       ∧ GoHTTP.Get (GoHTTP.Header_ direct) "X-Qrator-IP-Source" = ""
       ∧ RealIPInterface.answer inOrder trip0 "qrator" throughQrator = "10.0.0.30"
       ∧ (RealIPInterface.resolveRealIP inOrder
            (RealIPInterface.ServeHTTP inOrder trip0 tt throughQrator).1 direct).1 = "10.0.0.30"
       ∧ (RealIPInterface.resolveRealIP inOrder trip0 direct).1 = "10.0.0.21").
Proof.
  split; [|split].
  - intros N ResponseWriter rt trip request key ip Ho Hkey Hip.
    destruct (iface_resolveRealIP_fields rt trip request Ho) as (_ & _ & _ & _ & _ & ->).
    rewrite lookup_delete_ne by done. rewrite lookup_union, Hip.
    by destruct (RealIPInterface.answers rt trip request !! key).
  - intros N p request h v Hv.
    change (is_Some (candidate p request h)). rewrite candidate_lookup, Hv.
    destruct (requestValue request h); [case_bool_decide|]; by eexists.
  - eexists. split; [reflexivity|]. by vm_compute.
Qed.

(** The handler that has served [throughQrator] keeps its Qrator result
    over the next request. *)
Lemma C5_witness :
  is_Some (RealIPInterface.providersIPs
             (RealIPInterface.resolveRealIP (H := IPv4.net) inOrder
                (RealIPInterface.mkTraefikRealIP noNext "traefik-real-ip" [] [] ∅ "qrator"
                   {["qrator" := "10.0.0.30"]})
                direct).2 !! "qrator").
Proof.
  apply (proj1 C5_results_outlive_request IPv4.net unit inOrder _ direct "qrator" "10.0.0.30").
  - by intros l.
  - done.
  - reflexivity.
Defined.

(** ** The preferred provider *)

Section preference.
Context `{Net} {U : GoStrings.UnicodeTables} {ResponseWriter : Type}.

Implicit Types (request : GoHTTP.Request).

(** [src/real_ip.go]: the preferred provider is asked first, the generic
    one when it has no answer. *)
Lemma realip_preferred_rule rt
    (trip : RealIP.TraefikRealIP (ResponseWriter := ResponseWriter)) request :
  RealIP.wellFormed trip → RealIP.preferredProvider trip ∈ names →
  ∃ realIP trip',
    RealIP.resolveRealIP rt trip request = Some (realIP, trip')
    ∧ (RealIP.answer rt trip (RealIP.preferredProvider trip) request ≠ "" →
       realIP = RealIP.answer rt trip (RealIP.preferredProvider trip) request)
    ∧ (RealIP.answer rt trip (RealIP.preferredProvider trip) request = "" →
       realIP = RealIP.answer rt trip "generic" request).
Proof.
  intros ((gp & Hg & _) & (cfp & Hc & _) & (qp & Hq & _)) Hin.
  rewrite (resolveRealIP_eq rt trip request gp cfp qp Hg Hc Hq). cbv zeta.
  unfold names in Hin.
  repeat (apply elem_of_cons in Hin as [E|Hin]); [..|by apply elem_of_nil in Hin];
    rewrite E; simpl.
  - eexists _, _. split; [done|]. by split.
  - case_bool_decide; eexists _, _; (split; [done|]); split; intros; congruence.
  - case_bool_decide; eexists _, _; (split; [done|]); split; intros; congruence.
Qed.

Lemma answers_answer rt
    (trip : RealIPInterface.TraefikRealIP (ResponseWriter := ResponseWriter)) request key :
  RealIPInterface.answers rt trip request !! key
  = if bool_decide (RealIPInterface.answer rt trip key request ≠ "")
    then Some (RealIPInterface.answer rt trip key request) else None.
Proof.
  rewrite answers_lookup. unfold RealIPInterface.answer.
  by destruct (RealIPInterface.providers trip !! key).
Qed.

(** The other [real_ip.go]: a result of the preferred provider goes
    over the result of the generic one; with no result of the preferred
    provider, new or on record, the result of the generic provider stands. *)
Lemma iface_preferred_rule rt
    (trip : RealIPInterface.TraefikRealIP (ResponseWriter := ResponseWriter)) request :
  fair (rangeCollect rt) → RealIPInterface.preferredProvider trip ≠ "" →
  (RealIPInterface.answer rt trip (RealIPInterface.preferredProvider trip) request ≠ "" →
   (RealIPInterface.resolveRealIP rt trip request).1
   = RealIPInterface.answer rt trip (RealIPInterface.preferredProvider trip) request)
  ∧ (RealIPInterface.answer rt trip (RealIPInterface.preferredProvider trip) request = "" →
     RealIPInterface.providersIPs trip !! RealIPInterface.preferredProvider trip = None →
     RealIPInterface.providersIPs trip !! "generic" = None →
     (RealIPInterface.resolveRealIP rt trip request).1
     = RealIPInterface.answer rt trip "generic" request).
Proof.
  intros Ho Hpref. rewrite (iface_resolveRealIP_preferred rt trip request Ho Hpref).
  cbv zeta. unfold RealIPInterface.collected.
  cbn [RealIPInterface.providersIPs RealIPInterface.set_providersIPs].
  generalize (RealIPInterface.preferredProvider trip). intros pref.
  split.
  - intros Ha. destruct (decide (pref = "generic")) as [->|E].
    + rewrite lookup_delete_eq. simpl. rewrite lookup_union, answers_answer.
      rewrite (bool_decide_eq_true_2 _ Ha).
      by destruct (RealIPInterface.providersIPs trip !! "generic").
    + rewrite lookup_delete_ne by done.
      rewrite (lookup_union _ _ pref), (answers_answer _ _ _ pref).
      rewrite (bool_decide_eq_true_2 _ Ha).
      by destruct (RealIPInterface.providersIPs trip !! pref).
  - intros Ha Hrec Hgen.
    assert (delete "generic" (RealIPInterface.answers rt trip request
                              ∪ RealIPInterface.providersIPs trip) !! pref = None) as ->.
    { destruct (decide (pref = "generic")) as [->|E]; [by rewrite lookup_delete_eq|].
      rewrite lookup_delete_ne by done. rewrite lookup_union, answers_answer, Hrec.
      by rewrite bool_decide_eq_false_2 by (intros ?; done). }
    simpl. rewrite lookup_union, answers_answer, Hgen.
    case_bool_decide as Hg; simpl; [done|by rewrite Hg].
Qed.

End preference.

(** C1 at its failing input: a handler that prefers Qrator serves a
    request that came through Qrator and then a request with [X-Real-Ip]
    alone. The handlers are those [New] returns. Asked first, the second
    request is resolved to its [X-Real-Ip], the value of the generic
    provider, which is what C1 says. After the first request it is
    resolved to the address of the first request: [src/real_ip.go] finds
    it in the values the Qrator provider still holds, the other
    [real_ip.go] in the results it has on record. *)
Theorem C1_earlier_result_instead_of_generic :
  let trip0 := RealIP.made (H := IPv4.net) noNext (preferring "qrator") "traefik-real-ip" [] in
  let itrip0 :=
    RealIPInterface.mkTraefikRealIP (H := IPv4.net) noNext "traefik-real-ip" [] []
      (ProvidersPkg.providers (ProvidersPkg.Initialize [] [])) "qrator" ∅ in
  RealIP.New noNext (preferring "qrator") "traefik-real-ip" = inr trip0
  ∧ RealIPInterface.New (U := ASCII.tables) inOrder noNext (preferring "qrator")
      "traefik-real-ip" = inr itrip0
  ∧ GoHTTP.Get (GoHTTP.Header_ direct) "X-Qrator-IP-Source" = ""
  ∧ fst <$> RealIP.resolveRealIP inOrder trip0 throughQrator = Some "10.0.0.30"
  ∧ (RealIPInterface.resolveRealIP inOrder itrip0 throughQrator).1 = "10.0.0.30"
  ∧ fst <$> RealIP.resolveRealIP inOrder trip0 direct = Some "10.0.0.21"
  ∧ (RealIPInterface.resolveRealIP inOrder itrip0 direct).1 = "10.0.0.21"
  ∧ (trip1 ← serveAll trip0 [(inOrder, tt, throughQrator)];
     fst <$> RealIP.resolveRealIP inOrder trip1 direct) = Some "10.0.0.30"
  ∧ (RealIPInterface.resolveRealIP inOrder
       (serveAllInterface itrip0 [(inOrder, tt, throughQrator)]) direct).1 = "10.0.0.30".
Proof.
  intros trip0 itrip0. split; [reflexivity|]. split; [reflexivity|].
  repeat split; by vm_compute.
Qed.

(** C2, as the code has it: when the generic provider and the
    preferred provider both have an answer, the address is the answer of
    the preferred provider; the answer of the generic provider is the
    address only when the preferred provider has none. In
    [src/real_ip.go] it is the address whenever the preferred provider
    has none. *)
Theorem C2_preferred_over_generic `{Net} {ResponseWriter : Type}
    (rt : Runtime) (request : GoHTTP.Request) :
  fairRuntime rt →
  (∀ trip : RealIP.TraefikRealIP (ResponseWriter := ResponseWriter),
     RealIP.wellFormed trip → RealIP.preferredProvider trip ∈ names →
     RealIP.answer rt trip "generic" request ≠ "" →
     ∃ realIP trip',
       RealIP.resolveRealIP rt trip request = Some (realIP, trip')
       ∧ realIP = if bool_decide
                       (RealIP.answer rt trip (RealIP.preferredProvider trip) request ≠ "")
                  then RealIP.answer rt trip (RealIP.preferredProvider trip) request
                  else RealIP.answer rt trip "generic" request)
  ∧ (∀ trip : RealIPInterface.TraefikRealIP (ResponseWriter := ResponseWriter),
       RealIPInterface.preferredProvider trip ≠ "" →
       RealIPInterface.answer rt trip "generic" request ≠ "" →
       (RealIPInterface.answer rt trip (RealIPInterface.preferredProvider trip) request ≠ "" →
        (RealIPInterface.resolveRealIP rt trip request).1
        = RealIPInterface.answer rt trip (RealIPInterface.preferredProvider trip) request)
       ∧ ((RealIPInterface.resolveRealIP rt trip request).1
          ≠ RealIPInterface.answer rt trip (RealIPInterface.preferredProvider trip) request →
          RealIPInterface.answer rt trip (RealIPInterface.preferredProvider trip) request = "")).
Proof.
  intros (_ & _ & _ & Hcollect & _). split.
  - intros trip Hwf Hname _.
    destruct (realip_preferred_rule rt trip request Hwf Hname) as (realIP & trip' & E & Hyes & Hno).
    exists realIP, trip'. split; [done|]. case_bool_decide as Ha; [by apply Hyes|by apply Hno].
  - intros trip Hpref _.
    destruct (iface_preferred_rule rt trip request Hcollect Hpref) as [Hyes _].
    split; [done|]. intros Hne.
    destruct (decide (RealIPInterface.answer rt trip (RealIPInterface.preferredProvider trip)
                        request = "")) as [|Ha]; [done|].
    by destruct Hne; apply Hyes.
Qed.

(** On the request of the tests with Qrator preferred, both providers
    answer and the address is the one of Qrator, on both handlers. *)
Lemma C2_witness :
  (∃ realIP trip',
     RealIP.resolveRealIP (H := IPv4.net) inOrder
       (RealIP.made noNext (preferring "qrator") "traefik-real-ip" [])
       (requestWith allHeaders) = Some (realIP, trip')
     ∧ realIP = "10.0.0.30")
  ∧ (RealIPInterface.resolveRealIP (H := IPv4.net) inOrder
       (RealIPInterface.mkTraefikRealIP noNext "traefik-real-ip" [] []
          (ProvidersPkg.providers (ProvidersPkg.Initialize [] [])) "qrator" ∅)
       (requestWith allHeaders)).1
    = "10.0.0.30".
Proof.
  split.
  - destruct (proj1 (C2_preferred_over_generic (H := IPv4.net) inOrder
                       (requestWith allHeaders) inOrder_fair)
                (RealIP.made noNext (preferring "qrator") "traefik-real-ip" [])
                (made_wellFormed _ _ _ _))
      as (realIP & trip' & E & Hr).
    + by repeat constructor.
    + by vm_compute.
    + exists realIP, trip'. split; [exact E|]. rewrite Hr. by vm_compute.
  - rewrite (proj1 (proj2 (C2_preferred_over_generic (H := IPv4.net) (ResponseWriter := unit)
                             inOrder (requestWith allHeaders) inOrder_fair)
                      (RealIPInterface.mkTraefikRealIP noNext "traefik-real-ip" [] []
                         (ProvidersPkg.providers (ProvidersPkg.Initialize [] [])) "qrator" ∅)
                      ltac:(discriminate) ltac:(by vm_compute))).
    + by vm_compute.
    + by vm_compute.
Defined.

(** C2 as stated fails, in both [real_ip.go]: the generic provider
    answers 10.0.0.20, the preferred one 10.0.0.30, and the address is not
    the one of the generic provider. *)
Lemma C2_counterexample :
  let request := requestWith allHeaders in
  let trip := RealIP.made (H := IPv4.net) noNext (preferring "qrator") "traefik-real-ip" [] in
  (RealIP.answer inOrder trip "generic" request = "10.0.0.20"
   ∧ RealIP.answer inOrder trip "qrator" request = "10.0.0.30"
   ∧ fst <$> RealIP.resolveRealIP inOrder trip request = Some "10.0.0.30")
  ∧ ∃ trip' : RealIPInterface.TraefikRealIP,
      RealIPInterface.New (H := IPv4.net) (U := ASCII.tables) inOrder noNext (preferring "qrator")
        "traefik-real-ip" = inr trip'
      ∧ RealIPInterface.answer inOrder trip' "generic" request = "10.0.0.20"
      ∧ RealIPInterface.answer inOrder trip' "qrator" request = "10.0.0.30"
      ∧ (RealIPInterface.resolveRealIP inOrder trip' request).1 = "10.0.0.30".
Proof.
  split; [by vm_compute|]. eexists. split; [reflexivity|]. by vm_compute.
Qed.

(** ** The same request twice *)

Section again.
Context `{Net}.
Import ProvidersPkg.

Implicit Types (p : Provider) (request : GoHTTP.Request).

(** Two requests that agree on the headers of a provider are read alike. *)
Lemma fillValues_ext p request request' :
  (∀ h, h ∈ headers p → requestValue request' h = requestValue request h) →
  fillValues p request' = fillValues p request.
Proof.
  intros Hagree.
  destruct (fillValues_fields p request) as (Ek & En & Eh & Enets & Eaddrs).
  destruct (fillValues_fields p request') as (Ek' & En' & Eh' & Enets' & Eaddrs').
  assert (values (fillValues p request') = values (fillValues p request)) as Ev.
  { apply map_eq. intros h.
    change (candidate p request' h = candidate p request h).
    rewrite !candidate_lookup.
    destruct (decide (h ∈ headers p)) as [Hh|Hh].
    - by rewrite (Hagree h Hh).
    - rewrite !bool_decide_eq_false_2 by done.
      by destruct (requestValue request' h), (requestValue request h). }
  destruct (fillValues p request'), (fillValues p request). simpl in *. congruence.
Qed.

(** What a provider returns depends on the values it holds after
    reading the request, and on nothing else of the request. *)
Lemma GetRealIP_fill rt p p' request request' :
  kind p' = kind p → fillValues p' request' = fillValues p request →
  GetRealIP rt p' request' = GetRealIP rt p request.
Proof.
  intros Ek Ef. unfold GetRealIP. rewrite Ek. destruct (kind p).
  - unfold GenericProvider_GetRealIP. by rewrite Ef.
  - unfold CloudflareProvider_GetRealIP. by rewrite Ef.
  - unfold QratorProvider_GetRealIP. by rewrite Ef.
Qed.

(** A provider that has read a request, or has not, answers a request
    that agrees with it on its headers as it answers the request. *)
Lemma GetRealIP_again rt p p' request request' :
  p' = p ∨ p' = fillValues p request →
  (∀ h, h ∈ headers p → requestValue request' h = requestValue request h) →
  GetRealIP rt p' request' = GetRealIP rt p request.
Proof.
  intros [->| ->] Hagree.
  - apply GetRealIP_fill; [done|]. by apply fillValues_ext.
  - destruct (fillValues_fields p request) as (Ek & _ & Eh & _).
    apply GetRealIP_fill; [done|]. by apply fillValues_agree.
Qed.

(** The request [ServeHTTP] hands on, as the providers read it. *)
Lemma writeRealIP_requestValue_other realIP request h :
  GoHTTP.CanonicalMIMEHeaderKey h ≠ "X-Forwarded-For" →
  GoHTTP.CanonicalMIMEHeaderKey h ≠ "X-Real-Ip" →
  requestValue (RealIP.writeRealIP realIP request) h = requestValue request h.
Proof.
  intros H1 H2. unfold requestValue, RealIP.writeRealIP.
  destruct (bool_decide (realIP ≠ "")); [|done]. cbn [GoHTTP.Header_].
  rewrite (Get_Set_ne _ "X-Real-Ip" h) by exact H2.
  by rewrite (Get_Set_ne _ "X-Forwarded-For" h) by exact H1.
Qed.

Lemma writeRealIP_requestValue_written realIP request h :
  realIP ≠ "" → h = "X-Forwarded-For" ∨ h = "X-Real-Ip" →
  requestValue (RealIP.writeRealIP realIP request) h = Some (GoStrings.TrimSpace realIP).
Proof.
  intros Hr Hh. unfold requestValue, RealIP.writeRealIP.
  rewrite (bool_decide_eq_true_2 _ Hr). cbn [GoHTTP.Header_].
  assert (GoHTTP.Get
            (GoHTTP.Set_ (GoHTTP.Set_ (GoHTTP.Header_ request) "X-Forwarded-For" realIP)
                         "X-Real-Ip" realIP) h = realIP) as ->.
  { destruct Hh as [-> | ->].
    - rewrite Get_Set_ne by done. by rewrite Get_Set_eq.
    - by rewrite Get_Set_eq. }
  by rewrite (bool_decide_eq_true_2 _ Hr).
Qed.

Lemma writeRealIP_empty request : RealIP.writeRealIP "" request = request.
Proof. done. Qed.

(** The providers other than the generic one do not read the two
    headers [ServeHTTP] writes. *)
Lemma other_provider_again rt nets addrs key p p' realIP request :
  standard nets addrs key p → key ≠ "generic" →
  p' = p ∨ p' = fillValues p request →
  GetRealIP rt p' (RealIP.writeRealIP realIP request) = GetRealIP rt p request.
Proof.
  intros ((k & Hk & _ & _ & Hh) & _) Hkey Hp'.
  apply (GetRealIP_again rt p p' request); [done|]. rewrite Hh. intros h Hin.
  destruct Hk as [[? _]|[[_ ->]|[_ ->]]]; [done|..]; simpl in Hin.
  - apply elem_of_cons in Hin as [->|Hin]; [by apply writeRealIP_requestValue_other|].
    apply list_elem_of_singleton in Hin as ->. by apply writeRealIP_requestValue_other.
  - apply list_elem_of_singleton in Hin as ->. by apply writeRealIP_requestValue_other.
Qed.

(** The generic provider reads back the address [ServeHTTP] wrote,
    when it is an address a provider returned. *)
Lemma generic_reads_back rt nets addrs gp realIP request :
  standard nets addrs "generic" gp →
  realIP ≠ "" → excludedBy nets addrs realIP = false → GoStrings.TrimSpace realIP = realIP →
  (GetRealIP rt gp (RealIP.writeRealIP realIP request)).1 = realIP.
Proof.
  intros Hstd Hr Hex Htrim.
  pose proof Hstd as ((k & Hk & Hkind & _ & Hh) & _).
  assert (k = Generic) as -> by (destruct Hk as [[_ ?]|[[? _]|[? _]]]; done).
  unfold GetRealIP. rewrite Hkind, GenericProvider_GetRealIP_result.
  unfold _genericProviderXRealIPHeader. rewrite (candidate_lookup gp _ "X-Real-Ip").
  rewrite (writeRealIP_requestValue_written realIP request "X-Real-Ip" Hr) by by right.
  rewrite Hh, bool_decide_eq_true_2 by (simpl; repeat constructor).
  unfold genericCandidates. simpl. rewrite firstNonExcluded_cons, Htrim.
  by rewrite (isExcludedIP_excludedBy nets addrs "generic" gp realIP Hstd), Hex.
Qed.

(** The generic provider, asked again after its own answer was written
    to the request, gives the same answer. *)
Lemma generic_again rt nets addrs gp gp' request :
  fairRuntime rt → standard nets addrs "generic" gp →
  gp' = gp ∨ gp' = fillValues gp request →
  (GetRealIP rt gp' (RealIP.writeRealIP (GetRealIP rt gp request).1 request)).1
  = (GetRealIP rt gp request).1.
Proof.
  intros Hrt Hstd Hgp'.
  destruct (decide ((GetRealIP rt gp request).1 = "")) as [E|E].
  - rewrite E, writeRealIP_empty at 1.
    by rewrite (GetRealIP_again rt gp gp' request request Hgp').
  - destruct (GetRealIP_accepted rt nets addrs "generic" gp request Hrt Hstd E) as [Hex Htrim].
    apply (generic_reads_back rt nets addrs); try done.
    destruct Hgp' as [->| ->]; [done|]. by apply fillValues_standard.
Qed.

End again.

Section twice.
Context `{Net} {ResponseWriter : Type}.

Implicit Types (request : GoHTTP.Request).

Lemma resolveRealIP_servedBy rt
    (trip trip' : RealIP.TraefikRealIP (ResponseWriter := ResponseWriter)) request realIP :
  RealIP.wellFormed trip →
  RealIP.resolveRealIP rt trip request = Some (realIP, trip') →
  servedBy request trip trip'.
Proof.
  intros ((gp & Hg & _) & (cfp & Hc & _) & (qp & Hq & _)).
  rewrite (resolveRealIP_eq rt trip request gp cfp qp Hg Hc Hq). cbv zeta.
  repeat case_bool_decide; intros [= _ <-]; repeat split; simpl; rewrite ?Hg, ?Hc, ?Hq;
    eexists _, _; eauto.
Qed.

(** The answers of the providers in terms of the call through the
    interface. *)
Lemma realip_answer rt
    (trip : RealIP.TraefikRealIP (ResponseWriter := ResponseWriter)) request
    nets addrs key p :
  standard nets addrs key p →
  (key = "generic" ∧ RealIP.genericProvider trip = Some p)
  ∨ (key = "cloudflare" ∧ RealIP.cloudflareProvider trip = Some p)
  ∨ (key = "qrator" ∧ RealIP.qratorProvider trip = Some p) →
  RealIP.answer rt trip key request = (ProvidersPkg.GetRealIP rt p request).1.
Proof.
  intros ((k & Hk & Hkind & _) & _) Hkey. unfold RealIP.answer, ProvidersPkg.GetRealIP.
  rewrite Hkind.
  destruct Hkey as [[-> E]|[[-> E]|[-> E]]]; rewrite E; simpl;
    destruct Hk as [[? ->]|[[? ->]|[? ->]]]; done.
Qed.

(** [src/real_ip.go]: the handler that has resolved a request to an
    address resolves the request with that address written to it to the
    same address, the runtime ranging in the same order. *)
Lemma realip_resolve_again rt
    (trip trip1 : RealIP.TraefikRealIP (ResponseWriter := ResponseWriter)) request realIP :
  fairRuntime rt → RealIP.wellFormed trip →
  RealIP.resolveRealIP rt trip request = Some (realIP, trip1) →
  ∃ trip2, RealIP.resolveRealIP rt trip1 (RealIP.writeRealIP realIP request)
           = Some (realIP, trip2).
Proof.
  intros Hrt Hwf E.
  pose proof (resolveRealIP_servedBy rt trip trip1 request realIP Hwf E)
    as (_ & Epref & (gp & gp1 & Hg & Hg1 & Hgp) & (cfp & cfp1 & Hc & Hc1 & Hcfp)
        & (qp & qp1 & Hq & Hq1 & Hqp)).
  destruct Hwf as ((gp0 & Hg0 & Sg) & (cfp0 & Hc0 & Sc) & (qp0 & Hq0 & Sq)).
  assert (gp0 = gp) as -> by congruence.
  assert (cfp0 = cfp) as -> by congruence.
  assert (qp0 = qp) as -> by congruence.
  rewrite (resolveRealIP_eq rt trip request gp cfp qp Hg Hc Hq) in E. cbv zeta in E.
  rewrite (resolveRealIP_eq rt trip1 _ gp1 cfp1 qp1 Hg1 Hc1 Hq1). cbv zeta. rewrite Epref.
  set (nets := RealIP.excludedNetworks trip) in *.
  set (addrs := RealIP.excludedAddresses trip) in *.
  assert (∀ r, RealIP.answer rt trip1 "cloudflare" (RealIP.writeRealIP r request)
               = RealIP.answer rt trip "cloudflare" request) as Ecf.
  { intros r.
    rewrite (realip_answer rt trip request nets addrs "cloudflare" cfp Sc) by tauto.
    assert (standard nets addrs "cloudflare" cfp1) as Sc1
      by (destruct Hcfp as [->| ->]; [done|by apply fillValues_standard]).
    rewrite (realip_answer rt trip1 _ nets addrs "cloudflare" cfp1 Sc1) by tauto.
    by rewrite (other_provider_again rt nets addrs "cloudflare" cfp cfp1 r request Sc). }
  assert (∀ r, RealIP.answer rt trip1 "qrator" (RealIP.writeRealIP r request)
               = RealIP.answer rt trip "qrator" request) as Eq.
  { intros r.
    rewrite (realip_answer rt trip request nets addrs "qrator" qp Sq) by tauto.
    assert (standard nets addrs "qrator" qp1) as Sq1
      by (destruct Hqp as [->| ->]; [done|by apply fillValues_standard]).
    rewrite (realip_answer rt trip1 _ nets addrs "qrator" qp1 Sq1) by tauto.
    by rewrite (other_provider_again rt nets addrs "qrator" qp qp1 r request Sq). }
  assert (RealIP.answer rt trip1 "generic"
            (RealIP.writeRealIP (RealIP.answer rt trip "generic" request) request)
          = RealIP.answer rt trip "generic" request) as Eg.
  { rewrite (realip_answer rt trip request nets addrs "generic" gp Sg) by tauto.
    assert (standard nets addrs "generic" gp1) as Sg1
      by (destruct Hgp as [->| ->]; [done|by apply fillValues_standard]).
    rewrite (realip_answer rt trip1 _ nets addrs "generic" gp1 Sg1) by tauto.
    by apply (generic_again rt nets addrs). }
  rewrite Ecf, Eq.
  injection E as E. revert E.
  case_bool_decide as Ha; intros [= <- _].
  - rewrite Eg. by eexists.
  - by eexists.
Qed.

End twice.

Section iface_twice.
Context `{Net} {U : GoStrings.UnicodeTables} {ResponseWriter : Type}.

Implicit Types (trip : RealIPInterface.TraefikRealIP (ResponseWriter := ResponseWriter)).
Implicit Types (request : GoHTTP.Request).

Lemma iface_writeRealIP_eq realIP request :
  RealIPInterface.writeRealIP realIP request = RealIP.writeRealIP realIP request.
Proof. reflexivity. Qed.

Lemma find_fmap {A B} (f : A → B) (P : B → bool) (l : list A) :
  List.find P (f <$> l) = f <$> List.find (λ x, P (f x)) l.
Proof. induction l as [|x l IH]; simpl; [done|]. by destruct (P (f x)). Qed.

Lemma find_ext {A} (P Q : A → bool) (l : list A) :
  (∀ x, P x = Q x) → List.find P l = List.find Q l.
Proof. intros E. induction l as [|x l IH]; simpl; [done|]. by rewrite E, IH. Qed.

(** The providers other than the generic one answer the request that
    was handed on as they answered the request. *)
Lemma iface_answers_again_other rt trip trip1 request realIP key :
  RealIPInterface.wellFormed trip →
  RealIPInterface.providers trip1
  = (λ p, ProvidersPkg.fillValues p request) <$> RealIPInterface.providers trip →
  key ≠ "generic" →
  RealIPInterface.answers rt trip1 (RealIP.writeRealIP realIP request) !! key
  = RealIPInterface.answers rt trip request !! key.
Proof.
  intros [Hstd _] Ep Hkey. rewrite !answers_lookup, Ep, lookup_fmap.
  destruct (RealIPInterface.providers trip !! key) as [p|] eqn:E; [|done]. simpl.
  by rewrite (other_provider_again rt _ _ key p _ realIP request (Hstd key p E) Hkey)
    by by right.
Qed.

(** The generic provider answers the request with its own answer
    written to it as it answered the request. *)
Lemma iface_answers_again_generic rt trip trip1 request :
  fairRuntime rt → RealIPInterface.wellFormed trip →
  RealIPInterface.providers trip1
  = (λ p, ProvidersPkg.fillValues p request) <$> RealIPInterface.providers trip →
  RealIPInterface.answers rt trip1
    (RealIP.writeRealIP (default "" (RealIPInterface.answers rt trip request !! "generic"))
                        request) !! "generic"
  = RealIPInterface.answers rt trip request !! "generic".
Proof.
  intros Hrt [Hstd _] Ep. rewrite !answers_lookup, Ep, lookup_fmap.
  destruct (RealIPInterface.providers trip !! "generic") as [gp|] eqn:E; [|done]. simpl.
  assert (default "" (if bool_decide ((ProvidersPkg.GetRealIP rt gp request).1 ≠ "")
                      then Some (ProvidersPkg.GetRealIP rt gp request).1 else None)
          = (ProvidersPkg.GetRealIP rt gp request).1) as ->.
  { case_bool_decide as Hg; [done|]. simpl. by rewrite Hg. }
  by rewrite (generic_again rt _ _ gp _ request Hrt (Hstd _ _ E)) by by right.
Qed.

(** The records after the second call, the generic one apart, are the
    records after the first. *)
Lemma iface_records_again rt trip trip1 request realIP :
  RealIPInterface.wellFormed trip →
  RealIPInterface.providers trip1
  = (λ p, ProvidersPkg.fillValues p request) <$> RealIPInterface.providers trip →
  RealIPInterface.providersIPs trip1
  = delete "generic" (RealIPInterface.answers rt trip request
                      ∪ RealIPInterface.providersIPs trip) →
  delete "generic" (RealIPInterface.answers rt trip1 (RealIP.writeRealIP realIP request)
                    ∪ RealIPInterface.providersIPs trip1)
  = delete "generic" (RealIPInterface.answers rt trip request
                      ∪ RealIPInterface.providersIPs trip).
Proof.
  intros Hwf Ep Ei. apply map_eq. intros key.
  destruct (decide (key = "generic")) as [->|Hkey]; [by rewrite !lookup_delete_eq|].
  rewrite !lookup_delete_ne by done. rewrite !lookup_union, Ei.
  rewrite lookup_delete_ne by done. rewrite lookup_union.
  rewrite (iface_answers_again_other rt trip trip1 request realIP key Hwf Ep Hkey).
  by destruct (RealIPInterface.answers rt trip request !! key),
              (RealIPInterface.providersIPs trip !! key).
Qed.

(** The handler that has resolved a request to an address resolves
    the request with that address written to it to the same address, the
    runtime ranging in the same order. *)
Lemma iface_resolve_again rt trip request :
  fairRuntime rt → RealIPInterface.wellFormed trip →
  (RealIPInterface.resolveRealIP rt
     (RealIPInterface.resolveRealIP rt trip request).2
     (RealIP.writeRealIP (RealIPInterface.resolveRealIP rt trip request).1 request)).1
  = (RealIPInterface.resolveRealIP rt trip request).1.
Proof.
  intros Hrt Hwf. pose proof Hrt as (_ & _ & _ & Ho & _). pose proof Hwf as [_ Hgen].
  destruct (iface_resolveRealIP_fields rt trip request Ho) as (_ & _ & _ & Epref & Ep & Ei).
  set (trip1 := (RealIPInterface.resolveRealIP rt trip request).2) in *.
  set (A := RealIPInterface.answers rt trip request) in *.
  set (ips0 := RealIPInterface.providersIPs trip) in *.
  assert ((A ∪ ips0) !! "generic" = A !! "generic") as EG.
  { rewrite lookup_union. fold ips0 in Hgen. rewrite Hgen. by destruct (A !! "generic"). }
  assert (∀ q, (RealIPInterface.answers rt trip1 q ∪ RealIPInterface.providersIPs trip1)
               !! "generic" = RealIPInterface.answers rt trip1 q !! "generic") as EG'.
  { intros q. rewrite lookup_union, Ei, lookup_delete_eq.
    by destruct (RealIPInterface.answers rt trip1 q !! "generic"). }
  destruct (decide (RealIPInterface.preferredProvider trip = "")) as [Hpref|Hpref].
  - (* no preference *)
    assert (RealIPInterface.preferredProvider trip1 = "") as Hpref1 by by rewrite Epref.
    set (I := delete "generic" (A ∪ ips0)).
    pose proof (iface_resolveRealIP_unpreferred rt trip request Ho Hpref) as Er0.
    cbv zeta in Er0. unfold RealIPInterface.collected in Er0.
    cbn [RealIPInterface.providersIPs RealIPInterface.providers
         RealIPInterface.set_providersIPs RealIPInterface.set_providers] in Er0.
    fold A ips0 I in Er0. rewrite EG in Er0.
    rewrite (iface_resolveRealIP_unpreferred rt trip1 _ Ho Hpref1).
    cbv zeta. unfold RealIPInterface.collected.
    cbn [RealIPInterface.providersIPs RealIPInterface.providers
         RealIPInterface.set_providersIPs RealIPInterface.set_providers].
    rewrite (iface_records_again rt trip trip1 request _ Hwf Ep Ei).
    fold A ips0 I. rewrite EG', Ep.
    rewrite (rangeMap_fmap _ _ ((λ p, ProvidersPkg.fillValues p request)
                                <$> RealIPInterface.providers trip)).
    rewrite find_fmap.
    rewrite (find_ext _ (λ entry, bool_decide (is_Some (I !! ProvidersPkg.GetName entry.2)))).
    2:{ intros [k p]. simpl. unfold ProvidersPkg.GetName.
        by destruct (fillValues_fields p
                       (RealIP.writeRealIP (RealIPInterface.resolveRealIP rt trip request).1
                                           request)) as (_ & -> & _). }
    destruct (List.find _ _) as [[k p]|] eqn:Efind; simpl.
    + rewrite Er0. simpl. unfold ProvidersPkg.GetName.
      by destruct (fillValues_fields p
                     (RealIP.writeRealIP
                        (default "" (I !! ProvidersPkg.name p)) request)) as (_ & -> & _).
    + rewrite Er0. unfold A.
      by rewrite (iface_answers_again_generic rt trip trip1 request Hrt Hwf Ep).
  - (* a preferred provider *)
    assert (RealIPInterface.preferredProvider trip1 ≠ "") as Hpref1 by by rewrite Epref.
    pose proof (iface_resolveRealIP_preferred rt trip request Ho Hpref) as Er0.
    cbv zeta in Er0. unfold RealIPInterface.collected in Er0.
    cbn [RealIPInterface.providersIPs RealIPInterface.set_providersIPs
         RealIPInterface.set_providers] in Er0.
    fold A ips0 in Er0. rewrite EG in Er0.
    rewrite (iface_resolveRealIP_preferred rt trip1 _ Ho Hpref1).
    cbv zeta. unfold RealIPInterface.collected.
    cbn [RealIPInterface.providersIPs RealIPInterface.set_providersIPs
         RealIPInterface.set_providers].
    rewrite (iface_records_again rt trip trip1 request _ Hwf Ep Ei).
    fold A ips0. rewrite EG', Epref.
    destruct (delete "generic" (A ∪ ips0) !! RealIPInterface.preferredProvider trip)
      as [v|] eqn:Ev; simpl in *; [done|].
    rewrite Er0. unfold A.
    by rewrite (iface_answers_again_generic rt trip trip1 request Hrt Hwf Ep).
Qed.

End iface_twice.

(** C9, as the code has it: [ServeHTTP] called twice in a row on the
    same request, the next handler leaving the request as it is and the
    runtime ranging over the maps in the same order in both calls,
    resolves to the same address both times. In both [real_ip.go], for
    every handler that serves. *)
Theorem C9_same_address_in_one_order `{Net} {ResponseWriter : Type}
    (rt : Runtime) (responseWriter : ResponseWriter) (request : GoHTTP.Request) :
  fairRuntime rt →
  (∀ trip : RealIP.TraefikRealIP (ResponseWriter := ResponseWriter),
     RealIP.wellFormed trip → (∀ w r, (RealIP.next trip w r).2 = r) →
     ∃ realIP trip1 w1 request1 trip2,
       RealIP.ServeHTTP rt trip responseWriter request = Some (trip1, (w1, request1))
       ∧ RealIP.resolveRealIP rt trip request = Some (realIP, trip1)
       ∧ RealIP.resolveRealIP rt trip1 request1 = Some (realIP, trip2))
  ∧ (∀ trip : RealIPInterface.TraefikRealIP (ResponseWriter := ResponseWriter),
       RealIPInterface.wellFormed trip → (∀ w r, (RealIPInterface.next trip w r).2 = r) →
       ∃ trip1 w1 request1,
         RealIPInterface.ServeHTTP rt trip responseWriter request = (trip1, (w1, request1))
         ∧ trip1 = (RealIPInterface.resolveRealIP rt trip request).2
         ∧ (RealIPInterface.resolveRealIP rt trip1 request1).1
           = (RealIPInterface.resolveRealIP rt trip request).1).
Proof.
  intros Hrt. split.
  - intros trip Hwf Hnext.
    destruct (resolveRealIP_wellFormed rt trip request Hwf) as (realIP & trip1 & E & _ & En & _).
    destruct (realip_resolve_again rt trip trip1 request realIP Hrt Hwf E) as [trip2 E2].
    exists realIP, trip1, (RealIP.next trip responseWriter (RealIP.writeRealIP realIP request)).1,
      (RealIP.writeRealIP realIP request), trip2.
    split; [|done]. unfold RealIP.ServeHTTP. rewrite E. simpl. rewrite En.
    specialize (Hnext responseWriter (RealIP.writeRealIP realIP request)).
    by destruct (RealIP.next trip responseWriter (RealIP.writeRealIP realIP request));
      simpl in *; subst.
  - intros trip Hwf Hnext. pose proof Hrt as (_ & _ & _ & Ho & _).
    destruct (iface_resolveRealIP_fields rt trip request Ho) as (En & _).
    pose proof (iface_resolve_again rt trip request Hrt Hwf) as Eagain.
    unfold RealIPInterface.ServeHTTP.
    destruct (RealIPInterface.resolveRealIP rt trip request) as [realIP trip1]. simpl in *.
    exists trip1, (RealIPInterface.next trip responseWriter (RealIP.writeRealIP realIP request)).1,
      (RealIP.writeRealIP realIP request).
    split; [|done]. rewrite En, iface_writeRealIP_eq.
    specialize (Hnext responseWriter (RealIP.writeRealIP realIP request)).
    by destruct (RealIPInterface.next trip responseWriter (RealIP.writeRealIP realIP request));
      simpl in *; subst.
Qed.

(** The request of the tests twice on the handler that prefers Qrator. *)
Lemma C9_witness :
  ∃ realIP trip1 w1 request1 trip2,
    RealIP.ServeHTTP (H := IPv4.net) inOrder
      (RealIP.made noNext (preferring "qrator") "traefik-real-ip" []) tt
      (requestWith allHeaders) = Some (trip1, (w1, request1))
    ∧ RealIP.resolveRealIP inOrder
        (RealIP.made noNext (preferring "qrator") "traefik-real-ip" [])
        (requestWith allHeaders) = Some (realIP, trip1)
    ∧ RealIP.resolveRealIP inOrder trip1 request1 = Some (realIP, trip2).
Proof.
  apply (proj1 (C9_same_address_in_one_order (H := IPv4.net) inOrder tt
                  (requestWith allHeaders) inOrder_fair)).
  - apply made_wellFormed.
  - reflexivity.
Defined.

(** C9 as stated fails, in both [real_ip.go]: when the runtime ranges
    over a map in one order in the first call and in the opposite order
    in the second, the two calls on the same request give two addresses.
    With Cloudflare preferred and two Cloudflare headers that differ, in
    [src/real_ip.go]; with no preference and every header, in the other. *)
Lemma C9_counterexample :
  fairRuntime inOrder ∧ fairRuntime backwards
  ∧ (fst <$> RealIP.resolveRealIP (H := IPv4.net) inOrder
               (RealIP.made noNext (preferring "cloudflare") "traefik-real-ip" [])
               twoCloudflare = Some "10.0.0.41"
     ∧ match RealIP.ServeHTTP (H := IPv4.net) inOrder
               (RealIP.made noNext (preferring "cloudflare") "traefik-real-ip" [])
               tt twoCloudflare with
       | Some (trip1, (_, request1)) =>
           fst <$> RealIP.resolveRealIP backwards trip1 request1 = Some "10.0.0.40"
       | None => False
       end)
  ∧ match RealIPInterface.New (H := IPv4.net) (U := ASCII.tables) inOrder noNext (preferring "")
            "traefik-real-ip" with
    | inr trip0 =>
        (RealIPInterface.resolveRealIP inOrder trip0 (requestWith allHeaders)).1 = "10.0.0.40"
        ∧ let '(trip1, (_, request1)) :=
            RealIPInterface.ServeHTTP inOrder trip0 tt (requestWith allHeaders) in
          (RealIPInterface.resolveRealIP backwards trip1 request1).1 = "10.0.0.30"
    | inl _ => False
    end.
Proof.
  split; [apply inOrder_fair|]. split; [apply backwards_fair|].
  split; vm_compute; by split.
Qed.

(** * Further properties of the code *)

(** ** The registry of providers.go *)

(** X1: whatever the order in which the runtime lists the registry,
    [GetAvailableProviders] returns the three names, each once, and
    [IsValidProvider] accepts a name exactly when it is one of the three,
    as it is written. *)
Theorem X1_registry_names `{Net} (o : Order) (nets : list IPNet) (addrs : list IP) :
  fair o →
  ProvidersPkg.GetAvailableProviders o (ProvidersPkg.Initialize nets addrs) ≡ₚ names
  ∧ ∀ provider,
      ProvidersPkg.IsValidProvider o (ProvidersPkg.Initialize nets addrs) provider = true
      ↔ provider ∈ names.
Proof.
  intros Ho.
  assert (∀ provider,
            provider ∈ ProvidersPkg.GetAvailableProviders o (ProvidersPkg.Initialize nets addrs)
            ↔ provider ∈ names) as Hin.
  { intros provider.
    pose proof (IsValidProvider_names o nets addrs provider Ho) as E.
    unfold ProvidersPkg.IsValidProvider in E. rewrite existsb_elem_of in E.
    split; intros Hp.
    - apply (bool_decide_eq_true_1 _). rewrite <- E. by apply bool_decide_eq_true_2.
    - apply (bool_decide_eq_true_1 _). rewrite E. by apply bool_decide_eq_true_2. }
  split.
  - apply NoDup_Permutation; [by apply rangeMap_NoDup| |done].
    apply (bool_decide_unpack _). by vm_compute.
  - intros provider. rewrite (IsValidProvider_names o nets addrs provider Ho).
    apply bool_decide_eq_true.
Qed.

Lemma X1_witness :
  ProvidersPkg.IsValidProvider reverse (ProvidersPkg.Initialize (H := IPv4.net) [] []) "qrator"
  = true.
Proof.
  apply (proj2 (X1_registry_names (H := IPv4.net) reverse [] [] (λ l, reverse_Permutation l))).
  by repeat constructor.
Defined.

(** X2: [GetProvider] on the registry [Initialize] builds finds a
    provider exactly for the three names; the provider found reports the
    name it is filed under, is bound to the exclusion set given to
    [Initialize], reads at least one header and holds no value yet. For
    any other name the result is the nil interface. *)
Theorem X2_registry_lookup `{Net} (nets : list IPNet) (addrs : list IP) (provider : string) :
  match ProvidersPkg.GetProvider (ProvidersPkg.Initialize nets addrs) provider with
  | Some p =>
      provider ∈ names
      ∧ ProvidersPkg.GetName p = provider
      ∧ ProvidersPkg.getExcludedNetworks p = nets
      ∧ ProvidersPkg.getExcludedAddresses p = addrs
      ∧ ProvidersPkg.GetHeaders p ≠ []
      ∧ ProvidersPkg.GetValues p = ∅
  | None => provider ∉ names
  end.
Proof.
  unfold ProvidersPkg.GetProvider. rewrite Initialize_lookup.
  repeat case_bool_decide; subst; try (split; [by repeat constructor|done]).
  intros Hin. no_name Hin.
Qed.

(** ** What a provider returns *)

(** X3: an address a provider returns is never one its exclusion test
    refuses: it parses as an address and is neither in an excluded
    network nor an excluded address. For the three variants, whatever
    the provider holds and whatever the order of the runtime. *)
Theorem X3_result_passes_exclusion `{Net} (rt : Runtime) (p : ProvidersPkg.Provider)
    (request : GoHTTP.Request) :
  fairRuntime rt →
  (ProvidersPkg.GetRealIP rt p request).1 ≠ "" →
  ProvidersPkg.isExcludedIP p (ProvidersPkg.GetRealIP rt p request).1 = false
  ∧ is_Some (ParseIP (ProvidersPkg.GetRealIP rt p request).1).
Proof.
  intros (Hcf & Hq & _) Hr.
  assert (ProvidersPkg.isExcludedIP p (ProvidersPkg.GetRealIP rt p request).1 = false) as Hex.
  { revert Hr. unfold ProvidersPkg.GetRealIP. destruct (ProvidersPkg.kind p).
    - rewrite GenericProvider_GetRealIP_result. intros Hr.
      by destruct (firstNonExcluded_elem _ _ Hr).
    - intros Hr.
      destruct (CloudflareProvider_GetRealIP_result _ p request Hcf) as [(h & _ & Hex)|[E _]];
        [done|by destruct Hr].
    - intros Hr.
      destruct (QratorProvider_GetRealIP_result _ p request Hq) as [(h & _ & Hex)|[E _]];
        [done|by destruct Hr]. }
  split; [done|]. unfold ProvidersPkg.isExcludedIP in Hex.
  destruct (ParseIP _); [by eexists|done].
Qed.

Lemma X3_witness :
  let p := ProvidersPkg.CloudflareProvider_Initialize (H := IPv4.net)
             (omap IPv4.parseCIDR ["10.0.0.40/32"]) [] in
  ProvidersPkg.isExcludedIP p (ProvidersPkg.GetRealIP backwards p twoCloudflare).1 = false.
Proof.
  intros p.
  apply (X3_result_passes_exclusion (H := IPv4.net) backwards p twoCloudflare backwards_fair).
  by vm_compute.
Defined.

(** X4: the Cloudflare provider ranges over the map of its values; when
    the values it holds that pass the exclusion test are all the same
    address, this address is the result in every order of the runtime. *)
Theorem X4_cloudflare_agreeing_values `{Net} (o : Order) (cfp : ProvidersPkg.Provider)
    (request : GoHTTP.Request) (address : string) :
  fair o →
  (∃ h, candidate cfp request h = Some address
        ∧ ProvidersPkg.isExcludedIP cfp address = false) →
  (∀ h v, candidate cfp request h = Some v →
          ProvidersPkg.isExcludedIP cfp v = false → v = address) →
  (ProvidersPkg.CloudflareProvider_GetRealIP o cfp request).1 = address.
Proof.
  intros Ho (h & Hh & Hex) Hall.
  destruct (CloudflareProvider_GetRealIP_result o cfp request Ho) as [(h' & Hh' & Hex')|[_ Hnone]].
  - by apply (Hall h').
  - by rewrite (Hnone h address Hh) in Hex.
Qed.

(** The request of the tests: both Cloudflare headers carry 10.0.0.40. *)
Lemma X4_witness :
  (ProvidersPkg.CloudflareProvider_GetRealIP reverse
     (ProvidersPkg.CloudflareProvider_Initialize (H := IPv4.net) [] [])
     (requestWith allHeaders)).1 = "10.0.0.40".
Proof.
  apply (X4_cloudflare_agreeing_values (H := IPv4.net) reverse _ _ "10.0.0.40"
           (λ l, reverse_Permutation l)).
  - exists "True-Client-IP". split; reflexivity.
  - intros h v. rewrite candidate_lookup. cbn [ProvidersPkg.values
      ProvidersPkg.CloudflareProvider_Initialize ProvidersPkg.headers].
    rewrite lookup_empty.
    destruct (requestValue (requestWith allHeaders) h) as [w|] eqn:E; [|done].
    case_bool_decide as Hin; [|done]. intros [= ->] _.
    apply elem_of_cons in Hin as [->|Hin]; [by vm_compute in E; injection E as <-|].
    apply list_elem_of_singleton in Hin as ->. by vm_compute in E; injection E as <-.
Defined.

(** X5: the Qrator provider reads one header, so the order of the
    runtime has no effect on it: on a provider as the handlers keep it two
    orders give the same result and the same provider; on a provider as
    initialised the result is the trimmed value of [X-Qrator-IP-Source]
    when the request carries one that passes the exclusion test, and
    empty otherwise. *)
Theorem X5_qrator_order_free `{Net} (o o' : Order) (nets : list IPNet) (addrs : list IP)
    (request : GoHTTP.Request) :
  fair o → fair o' →
  (∀ qp, standard nets addrs "qrator" qp →
         ProvidersPkg.QratorProvider_GetRealIP o qp request
         = ProvidersPkg.QratorProvider_GetRealIP o' qp request)
  ∧ (ProvidersPkg.QratorProvider_GetRealIP o
       (ProvidersPkg.QratorProvider_Initialize nets addrs) request).1
    = match requestValue request "X-Qrator-IP-Source" with
      | Some v => if excludedBy nets addrs v then "" else v
      | None => ""
      end.
Proof.
  intros Ho Ho'. split.
  - intros qp Hstd.
    pose proof (QratorProvider_GetRealIP_standard o nets addrs qp request Ho Hstd) as E.
    pose proof (QratorProvider_GetRealIP_standard o' nets addrs qp request Ho' Hstd) as E'.
    pose proof (QratorProvider_GetRealIP_state o qp request) as S.
    pose proof (QratorProvider_GetRealIP_state o' qp request) as S'.
    destruct (ProvidersPkg.QratorProvider_GetRealIP o qp request),
             (ProvidersPkg.QratorProvider_GetRealIP o' qp request).
    simpl in *. congruence.
  - assert (standard nets addrs "qrator" (ProvidersPkg.QratorProvider_Initialize nets addrs))
      as Hstd.
    { split; [exists ProvidersPkg.Qrator; naive_solver|]. by repeat split. }
    rewrite (QratorProvider_GetRealIP_standard o nets addrs _ request Ho Hstd).
    unfold ProvidersPkg._qratorProviderXQratorIPSourceHeader.
    rewrite candidate_fresh by (try done; simpl; repeat constructor).
    destruct (requestValue request "X-Qrator-IP-Source") as [v|]; [|done]. simpl.
    rewrite firstNonExcluded_cons.
    rewrite (isExcludedIP_excludedBy nets addrs "qrator" _ v Hstd).
    by destruct (excludedBy nets addrs v).
Qed.

Lemma X5_witness :
  (ProvidersPkg.QratorProvider_GetRealIP reverse
     (ProvidersPkg.QratorProvider_Initialize (H := IPv4.net) [] [])
     (requestWith allHeaders)).1 = "10.0.0.30".
Proof.
  rewrite (proj2 (X5_qrator_order_free (H := IPv4.net) reverse id [] [] (requestWith allHeaders)
                    (λ l, reverse_Permutation l) (λ l, Permutation_refl l))).
  reflexivity.
Defined.

(** X6: [fillValues] changes nothing of a provider but its values;
    reading the same request a second time changes nothing at all; and
    the headers it holds a value for afterwards are those it held one for
    before and those of its own that the request carries with a value
    that is not empty. *)
Theorem X6_fillValues_idempotent `{Net} (p : ProvidersPkg.Provider) (request : GoHTTP.Request) :
  ProvidersPkg.fillValues (ProvidersPkg.fillValues p request) request
  = ProvidersPkg.fillValues p request
  ∧ ProvidersPkg.GetName (ProvidersPkg.fillValues p request) = ProvidersPkg.GetName p
  ∧ ProvidersPkg.GetHeaders (ProvidersPkg.fillValues p request) = ProvidersPkg.GetHeaders p
  ∧ ProvidersPkg.getExcludedNetworks (ProvidersPkg.fillValues p request)
    = ProvidersPkg.getExcludedNetworks p
  ∧ ProvidersPkg.getExcludedAddresses (ProvidersPkg.fillValues p request)
    = ProvidersPkg.getExcludedAddresses p
  ∧ ∀ h, is_Some (ProvidersPkg.GetValues (ProvidersPkg.fillValues p request) !! h)
         ↔ is_Some (ProvidersPkg.GetValues p !! h)
           ∨ (h ∈ ProvidersPkg.GetHeaders p ∧ GoHTTP.Get (GoHTTP.Header_ request) h ≠ "").
Proof.
  destruct (fillValues_fields p request) as (_ & En & Eh & Enets & Eaddrs).
  split; [by apply fillValues_agree|]. repeat split; try done.
  - change (ProvidersPkg.GetValues (ProvidersPkg.fillValues p request) !! h)
      with (candidate p request h).
    rewrite candidate_lookup. unfold requestValue, ProvidersPkg.GetValues, ProvidersPkg.GetHeaders.
    destruct (bool_decide (GoHTTP.Get (GoHTTP.Header_ request) h ≠ "")) eqn:Eg.
    + apply bool_decide_eq_true in Eg. case_bool_decide; [by right|by left].
    + by left.
  - change (ProvidersPkg.GetValues (ProvidersPkg.fillValues p request) !! h)
      with (candidate p request h).
    rewrite candidate_lookup. unfold requestValue, ProvidersPkg.GetValues, ProvidersPkg.GetHeaders.
    intros [Hold|[Hin Hget]].
    + destruct (bool_decide (GoHTTP.Get (GoHTTP.Header_ request) h ≠ "")); [|done].
      by case_bool_decide.
    + by rewrite !bool_decide_eq_true_2.
Qed.

(** ** The handler of [src/real_ip.go] *)

Section realip_more.
Context `{Net} {ResponseWriter : Type}.
Implicit Types (trip : RealIP.TraefikRealIP (ResponseWriter := ResponseWriter)).
Implicit Types (request : GoHTTP.Request) (next : Handler ResponseWriter).

(** An address that passes the exclusion test is an address. *)
Lemma excludedBy_parses nets addrs address :
  excludedBy nets addrs address = false → is_Some (ParseIP address).
Proof.
  unfold excludedBy, ProvidersPkg.isExcludedIP. destruct (ParseIP address); [by eexists|done].
Qed.

Lemma generic_same_headers nets addrs gp request request' :
  standard nets addrs "generic" gp →
  requestValue request' "X-Forwarded-For" = requestValue request "X-Forwarded-For" →
  requestValue request' "X-Real-Ip" = requestValue request "X-Real-Ip" →
  ProvidersPkg.GenericProvider_GetRealIP gp request'
  = ProvidersPkg.GenericProvider_GetRealIP gp request.
Proof.
  intros ((k & Hk & _ & _ & Hh) & _) Hf Hr.
  assert (k = ProvidersPkg.Generic) as -> by (destruct Hk as [[_ ->]|[[? _]|[? _]]]; done).
  unfold ProvidersPkg.GenericProvider_GetRealIP.
  rewrite (fillValues_ext gp request request'); [done|].
  intros h. rewrite Hh. simpl. intros Hin.
  apply elem_of_cons in Hin as [->|Hin]; [done|].
  by apply list_elem_of_singleton in Hin as ->.
Qed.

Lemma serveAll_wellFormed trip (calls : list (Call ResponseWriter)) :
  RealIP.wellFormed trip →
  ∃ trip', serveAll trip calls = Some trip'
           ∧ RealIP.wellFormed trip'
           ∧ RealIP.next trip' = RealIP.next trip
           ∧ RealIP.preferredProvider trip' = RealIP.preferredProvider trip
           ∧ RealIP.excludedNetworks trip' = RealIP.excludedNetworks trip
           ∧ RealIP.excludedAddresses trip' = RealIP.excludedAddresses trip.
Proof.
  revert trip. induction calls as [|[[rt responseWriter] request] calls IH]; intros trip Hwf.
  { by exists trip. }
  destruct (resolveRealIP_wellFormed rt trip request Hwf)
    as (realIP & trip1 & E & Hwf1 & En & Ep & Enets & Eaddrs).
  destruct (IH trip1 Hwf1) as (trip' & E' & Hwf' & En' & Ep' & Enets' & Eaddrs').
  exists trip'. cbn [serveAll]. unfold RealIP.ServeHTTP. rewrite E. simpl. rewrite E'.
  do 2 (split; [done|]). repeat split; congruence.
Qed.

End realip_more.

(** X7: in [New] of [src/real_ip.go] the list of providers of the
    configuration is checked and has no other effect: when [New] makes a
    handler, it makes the same handler from the configuration without the
    list, and the three providers are all there, whatever the list
    names. *)
Theorem X7_providers_list_only_checked `{Net} {ResponseWriter : Type}
    (next : Handler ResponseWriter) (config : Config) (name : string)
    (trip : RealIP.TraefikRealIP) :
  RealIP.New next config name = inr trip →
  RealIP.New next (withProviders config None) name = inr trip
  ∧ is_Some (RealIP.genericProvider trip)
  ∧ is_Some (RealIP.cloudflareProvider trip)
  ∧ is_Some (RealIP.qratorProvider trip).
Proof.
  intros E. split.
  - revert E. unfold RealIP.New.
    cbn [ExcludedNetworks ExcludedAddresses Providers PreferredProvider withProviders].
    destruct (parseExcludedNetworks _ _) as [e|nets]; [done|].
    destruct (_ && _); [done|]. destruct (List.find _ (elems (Providers config))); [done|].
    assert (bool_decide (Providers config ≠ None)
            || bool_decide (length (elems (Providers config)) = 0) = true) as ->.
    { by destruct (Providers config). }
    done.
  - destruct (New_inr _ _ _ _ E) as (nets & _ & ->). by repeat split.
Qed.

(** A configuration that asks for Cloudflare only: Qrator is there too. *)
Lemma X7_witness :
  ∃ trip, RealIP.New (H := IPv4.net) noNext (mkConfig [] [] (Some ["cloudflare"]) "")
            "traefik-real-ip" = inr trip
          ∧ is_Some (RealIP.qratorProvider trip).
Proof.
  eexists. split; [reflexivity|].
  apply (X7_providers_list_only_checked (H := IPv4.net) noNext
           (mkConfig [] [] (Some ["cloudflare"]) "") "traefik-real-ip" _ eq_refl).
Defined.

(** X8: a handler [New] of [src/real_ip.go] has made serves any
    sequence of requests without a call through a nil provider, and after
    them it has the next handler, the preferred provider and the
    exclusion set it was made with. *)
Theorem X8_made_handler_never_panics `{Net} {ResponseWriter : Type}
    (next : Handler ResponseWriter) (config : Config) (name : string)
    (trip : RealIP.TraefikRealIP) (calls : list (Call ResponseWriter)) :
  RealIP.New next config name = inr trip →
  ∃ trip', serveAll trip calls = Some trip'
           ∧ RealIP.next trip' = next
           ∧ RealIP.GetPreferredProvider trip' = PreferredProvider config
           ∧ RealIP.GetExcludedNetworks trip' = RealIP.GetExcludedNetworks trip
           ∧ RealIP.GetExcludedAddresses trip' = omap ParseIP (ExcludedAddresses config).
Proof.
  intros E. destruct (New_inr _ _ _ _ E) as (nets & _ & ->).
  destruct (serveAll_wellFormed _ calls (made_wellFormed next config name nets))
    as (trip' & E' & _ & En & Ep & Enets & Eaddrs).
  exists trip'. by repeat split.
Qed.

Lemma X8_witness :
  ∃ trip', serveAll (RealIP.made (H := IPv4.net) noNext (preferring "qrator")
                       "traefik-real-ip" [])
             [(inOrder, tt, throughQrator); (backwards, tt, direct)] = Some trip'
           ∧ RealIP.GetPreferredProvider trip' = "qrator".
Proof.
  destruct (X8_made_handler_never_panics (H := IPv4.net) noNext (preferring "qrator")
              "traefik-real-ip" _ [(inOrder, tt, throughQrator); (backwards, tt, direct)]
              eq_refl) as (trip' & E & _ & Ep & _).
  exists trip'. split; [exact E|exact Ep].
Defined.

(** X9: unless Cloudflare or Qrator is the preferred provider, the
    handler of [src/real_ip.go] reads [X-Forwarded-For] and [X-Real-Ip] and
    nothing else: two requests with the same values of these two headers
    are resolved alike, to the same address and the same handler, whatever
    their other headers and whatever the order of the runtime. *)
Theorem X9_other_headers_ignored `{Net} {ResponseWriter : Type} (rt rt' : Runtime)
    (trip : RealIP.TraefikRealIP (ResponseWriter := ResponseWriter))
    (request request' : GoHTTP.Request) :
  RealIP.wellFormed trip →
  RealIP.GetPreferredProvider trip ≠ "cloudflare" →
  RealIP.GetPreferredProvider trip ≠ "qrator" →
  requestValue request' "X-Forwarded-For" = requestValue request "X-Forwarded-For" →
  requestValue request' "X-Real-Ip" = requestValue request "X-Real-Ip" →
  RealIP.resolveRealIP rt' trip request' = RealIP.resolveRealIP rt trip request.
Proof.
  intros ((gp & Hg & Sg) & (cfp & Hc & _) & (qp & Hq & _)) Hnc Hnq Hf Hr.
  unfold RealIP.GetPreferredProvider in *.
  rewrite !(resolveRealIP_eq _ trip _ gp cfp qp Hg Hc Hq).
  rewrite !(bool_decide_eq_false_2 _ Hnc), !(bool_decide_eq_false_2 _ Hnq). cbv zeta.
  rewrite (bool_decide_eq_true_2 ("" = "") eq_refl).
  unfold RealIP.answer. rewrite (bool_decide_eq_true_2 ("generic" = "generic") eq_refl), Hg.
  simpl.
  pose proof (generic_same_headers _ _ gp request request' Sg Hf Hr) as E.
  rewrite E. do 3 f_equal. rewrite <- !GenericProvider_GetRealIP_state. by rewrite E.
Qed.

(** The request of the tests with all headers and a request with the
    generic headers only, on a handler that prefers no provider. *)
Lemma X9_witness :
  let trip := RealIP.made (H := IPv4.net) noNext (preferring "") "traefik-real-ip" [] in
  RealIP.resolveRealIP backwards trip
    (requestWith [("X-Forwarded-For", "10.0.0.20"); ("X-Real-Ip", "10.0.0.20")])
  = RealIP.resolveRealIP inOrder trip (requestWith allHeaders).
Proof.
  intros trip.
  apply (X9_other_headers_ignored (H := IPv4.net) inOrder backwards trip);
    [apply made_wellFormed|done|done|reflexivity|reflexivity].
Defined.

(** X10: an address the handler of [src/real_ip.go] resolves a request
    to has passed the exclusion test of the handler: it is an address, it
    is in no excluded network and is no excluded address, and it carries
    no space around it. *)
Theorem X10_resolved_address_passes `{Net} {ResponseWriter : Type} (rt : Runtime)
    (trip trip' : RealIP.TraefikRealIP (ResponseWriter := ResponseWriter))
    (request : GoHTTP.Request) (realIP : string) :
  fairRuntime rt → RealIP.wellFormed trip →
  RealIP.resolveRealIP rt trip request = Some (realIP, trip') →
  realIP ≠ "" →
  excludedBy (RealIP.GetExcludedNetworks trip) (RealIP.GetExcludedAddresses trip) realIP = false
  ∧ is_Some (ParseIP realIP)
  ∧ GoStrings.TrimSpace realIP = realIP.
Proof.
  intros Hrt ((gp & Hg & Sg) & (cfp & Hc & Sc) & (qp & Hq & Sq)) E Hne.
  unfold RealIP.GetExcludedNetworks, RealIP.GetExcludedAddresses.
  assert (∃ key p, standard (RealIP.excludedNetworks trip) (RealIP.excludedAddresses trip) key p
                   ∧ realIP = (ProvidersPkg.GetRealIP rt p request).1) as (key & p & Sp & ->).
  { rewrite (resolveRealIP_eq rt trip request gp cfp qp Hg Hc Hq) in E. cbv zeta in E.
    rewrite (realip_answer rt trip request _ _ "generic" gp Sg) in E by auto.
    rewrite (realip_answer rt trip request _ _ "cloudflare" cfp Sc) in E by auto.
    rewrite (realip_answer rt trip request _ _ "qrator" qp Sq) in E by auto.
    repeat case_bool_decide; injection E as <- _; try done; eauto. }
  destruct (GetRealIP_accepted rt _ _ key p request Hrt Sp Hne) as [Hex Htrim].
  split; [done|]. split; [by apply excludedBy_parses in Hex|done].
Qed.

Lemma X10_witness :
  let trip := RealIP.made (H := IPv4.net) noNext
                (mkConfig ["127.0.0.1/24"] [] None "qrator") "traefik-real-ip"
                (omap IPv4.parseCIDR ["127.0.0.1/24"]) in
  excludedBy (RealIP.GetExcludedNetworks trip) (RealIP.GetExcludedAddresses trip) "10.0.0.30"
  = false.
Proof.
  intros trip.
  destruct (resolveRealIP_wellFormed inOrder trip (requestWith allHeaders)
              (made_wellFormed _ _ _ _)) as (realIP & trip' & E & _).
  assert (fst <$> RealIP.resolveRealIP inOrder trip (requestWith allHeaders)
          = Some "10.0.0.30") as Hr by (vm_compute; reflexivity).
  rewrite E in Hr. injection Hr as ->.
  exact (proj1 (X10_resolved_address_passes (H := IPv4.net) inOrder trip trip'
                  (requestWith allHeaders) "10.0.0.30" inOrder_fair
                  (made_wellFormed _ _ _ _) E ltac:(done))).
Defined.

(** ** The handler of the other [real_ip.go] *)

Section interface_more.
Context `{Net} {U : GoStrings.UnicodeTables} {ResponseWriter : Type}.
Implicit Types (trip : RealIPInterface.TraefikRealIP (ResponseWriter := ResponseWriter)).
Implicit Types (request : GoHTTP.Request) (next : Handler ResponseWriter).

(** What the handler holds after the first loop. *)
Lemma collected_kept rt trip request key :
  RealIPInterface.providersIPs (RealIPInterface.collected rt trip request) !! key
  = kept rt trip key request.
Proof.
  unfold kept. cbn [RealIPInterface.collected RealIPInterface.providersIPs
                    RealIPInterface.set_providersIPs].
  rewrite lookup_union, answers_answer.
  destruct (bool_decide _); by destruct (RealIPInterface.providersIPs trip !! key).
Qed.

Lemma find_rangeMap_any {V} o (m : gmap string V) (f : string * V → bool) :
  fair o →
  match List.find f (rangeMap o m) with
  | Some kv => m !! kv.1 = Some kv.2 ∧ f kv = true
  | None => ∀ k v, m !! k = Some v → f (k, v) = false
  end.
Proof.
  intros Ho. destruct (List.find f (rangeMap o m)) as [[k v]|] eqn:E.
  - apply find_some in E as [Hin Hf]. split; [|done].
    by apply (rangeMap_elem_of o m k v Ho), list_elem_of_In.
  - intros k v Hkv. apply (find_none _ _ E (k, v)).
    by apply list_elem_of_In, (rangeMap_elem_of o m k v Ho).
Qed.

(** The providers the loop of [New] has enabled. *)
Lemma enableProviders_dom o manager values acc ps :
  RealIPInterface.enableProviders o manager values acc = inr ps →
  ∀ key, is_Some (ps !! key)
         ↔ is_Some (acc !! key) ∨ ∃ v, v ∈ values ∧ normalized v = key.
Proof.
  revert acc. induction values as [|value rest IH]; intros acc; cbn [RealIPInterface.enableProviders].
  { intros [= <-] key. split; [by left|]. intros [?|(v & Hv & _)]; [done|].
    by apply elem_of_nil in Hv. }
  destruct (ProvidersPkg.IsValidProvider _ _ _); [|done].
  destruct (ProvidersPkg.GetProvider _ _) as [p|]; [|done].
  intros E key. rewrite (IH _ E key). fold (normalized value).
  destruct (decide (key = normalized value)) as [->|Hne].
  - rewrite lookup_insert_eq. split; intros _; [|by left; eexists].
    right. exists value. split; [by left|done].
  - rewrite lookup_insert_ne by done. split.
    + intros [?|(v & Hv & Ev)]; [by left|]. right. exists v. split; [by right|done].
    + intros [?|(v & Hv & Ev)]; [by left|]. right. exists v. split; [|done].
      apply elem_of_cons in Hv as [->|Hv]; [by destruct Hne|done].
Qed.

(** The providers [New] enables. *)
Lemma iface_New_enabled rt next config name trip :
  RealIPInterface.New rt next config name = inr trip →
  ∀ key, is_Some (RealIPInterface.GetProviders trip !! key)
         ↔ key = "generic"
           ∨ (elems (Providers config) = [] ∧ key ∈ names)
           ∨ ∃ v, v ∈ elems (Providers config) ∧ normalized v = key.
Proof.
  intros E. revert E. unfold RealIPInterface.New, RealIPInterface.GetProviders.
    destruct (parseExcludedNetworks _ _) as [e|nets]; [done|].
    cbn [RealIPInterface.GetExcludedNetworks RealIPInterface.GetExcludedAddresses
         RealIPInterface.excludedNetworks RealIPInterface.excludedAddresses
         RealIPInterface.providers].
    destruct (_ && _); [done|]. case_bool_decide as Hlen.
    + intros [= <-] key.
      match goal with
      | |- _ ↔ ?R =>
          change (is_Some (ProvidersPkg.providers
                             (ProvidersPkg.Initialize nets
                                (parseExcludedAddresses (ExcludedAddresses config))) !! key)
                  ↔ R)
      end.
      rewrite Initialize_lookup.
      destruct (elems (Providers config)) as [|v l] eqn:El; [|done].
      split.
      * intros Hk. right. left. split; [done|].
        revert Hk. unfold names. repeat case_bool_decide; subst; intros Hk;
          [by repeat constructor..|by destruct Hk].
      * intros [->|[[_ Hin]|(v & Hv & _)]]; [by eexists| |by apply elem_of_nil in Hv].
        repeat case_bool_decide; try by eexists. no_name Hin.
    + destruct (RealIPInterface.enableProviders _ _ _ _) as [e|ps] eqn:Eps; [done|].
      intros [= <-] key. cbn [RealIPInterface.providers RealIPInterface.set_providers].
      pose proof (enableProviders_dom _ _ _ _ _ Eps key) as Hdom.
      rewrite lookup_empty in Hdom.
      assert (is_Some (ps !! key) ↔ ∃ v, v ∈ elems (Providers config) ∧ normalized v = key)
        as Hdom'.
      { rewrite Hdom. split; [intros [[? ?]|?]; done|by right]. }
      assert (elems (Providers config) ≠ []) as Hne by (by intros Hnil; rewrite Hnil in Hlen).
      unfold ProvidersPkg.GetProvider. rewrite Initialize_lookup. simpl.
      destruct (ps !! "generic") as [g|] eqn:Eg.
      * rewrite Hdom'. split; [by right; right|].
        intros [->|[[? _]|?]]; [|done..]. apply Hdom'. by rewrite Eg; eexists.
      * destruct (decide (key = "generic")) as [->|Hk].
        { rewrite lookup_insert_eq. split; [by left|by eexists]. }
        rewrite lookup_insert_ne by done. rewrite Hdom'.
        split; [by right; right|]. by intros [?|[[? _]|?]].
Qed.

End interface_more.

(** X11: with a preferred provider, the handler of the other
    [real_ip.go] looks at two providers only, the preferred one and the
    generic one: for each it holds the answer to this request or, with no
    answer, the result it has on record from an earlier request. What it
    holds for the preferred provider is the address; without one, what
    it holds for the generic provider is. What the other providers
    answer has no part in it. *)
Theorem X11_preferred_or_generic `{Net} {ResponseWriter : Type} (rt : Runtime)
    (trip : RealIPInterface.TraefikRealIP (ResponseWriter := ResponseWriter))
    (request : GoHTTP.Request) :
  fair (rangeCollect rt) →
  RealIPInterface.HasPreferredProvider trip = true →
  (RealIPInterface.resolveRealIP rt trip request).1
  = default (default "" (kept rt trip "generic" request))
      (if bool_decide (RealIPInterface.GetPreferredProvider trip = "generic") then None
       else kept rt trip (RealIPInterface.GetPreferredProvider trip) request).
Proof.
  intros Ho Hpref. apply bool_decide_eq_true in Hpref.
  rewrite (iface_resolveRealIP_preferred rt trip request Ho Hpref). cbv zeta.
  unfold RealIPInterface.GetPreferredProvider.
  case_bool_decide as Hg.
  - by rewrite Hg, lookup_delete_eq, collected_kept.
  - by rewrite lookup_delete_ne, !collected_kept.
Qed.

(** The handler has a result of Qrator on record and the request comes
    without the header of Qrator: the result on record is the address. *)
Lemma X11_witness :
  (RealIPInterface.resolveRealIP (H := IPv4.net) backwards
     (RealIPInterface.mkTraefikRealIP noNext "traefik-real-ip" [] []
        (ProvidersPkg.providers (ProvidersPkg.Initialize [] [])) "qrator"
        {["qrator" := "10.0.0.30"]})
     direct).1 = "10.0.0.30".
Proof.
  rewrite (X11_preferred_or_generic (H := IPv4.net) backwards
             (RealIPInterface.mkTraefikRealIP noNext "traefik-real-ip" [] []
                (ProvidersPkg.providers (ProvidersPkg.Initialize [] [])) "qrator"
                {["qrator" := "10.0.0.30"]})
             direct (λ l, reverse_Permutation l) eq_refl).
  by vm_compute.
Defined.

(** X12: without a preferred provider, the handler of the other
    [real_ip.go] takes what it holds for an enabled provider other than
    the generic one, whenever it holds something for one; what it holds
    for the generic provider is the address only when it holds nothing
    for all the others. *)
Theorem X12_unpreferred_others_first `{Net} {ResponseWriter : Type} (rt : Runtime)
    (trip : RealIPInterface.TraefikRealIP (ResponseWriter := ResponseWriter))
    (request : GoHTTP.Request) :
  fair (rangeCollect rt) → fair (rangeSelect rt) →
  RealIPInterface.wellFormed trip →
  RealIPInterface.HasPreferredProvider trip = false →
  (∃ key, key ≠ "generic"
          ∧ is_Some (RealIPInterface.GetProviders trip !! key)
          ∧ kept rt trip key request
            = Some (RealIPInterface.resolveRealIP rt trip request).1)
  ∨ ((∀ key, key ≠ "generic" → is_Some (RealIPInterface.GetProviders trip !! key) →
             kept rt trip key request = None)
     ∧ (RealIPInterface.resolveRealIP rt trip request).1
       = default "" (kept rt trip "generic" request)).
Proof.
  intros Hc Hs [Hstd _] Hpref. unfold RealIPInterface.GetProviders.
  assert (RealIPInterface.preferredProvider trip = "") as Hp.
  { unfold RealIPInterface.HasPreferredProvider in Hpref.
    apply bool_decide_eq_false in Hpref. by destruct (decide (RealIPInterface.preferredProvider trip = "")). }
  rewrite (iface_resolveRealIP_unpreferred rt trip request Hc Hp). cbv zeta.
  set (c := RealIPInterface.collected rt trip request).
  pose proof (find_rangeMap_any (rangeSelect rt) (RealIPInterface.providers c)
    (λ entry, bool_decide (is_Some (delete "generic" (RealIPInterface.providersIPs c)
                                      !! ProvidersPkg.GetName entry.2))) Hs) as Hfind.
  assert (∀ key p', RealIPInterface.providers c !! key = Some p' →
                    ProvidersPkg.GetName p' = key
                    ∧ is_Some (RealIPInterface.providers trip !! key)) as Hname.
  { intros key p'. unfold c. rewrite collected_lookup.
    destruct (RealIPInterface.providers trip !! key) as [p|] eqn:E; [|done].
    intros [= <-]. split; [|by eexists].
    destruct (fillValues_standard _ _ _ _ request (Hstd key p E)) as ((k & _ & _ & En & _) & _).
    exact En. }
  destruct (List.find _ _) as [[k p']|].
  - left. destruct Hfind as [Hk Hf]. simpl in Hk, Hf.
    destruct (Hname k p' Hk) as [En Hen]. simpl. rewrite En in *.
    apply bool_decide_eq_true in Hf as [ip Hip].
    destruct (decide (k = "generic")) as [->|Hne]; [by rewrite lookup_delete_eq in Hip|].
    exists k. split; [done|]. split; [done|]. rewrite Hip. simpl.
    rewrite lookup_delete_ne in Hip by done. by rewrite <- collected_kept.
  - right. split; [|unfold c; by rewrite collected_kept].
    intros key Hne [p Hpkey]. rewrite <- collected_kept. fold c.
    assert (RealIPInterface.providers c !! key = Some (ProvidersPkg.fillValues p request)) as Hc'.
    { unfold c. by rewrite collected_lookup, Hpkey. }
    pose proof (Hfind key _ Hc') as Hf. simpl in Hf.
    destruct (Hname key _ Hc') as [En _]. rewrite En in Hf.
    apply bool_decide_eq_false in Hf. rewrite lookup_delete_ne in Hf by done.
    apply eq_None_not_Some. exact Hf.
Qed.

(** The request of the tests with all headers, on a handler with the
    three providers and no preferred one. *)
Lemma X12_witness :
  let trip := RealIPInterface.mkTraefikRealIP (H := IPv4.net) noNext "traefik-real-ip" [] []
                (ProvidersPkg.providers (ProvidersPkg.Initialize [] [])) "" ∅ in
  let request := requestWith allHeaders in
  (∃ key, key ≠ "generic"
          ∧ is_Some (RealIPInterface.GetProviders trip !! key)
          ∧ kept inOrder trip key request
            = Some (RealIPInterface.resolveRealIP inOrder trip request).1)
  ∨ ((∀ key, key ≠ "generic" → is_Some (RealIPInterface.GetProviders trip !! key) →
             kept inOrder trip key request = None)
     ∧ (RealIPInterface.resolveRealIP inOrder trip request).1
       = default "" (kept inOrder trip "generic" request)).
Proof.
  intros trip request.
  apply (X12_unpreferred_others_first (H := IPv4.net) inOrder trip request
           (λ l, Permutation_refl l) (λ l, Permutation_refl l)).
  - split; [|done]. intros key p Hp. by apply Initialize_standard in Hp as [Hp _].
  - by vm_compute.
Defined.

(** X13: the providers a handler [New] of the other [real_ip.go] has
    made can ask are the generic one, always; all three, when the
    configuration lists none; and else those the configuration lists,
    read without regard to case and to the space around the name. Each is
    the provider the registry holds under its name. *)
Theorem X13_enabled_providers `{Net} {U : GoStrings.UnicodeTables} {ResponseWriter : Type}
    (rt : Runtime)
    (next : Handler ResponseWriter) (config : Config) (name : string)
    (trip : RealIPInterface.TraefikRealIP) :
  RealIPInterface.New rt next config name = inr trip →
  (∀ key, is_Some (RealIPInterface.GetProviders trip !! key)
          ↔ key = "generic"
            ∨ (elems (Providers config) = [] ∧ key ∈ names)
            ∨ ∃ v, v ∈ elems (Providers config) ∧ normalized v = key)
  ∧ ∀ key p, RealIPInterface.GetProviders trip !! key = Some p →
             ProvidersPkg.GetProvider
               (ProvidersPkg.Initialize (RealIPInterface.GetExcludedNetworks trip)
                                        (RealIPInterface.GetExcludedAddresses trip)) key
             = Some p.
Proof.
  intros E. split.
  - by apply (iface_New_enabled rt next config name).
  - destruct (iface_New_inr _ _ _ _ _ E) as (nets & _ & _ & En & Ea & _ & _ & Hps & _).
    unfold RealIPInterface.GetProviders, RealIPInterface.GetExcludedNetworks,
      RealIPInterface.GetExcludedAddresses, ProvidersPkg.GetProvider.
    rewrite En, Ea. apply Hps.
Qed.

(** A list that names Cloudflare in capitals: Cloudflare and the generic
    provider are enabled, Qrator is not. *)
Lemma X13_witness :
  ∃ trip, RealIPInterface.New (H := IPv4.net) (U := ASCII.tables) inOrder noNext
            (mkConfig [] [] (Some [" CloudFlare "]) "") "traefik-real-ip" = inr trip
          ∧ is_Some (RealIPInterface.GetProviders trip !! "cloudflare")
          ∧ ¬ is_Some (RealIPInterface.GetProviders trip !! "qrator").
Proof.
  destruct (iface_New_ok (H := IPv4.net) (U := ASCII.tables) inOrder noNext
              (mkConfig [] [] (Some [" CloudFlare "]) "") "traefik-real-ip")
    as [trip E].
  { by intros l. }
  { intros v Hv. by apply elem_of_nil in Hv. }
  { intros p Hp. apply list_elem_of_singleton in Hp as ->. vm_compute.
    by repeat constructor. }
  { by left. }
  exists trip. split; [exact E|].
  pose proof (proj1 (X13_enabled_providers (H := IPv4.net) (U := ASCII.tables) inOrder noNext
                       (mkConfig [] [] (Some [" CloudFlare "]) "") "traefik-real-ip" trip E))
    as Hdom.
  split.
  - apply (proj2 (Hdom "cloudflare")). right. right. exists " CloudFlare ".
    split; [by left|reflexivity].
  - intros Hq. apply (proj1 (Hdom "qrator")) in Hq as [Hq|[[Hq _]|(v & Hv & Ev)]].
    + discriminate Hq.
    + discriminate Hq.
    + apply list_elem_of_singleton in Hv as ->. vm_compute in Ev. discriminate Ev.
Defined.

(** ** The handler of the other [real_ip.go] over several requests *)

Section interface_safety.
Context `{Net} {U : GoStrings.UnicodeTables} {ResponseWriter : Type}.
Implicit Types (trip : RealIPInterface.TraefikRealIP (ResponseWriter := ResponseWriter)).
Implicit Types (request : GoHTTP.Request) (next : Handler ResponseWriter).

Lemma iface_ServeHTTP_state rt trip (responseWriter : ResponseWriter) request :
  (RealIPInterface.ServeHTTP rt trip responseWriter request).1
  = (RealIPInterface.resolveRealIP rt trip request).2.
Proof.
  unfold RealIPInterface.ServeHTTP. by destruct (RealIPInterface.resolveRealIP rt trip request).
Qed.

(** An address the handler resolves a request to is one it holds after
    the first loop. *)
Lemma iface_result_kept rt trip request :
  fair (rangeCollect rt) →
  (RealIPInterface.resolveRealIP rt trip request).1 ≠ "" →
  ∃ key, kept rt trip key request = Some (RealIPInterface.resolveRealIP rt trip request).1.
Proof.
  intros Hc. destruct (decide (RealIPInterface.preferredProvider trip = "")) as [Hp|Hp].
  - rewrite (iface_resolveRealIP_unpreferred rt trip request Hc Hp). cbv zeta.
    destruct (List.find _ _) as [[k p]|] eqn:E.
    + apply find_some in E as [_ Hf]. apply bool_decide_eq_true in Hf as [ip Hip].
      simpl in *. rewrite Hip. simpl. intros _.
      apply lookup_delete_Some in Hip as [_ Hip]. eexists. by rewrite <- collected_kept.
    + rewrite collected_kept. destruct (kept rt trip "generic" request) as [ip|] eqn:Eg; [|done].
      intros _. by exists "generic".
  - rewrite (iface_resolveRealIP_preferred rt trip request Hc Hp). cbv zeta.
    destruct (delete "generic" _ !! _) as [ip|] eqn:E.
    + apply lookup_delete_Some in E as [_ E]. intros _. eexists. by rewrite <- collected_kept.
    + rewrite collected_kept. cbn [default].
      destruct (kept rt trip "generic" request) as [ip|] eqn:Eg; [|done].
      intros _. by exists "generic".
Qed.

(** What the handler holds after the first loop has passed the
    exclusion test. *)
Lemma kept_passes rt trip request key ip :
  fairRuntime rt → RealIPInterface.wellFormed trip → recordsPass trip →
  kept rt trip key request = Some ip →
  ip ≠ "" ∧ is_Some (RealIPInterface.providers trip !! key)
  ∧ excludedBy (RealIPInterface.excludedNetworks trip)
               (RealIPInterface.excludedAddresses trip) ip = false.
Proof.
  intros Hrt [Hstd _] Hrec. unfold kept, RealIPInterface.answer.
  case_bool_decide as Ha.
  - destruct (RealIPInterface.providers trip !! key) as [p|] eqn:E; [|done].
    simpl in *. intros [= <-]. split; [done|]. split; [by eexists|].
    by destruct (GetRealIP_accepted rt _ _ key p request Hrt (Hstd key p E) Ha).
  - intros Hold. by destruct (Hrec key ip Hold) as (_ & ? & ? & ?).
Qed.

Lemma iface_step_recordsPass rt trip request :
  fairRuntime rt → RealIPInterface.wellFormed trip → recordsPass trip →
  recordsPass (RealIPInterface.resolveRealIP rt trip request).2.
Proof.
  intros Hrt Hwf Hrec key ip.
  destruct (iface_resolveRealIP_fields rt trip request) as (_ & -> & -> & _ & -> & ->).
  { apply Hrt. }
  intros [Hne Hk]%lookup_delete_Some.
  change (RealIPInterface.providersIPs (RealIPInterface.collected rt trip request) !! key
          = Some ip) in Hk.
  rewrite collected_kept in Hk.
  destruct (kept_passes rt trip request key ip Hrt Hwf Hrec Hk) as (Hip & Hen & Hex).
  split; [done|]. split; [done|]. split; [|done]. rewrite lookup_fmap. by apply fmap_is_Some.
Qed.

(** The handler after any number of requests. *)
Lemma serveAllInterface_invariant trip (calls : list (Call ResponseWriter)) :
  Forall (λ call, fairRuntime call.1.1) calls →
  RealIPInterface.wellFormed trip → recordsPass trip →
  RealIPInterface.wellFormed (serveAllInterface trip calls)
  ∧ recordsPass (serveAllInterface trip calls)
  ∧ RealIPInterface.next (serveAllInterface trip calls) = RealIPInterface.next trip
  ∧ RealIPInterface.preferredProvider (serveAllInterface trip calls)
    = RealIPInterface.preferredProvider trip
  ∧ RealIPInterface.excludedNetworks (serveAllInterface trip calls)
    = RealIPInterface.excludedNetworks trip
  ∧ RealIPInterface.excludedAddresses (serveAllInterface trip calls)
    = RealIPInterface.excludedAddresses trip
  ∧ ∀ key, is_Some (RealIPInterface.providers (serveAllInterface trip calls) !! key)
           ↔ is_Some (RealIPInterface.providers trip !! key).
Proof.
  intros Hcalls. revert trip.
  induction Hcalls as [|[[rt responseWriter] request] calls Hrt _ IH]; intros trip Hwf Hrec.
  { cbn [serveAllInterface]. do 2 (split; [done|]). by repeat split. }
  cbn [serveAllInterface]. rewrite iface_ServeHTTP_state. simpl in Hrt.
  assert (fair (rangeCollect rt)) as Hc by apply Hrt.
  destruct (IH (RealIPInterface.resolveRealIP rt trip request).2)
    as (Hwf' & Hrec' & En & Ep & Enets & Eaddrs & Hdom).
  { by apply iface_resolveRealIP_wellFormed. }
  { by apply iface_step_recordsPass. }
  destruct (iface_resolveRealIP_fields rt trip request Hc) as (Fn & Fnets & Faddrs & Fp & Fps & _).
  do 2 (split; [done|]). repeat split; try congruence.
  - intros Hk. apply Hdom in Hk. rewrite Fps, lookup_fmap in Hk. by apply fmap_is_Some in Hk.
  - intros Hk. apply Hdom. rewrite Fps, lookup_fmap. by apply fmap_is_Some.
Qed.

Lemma iface_New_recordsPass rt next config name trip :
  RealIPInterface.New rt next config name = inr trip → recordsPass trip.
Proof.
  intros E key ip. destruct (iface_New_inr _ _ _ _ _ E) as (_ & _ & _ & _ & _ & _ & -> & _).
  by rewrite lookup_empty.
Qed.

Lemma GetRealIP_orders rt rt' (p : ProvidersPkg.Provider) request :
  rangeCloudflareValues rt' = rangeCloudflareValues rt →
  rangeQratorValues rt' = rangeQratorValues rt →
  ProvidersPkg.GetRealIP rt' p request = ProvidersPkg.GetRealIP rt p request.
Proof. intros Hcf Hq. unfold ProvidersPkg.GetRealIP. by rewrite Hcf, Hq. Qed.

Lemma collected_orders rt rt' trip request :
  rangeCloudflareValues rt' = rangeCloudflareValues rt →
  rangeQratorValues rt' = rangeQratorValues rt →
  RealIPInterface.collected rt' trip request = RealIPInterface.collected rt trip request.
Proof.
  intros Hcf Hq. unfold RealIPInterface.collected. f_equal. f_equal.
  apply map_eq. intros key. rewrite !answers_lookup.
  destruct (RealIPInterface.providers trip !! key) as [p|]; [|done].
  by rewrite (GetRealIP_orders rt rt' p request Hcf Hq).
Qed.

End interface_safety.

(** X14: however many requests a handler [New] of the other
    [real_ip.go] has made has served before, and although it keeps results
    of earlier requests, an address it resolves a request to has passed
    its exclusion test: it is an address, it is in no excluded network and
    is no excluded address. *)
Theorem X14_address_passes_after_any_requests `{Net} {U : GoStrings.UnicodeTables} {ResponseWriter : Type}
    (rt0 rt : Runtime) (next : Handler ResponseWriter) (config : Config) (name : string)
    (trip : RealIPInterface.TraefikRealIP) (calls : list (Call ResponseWriter))
    (request : GoHTTP.Request) :
  RealIPInterface.New rt0 next config name = inr trip →
  Forall (λ call, fairRuntime call.1.1) calls → fairRuntime rt →
  (RealIPInterface.resolveRealIP rt (serveAllInterface trip calls) request).1 ≠ "" →
  excludedBy (RealIPInterface.GetExcludedNetworks trip) (RealIPInterface.GetExcludedAddresses trip)
    (RealIPInterface.resolveRealIP rt (serveAllInterface trip calls) request).1 = false
  ∧ is_Some (ParseIP (RealIPInterface.resolveRealIP rt (serveAllInterface trip calls) request).1).
Proof.
  intros E Hcalls Hrt Hne.
  destruct (iface_New_wellFormed _ _ _ _ _ E) as [Hwf _].
  pose proof (iface_New_recordsPass _ _ _ _ _ E) as Hrec.
  destruct (serveAllInterface_invariant trip calls Hcalls Hwf Hrec)
    as (Hwf' & Hrec' & _ & _ & Enets & Eaddrs & _).
  assert (fair (rangeCollect rt)) as Hc by apply Hrt.
  destruct (iface_result_kept rt _ request Hc Hne) as [key Hk].
  destruct (kept_passes rt _ request key _ Hrt Hwf' Hrec' Hk) as (_ & _ & Hex).
  rewrite Enets, Eaddrs in Hex.
  split; [done|]. by apply excludedBy_parses in Hex.
Qed.

(** The handler of the tests that excludes 127.0.0.1/24, after a request
    through Qrator; the next request is resolved to the result on record. *)
Lemma X14_witness :
  ∃ trip, RealIPInterface.New (H := IPv4.net) (U := ASCII.tables) inOrder noNext
            (mkConfig ["127.0.0.1/24"] [] None "") "traefik-real-ip" = inr trip
          ∧ is_Some (IPv4.parseIPv4
                       (RealIPInterface.resolveRealIP backwards
                          (serveAllInterface trip [(inOrder, tt, throughQrator)]) direct).1).
Proof.
  destruct (iface_New_ok (H := IPv4.net) (U := ASCII.tables) inOrder noNext
              (mkConfig ["127.0.0.1/24"] [] None "") "traefik-real-ip")
    as [trip E].
  { by intros l. }
  { intros v Hv. apply list_elem_of_singleton in Hv as ->. by eexists. }
  { intros p Hp. by apply elem_of_nil in Hp. }
  { by left. }
  exists trip. split; [exact E|].
  refine (proj2 (X14_address_passes_after_any_requests (H := IPv4.net) (U := ASCII.tables) inOrder backwards noNext
                   (mkConfig ["127.0.0.1/24"] [] None "") "traefik-real-ip" trip
                   [(inOrder, tt, throughQrator)] direct E _ backwards_fair _)).
  - repeat constructor; by intros l.
  - assert (trip = RealIPInterface.mkTraefikRealIP noNext "traefik-real-ip"
                     (omap IPv4.parseCIDR ["127.0.0.1/24"]) []
                     (ProvidersPkg.providers
                        (ProvidersPkg.Initialize (omap IPv4.parseCIDR ["127.0.0.1/24"]) []))
                     "" ∅) as ->.
    { assert (inr trip = inr (B := RealIPInterface.TraefikRealIP) (A := error)
                (RealIPInterface.mkTraefikRealIP noNext "traefik-real-ip"
                     (omap IPv4.parseCIDR ["127.0.0.1/24"]) []
                     (ProvidersPkg.providers
                        (ProvidersPkg.Initialize (omap IPv4.parseCIDR ["127.0.0.1/24"]) []))
                     "" ∅)) as Heq by (rewrite <- E; reflexivity).
      by injection Heq. }
    by vm_compute.
Defined.

(** X15: [New] of the other [real_ip.go] takes a preferred provider
    that the list of providers does not name. Such a handler never asks
    its preferred provider, and what the providers it does ask answer is
    left aside: after any number of requests it resolves a request to
    what the generic provider answers. *)
Theorem X15_preferred_not_enabled `{Net} {U : GoStrings.UnicodeTables} {ResponseWriter : Type}
    (rt0 rt : Runtime) (next : Handler ResponseWriter) (config : Config) (name : string)
    (trip : RealIPInterface.TraefikRealIP) (calls : list (Call ResponseWriter))
    (request : GoHTTP.Request) :
  RealIPInterface.New rt0 next config name = inr trip →
  PreferredProvider config ≠ "" → PreferredProvider config ≠ "generic" →
  elems (Providers config) ≠ [] →
  (∀ v, v ∈ elems (Providers config) → normalized v ≠ PreferredProvider config) →
  Forall (λ call, fairRuntime call.1.1) calls → fair (rangeCollect rt) →
  (RealIPInterface.resolveRealIP rt (serveAllInterface trip calls) request).1
  = RealIPInterface.answer rt (serveAllInterface trip calls) "generic" request.
Proof.
  intros E Hp Hng Hlist Hnot Hcalls Hc.
  destruct (iface_New_wellFormed _ _ _ _ _ E) as [Hwf _].
  pose proof (iface_New_recordsPass _ _ _ _ _ E) as Hrec.
  destruct (serveAllInterface_invariant trip calls Hcalls Hwf Hrec)
    as ([_ Hgen] & Hrec' & _ & Epref & _ & _ & Hdom).
  destruct (iface_New_inr _ _ _ _ _ E) as (_ & _ & _ & _ & _ & Epref0 & _).
  set (t := serveAllInterface trip calls) in *.
  assert (RealIPInterface.preferredProvider t = PreferredProvider config) as Ept by congruence.
  assert (RealIPInterface.providers t !! PreferredProvider config = None) as Hoff.
  { apply eq_None_not_Some. intros Hen. apply Hdom in Hen.
    apply (iface_New_enabled _ _ _ _ _ E) in Hen as [?|[[? _]|(v & Hv & Ev)]]; [done..|].
    by apply (Hnot v). }
  assert (kept rt t (PreferredProvider config) request = None) as Hk.
  { unfold kept, RealIPInterface.answer. rewrite Hoff. simpl.
    apply eq_None_not_Some. intros [ip Hip].
    destruct (Hrec' _ _ Hip) as (_ & _ & Hen & _). rewrite Hoff in Hen. by destruct Hen. }
  rewrite (iface_resolveRealIP_preferred rt t request Hc) by (by rewrite Ept).
  cbv zeta. rewrite Ept, lookup_delete_ne, !collected_kept, Hk by done. simpl.
  unfold kept. rewrite Hgen. case_bool_decide as Ha; [done|].
  simpl. by destruct (decide (RealIPInterface.answer rt t "generic" request = "")) as [->|].
Qed.

(** Cloudflare is the only provider listed and Qrator is preferred. *)
Lemma X15_witness :
  ∃ trip, RealIPInterface.New (H := IPv4.net) (U := ASCII.tables) inOrder noNext
            (mkConfig [] [] (Some ["cloudflare"]) "qrator") "traefik-real-ip" = inr trip
          ∧ (RealIPInterface.resolveRealIP inOrder (serveAllInterface trip [])
               (requestWith allHeaders)).1
            = RealIPInterface.answer inOrder (serveAllInterface trip []) "generic"
                (requestWith allHeaders).
Proof.
  destruct (iface_New_ok (H := IPv4.net) (U := ASCII.tables) inOrder noNext
              (mkConfig [] [] (Some ["cloudflare"]) "qrator") "traefik-real-ip")
    as [trip E].
  { by intros l. }
  { intros v Hv. by apply elem_of_nil in Hv. }
  { intros p Hp. apply list_elem_of_singleton in Hp as ->. vm_compute. by repeat constructor. }
  { right. by repeat constructor. }
  exists trip. split; [exact E|].
  refine (X15_preferred_not_enabled (H := IPv4.net) (U := ASCII.tables) inOrder inOrder noNext
           (mkConfig [] [] (Some ["cloudflare"]) "qrator") "traefik-real-ip" trip []
           (requestWith allHeaders) E _ _ _ _ _ _).
  - discriminate.
  - discriminate.
  - discriminate.
  - intros v Hv. apply list_elem_of_singleton in Hv as ->. vm_compute. discriminate.
  - constructor.
  - intros l. reflexivity.
Defined.

(** X16: the order in which the first loop of [ServeHTTP] of the other
    [real_ip.go] visits the providers has no effect on the handler it
    leaves; and with a preferred provider the orders of the loops over the
    providers have no effect on the address either. The orders meant are
    those of the ranges over the map of providers; the order in which a
    provider visits its own values is the same on both sides. *)
Theorem X16_provider_order_irrelevant `{Net} {ResponseWriter : Type} (rt rt' : Runtime)
    (trip : RealIPInterface.TraefikRealIP (ResponseWriter := ResponseWriter))
    (request : GoHTTP.Request) :
  fair (rangeCollect rt) → fair (rangeCollect rt') →
  rangeCloudflareValues rt' = rangeCloudflareValues rt →
  rangeQratorValues rt' = rangeQratorValues rt →
  RealIPInterface.collect rt' trip request = RealIPInterface.collect rt trip request
  ∧ (RealIPInterface.HasPreferredProvider trip = true →
     RealIPInterface.resolveRealIP rt' trip request
     = RealIPInterface.resolveRealIP rt trip request).
Proof.
  intros Hc Hc' Hcf Hq.
  pose proof (collected_orders rt rt' trip request Hcf Hq) as Ecol.
  split; [by rewrite !collect_collected|].
  intros Hpref. apply bool_decide_eq_true in Hpref.
  rewrite (surjective_pairing (RealIPInterface.resolveRealIP rt' trip request)),
          (surjective_pairing (RealIPInterface.resolveRealIP rt trip request)).
  rewrite !iface_resolveRealIP_state, !iface_resolveRealIP_preferred by done.
  cbv zeta. by rewrite Ecol.
Qed.

Lemma X16_witness :
  let trip := RealIPInterface.mkTraefikRealIP (H := IPv4.net) noNext "traefik-real-ip" [] []
                (ProvidersPkg.providers (ProvidersPkg.Initialize [] [])) "cloudflare" ∅ in
  let rt' := mkRuntime (rangeCloudflareValues inOrder) (rangeQratorValues inOrder)
                       reverse reverse reverse in
  RealIPInterface.resolveRealIP rt' trip (requestWith allHeaders)
  = RealIPInterface.resolveRealIP inOrder trip (requestWith allHeaders).
Proof.
  intros trip rt'.
  apply (proj2 (X16_provider_order_irrelevant (H := IPv4.net) inOrder rt' trip
                  (requestWith allHeaders)
                  (λ l, Permutation_refl l) (λ l, reverse_Permutation l) eq_refl eq_refl)).
  reflexivity.
Defined.

(** ** The errors of [New] *)

Section new_errors.
Context `{Net}.

Lemma parseExcludedNetworks_first before bad after acc :
  (∀ v, v ∈ before → is_Some (ParseCIDR v)) → ParseCIDR bad = None →
  parseExcludedNetworks (before ++ bad :: after) acc = inl (ParseError "CIDR address" bad).
Proof.
  intros Hbefore Hbad. revert acc.
  induction before as [|v before IH]; intros acc; simpl.
  { by rewrite Hbad. }
  destruct (Hbefore v) as [n ->]; [by left|].
  apply IH. intros w Hw. apply Hbefore. by right.
Qed.

Lemma parseExcludedNetworks_omap values acc nets :
  parseExcludedNetworks values acc = inr nets → nets = acc ++ omap ParseCIDR values.
Proof.
  revert acc. induction values as [|v values IH]; intros acc; simpl.
  { intros [= <-]. by rewrite app_nil_r. }
  destruct (ParseCIDR v) as [n|]; [|done].
  intros E. rewrite (IH _ E). by rewrite <- app_assoc.
Qed.

End new_errors.

(** X17: the error of [New] for a configuration with an excluded
    network that is no CIDR is the error of the parser for the first such
    entry, in both [real_ip.go], whatever else is wrong with the
    configuration. *)
Theorem X17_first_malformed_network `{Net} {U : GoStrings.UnicodeTables} {ResponseWriter : Type} (rt : Runtime)
    (next : Handler ResponseWriter) (config : Config) (name : string)
    (before : list string) (bad : string) (after : list string) :
  ExcludedNetworks config = before ++ bad :: after →
  (∀ v, v ∈ before → is_Some (ParseCIDR v)) → ParseCIDR bad = None →
  RealIP.New next config name = inl (ParseError "CIDR address" bad)
  ∧ RealIPInterface.New rt next config name = inl (ParseError "CIDR address" bad).
Proof.
  intros E Hbefore Hbad. unfold RealIP.New, RealIPInterface.New.
  by rewrite E, (parseExcludedNetworks_first before bad after [] Hbefore Hbad).
Qed.

(** Two entries that are no CIDR, and a preferred provider and a
    provider that do not exist. *)
Lemma X17_witness :
  RealIP.New (H := IPv4.net) noNext
    (mkConfig ["127.0.0.1/24"; "first"; "second"] [] (Some ["nobody"]) "nobody")
    "traefik-real-ip"
  = inl (ParseError "CIDR address" "first").
Proof.
  refine (proj1 (X17_first_malformed_network (H := IPv4.net) (U := ASCII.tables) inOrder noNext
                   (mkConfig ["127.0.0.1/24"; "first"; "second"] [] (Some ["nobody"]) "nobody")
                   "traefik-real-ip" ["127.0.0.1/24"] "first" ["second"] eq_refl _ _)).
  - intros v Hv. apply list_elem_of_singleton in Hv as ->. by eexists.
  - reflexivity.
Defined.

(** X18: with excluded networks that parse, a preferred provider that
    is none of the three names is the error of [New], whatever the list of
    providers holds: [src/real_ip.go] names the provider and the three it
    supports, the other [real_ip.go] returns
    [ErrorInvalidPreferredProvider]. The name is compared as it is
    written. *)
Theorem X18_preferred_checked_first `{Net} {U : GoStrings.UnicodeTables} {ResponseWriter : Type} (rt : Runtime)
    (next : Handler ResponseWriter) (config : Config) (name : string) :
  fair (rangeAvailable rt) →
  (∀ v, v ∈ ExcludedNetworks config → is_Some (ParseCIDR v)) →
  PreferredProvider config ≠ "" → PreferredProvider config ∉ names →
  RealIP.New next config name
  = inl (errorString
           ("preferred provider " +:+ PreferredProvider config
            +:+ " is not valid, only the following ones are supported: "
            +:+ "generic, cloudflare, qrator"))
  ∧ RealIPInterface.New rt next config name = inl ProvidersPkg.ErrorInvalidPreferredProvider.
Proof.
  intros Ho Hnets Hp Hnot. unfold RealIP.New, RealIPInterface.New.
  rewrite (parseExcludedNetworks_inr _ [] Hnets).
  cbn [RealIPInterface.GetExcludedNetworks RealIPInterface.GetExcludedAddresses
       RealIPInterface.excludedNetworks RealIPInterface.excludedAddresses].
  rewrite (IsValidProvider_names _ _ _ _ Ho).
  unfold RealIP.IsValidProvider. cbn [RealIP.availableProviders].
  rewrite existsb_elem_of.
  change ["generic"; "cloudflare"; "qrator"] with names.
  rewrite (bool_decide_eq_true_2 _ Hp), (bool_decide_eq_false_2 _ Hnot).
  done.
Qed.

(** Cloudflare with a capital is no preferred provider, although the
    other [real_ip.go] takes it in the list of providers. *)
Lemma X18_witness :
  RealIPInterface.New (H := IPv4.net) (U := ASCII.tables) inOrder noNext
    (mkConfig [] [] (Some ["Cloudflare"; "nobody"]) "Cloudflare") "traefik-real-ip"
  = inl ProvidersPkg.ErrorInvalidPreferredProvider.
Proof.
  refine (proj2 (X18_preferred_checked_first (H := IPv4.net) (U := ASCII.tables) inOrder noNext
                   (mkConfig [] [] (Some ["Cloudflare"; "nobody"]) "Cloudflare")
                   "traefik-real-ip" (λ l, Permutation_refl l) _ _ _)).
  - intros v Hv. by apply elem_of_nil in Hv.
  - discriminate.
  - intros Hin. no_name Hin.
Defined.

(** ** The exclusion test and the configuration *)

Section exclusion_more.
Context `{Net}.

Lemma excludedBy_config config nets address :
  parseExcludedNetworks (ExcludedNetworks config) [] = inr nets →
  excludedBy nets (parseExcludedAddresses (ExcludedAddresses config)) address = true
  ↔ excludedByConfig config address.
Proof.
  intros E. apply parseExcludedNetworks_omap in E. simpl in E. subst nets.
  unfold excludedBy, excludedByConfig.
  destruct (ParseIP address) as [ip|] eqn:Eip.
  - rewrite (isExcludedIP_parsed _ address ip Eip). simpl.
    unfold parseExcludedAddresses. split.
    + intros [(n & Hn & Hc)|(a & Ha & He)].
      * apply list_elem_of_omap in Hn as (v & Hv & Ev). left. by exists v, n.
      * apply list_elem_of_omap in Ha as (v & Hv & Ev). right. by exists v, a.
    + intros [(v & n & Hv & Ev & Hc)|(v & a & Hv & Ev & He)].
      * left. exists n. split; [|done]. apply list_elem_of_omap. by exists v.
      * right. exists a. split; [|done]. apply list_elem_of_omap. by exists v.
  - by rewrite (isExcludedIP_unparsed _ address Eip).
Qed.

End exclusion_more.

(** X19: the exclusion test only grows with the exclusion set: an
    address a provider refuses is refused by every provider whose
    networks and addresses include those of the first. *)
Theorem X19_exclusion_monotone `{Net} (p p' : ProvidersPkg.Provider) (address : string) :
  (∀ n, n ∈ ProvidersPkg.getExcludedNetworks p → n ∈ ProvidersPkg.getExcludedNetworks p') →
  (∀ a, a ∈ ProvidersPkg.getExcludedAddresses p → a ∈ ProvidersPkg.getExcludedAddresses p') →
  ProvidersPkg.isExcludedIP p address = true →
  ProvidersPkg.isExcludedIP p' address = true.
Proof.
  intros Hnets Haddrs. unfold ProvidersPkg.getExcludedNetworks, ProvidersPkg.getExcludedAddresses in *.
  destruct (ParseIP address) as [ip|] eqn:Eip; [|intros _; by apply isExcludedIP_unparsed].
  rewrite !(isExcludedIP_parsed _ address ip Eip).
  intros [(n & Hn & Hc)|(a & Ha & He)]; [left; exists n|right; exists a]; auto.
Qed.

Lemma X19_witness :
  ProvidersPkg.isExcludedIP
    (ProvidersPkg.InitializeGenericProvider (H := IPv4.net)
       (omap IPv4.parseCIDR ["10.0.0.0/8"; "127.0.0.1/24"]) (omap IPv4.parseIPv4 ["10.0.0.1"]))
    "127.0.0.2" = true.
Proof.
  apply (X19_exclusion_monotone (H := IPv4.net)
           (ProvidersPkg.InitializeGenericProvider (omap IPv4.parseCIDR ["127.0.0.1/24"]) [])).
  - intros n Hn. apply list_elem_of_singleton in Hn as ->. right. left.
  - intros a Ha. by apply elem_of_nil in Ha.
  - reflexivity.
Defined.

(** X20: from the configuration to the exclusion test. Every provider
    of a handler [New] has made, in both [real_ip.go], refuses exactly
    what the configuration excludes: what is no address, the addresses
    in an excluded network of the configuration, and the excluded
    addresses of the configuration that parse. *)
Theorem X20_providers_exclude_as_configured `{Net} {U : GoStrings.UnicodeTables} {ResponseWriter : Type} (rt : Runtime)
    (next : Handler ResponseWriter) (config : Config) (name : string) (address : string) :
  (∀ trip p,
     RealIP.New next config name = inr trip →
     RealIP.genericProvider trip = Some p ∨ RealIP.cloudflareProvider trip = Some p
       ∨ RealIP.qratorProvider trip = Some p →
     ProvidersPkg.isExcludedIP p address = true ↔ excludedByConfig config address)
  ∧ (∀ trip key p,
       RealIPInterface.New rt next config name = inr trip →
       RealIPInterface.GetProviders trip !! key = Some p →
       ProvidersPkg.isExcludedIP p address = true ↔ excludedByConfig config address).
Proof.
  split.
  - intros trip p E Hp. destruct (New_inr _ _ _ _ E) as (nets & Enets & ->).
    rewrite <- (excludedBy_config config nets address Enets).
    destruct (made_wellFormed next config name nets)
      as ((gp & Hg & Sg) & (cfp & Hc & Sc) & (qp & Hq & Sq)).
    destruct Hp as [Hp|[Hp|Hp]].
    + rewrite Hg in Hp. injection Hp as <-. by rewrite (isExcludedIP_excludedBy _ _ _ _ address Sg).
    + rewrite Hc in Hp. injection Hp as <-. by rewrite (isExcludedIP_excludedBy _ _ _ _ address Sc).
    + rewrite Hq in Hp. injection Hp as <-. by rewrite (isExcludedIP_excludedBy _ _ _ _ address Sq).
  - intros trip key p E Hp.
    destruct (iface_New_inr _ _ _ _ _ E) as (nets & Enets & _ & En & Ea & _).
    destruct (iface_New_wellFormed _ _ _ _ _ E) as [[Hstd _] _].
    rewrite <- (excludedBy_config config nets address Enets).
    rewrite (isExcludedIP_excludedBy _ _ _ _ address (Hstd key p Hp)).
    by rewrite En, Ea.
Qed.

Lemma X20_witness :
  let config := mkConfig ["127.0.0.1/24"] ["invalid"; "10.0.0.1"] None "" in
  ProvidersPkg.isExcludedIP
    (ProvidersPkg.InitializeQratorProvider (H := IPv4.net)
       (omap IPv4.parseCIDR (ExcludedNetworks config))
       (omap IPv4.parseIPv4 (ExcludedAddresses config)))
    "10.0.0.1" = true.
Proof.
  intros config.
  apply (proj1 (X20_providers_exclude_as_configured (H := IPv4.net) (U := ASCII.tables) inOrder noNext config
                  "traefik-real-ip" "10.0.0.1")
           (RealIP.made noNext config "traefik-real-ip" (omap IPv4.parseCIDR ["127.0.0.1/24"]))
           _ eq_refl (or_intror (or_intror eq_refl))).
  right. exists "10.0.0.1", 167772161%Z. split; [by right; left|]. split; reflexivity.
Defined.

(** X21: the default configuration of [CreateConfig] is one [New]
    takes, in both [real_ip.go]: the handler made prefers no provider, can
    ask the three providers, and refuses nothing but what is no
    address. *)
Theorem X21_default_configuration `{Net} {U : GoStrings.UnicodeTables} {ResponseWriter : Type} (rt : Runtime)
    (next : Handler ResponseWriter) (name : string) :
  (∃ trip, RealIP.New next CreateConfig name = inr trip
           ∧ RealIP.HasPreferredProvider trip = false
           ∧ is_Some (RealIP.genericProvider trip)
           ∧ is_Some (RealIP.cloudflareProvider trip)
           ∧ is_Some (RealIP.qratorProvider trip))
  ∧ (∃ trip, RealIPInterface.New rt next CreateConfig name = inr trip
             ∧ RealIPInterface.HasPreferredProvider trip = false
             ∧ ∀ key, is_Some (RealIPInterface.GetProviders trip !! key) ↔ key ∈ names)
  ∧ ∀ address, excludedByConfig CreateConfig address ↔ ParseIP address = None.
Proof.
  split; [|split].
  - eexists. split; [reflexivity|]. by repeat split.
  - eexists. split; [reflexivity|]. split; [done|]. intros key.
    unfold RealIPInterface.GetProviders. cbn [RealIPInterface.providers RealIPInterface.set_providers].
    unfold ProvidersPkg.GetProviders. rewrite Initialize_lookup. unfold names.
    repeat case_bool_decide; subst; split; intros Hk;
      try (by eexists); try (by repeat constructor); try (by destruct Hk).
    no_name Hk.
  - intros address. unfold excludedByConfig. destruct (ParseIP address) as [ip|]; [|done].
    split; [|done]. simpl.
    intros [(v & n & Hv & _)|(v & a & Hv & _)]; by apply elem_of_nil in Hv.
Qed.

(** ** The generic provider, whatever it holds *)

(** X22: the generic provider resolves a request to the first candidate
    that is not excluded, where the candidates are the value it holds
    for [X-Real-Ip] after it has read the request, as one value, followed
    by the tokens of the value it holds for [X-Forwarded-For], split on
    commas and trimmed, from left to right; the result is empty when no
    candidate passes. On a provider as it is initialised the values it
    holds are the trimmed values of the request. *)
Theorem X22_generic_first_non_excluded `{Net} :
  (∀ gp request,
     (ProvidersPkg.GenericProvider_GetRealIP gp request).1
     = firstNonExcluded (ProvidersPkg.isExcludedIP gp)
         (genericCandidates (candidate gp request "X-Real-Ip")
                            (candidate gp request "X-Forwarded-For")))
  ∧ (∀ nets addrs request,
       (ProvidersPkg.GenericProvider_GetRealIP
          (ProvidersPkg.InitializeGenericProvider nets addrs) request).1
       = firstNonExcluded (excludedBy nets addrs)
           (genericCandidates (requestValue request "X-Real-Ip")
                              (requestValue request "X-Forwarded-For"))).
Proof.
  split; [apply GenericProvider_GetRealIP_result|]. intros nets addrs request.
  rewrite GenericProvider_GetRealIP_result.
  rewrite !candidate_fresh; try done; simpl; set_solver.
Qed.

(** ** The first request of a handler *)

Section first_request.
Context `{Net} {U : GoStrings.UnicodeTables} {ResponseWriter : Type}.
Implicit Types (request : GoHTTP.Request) (next : Handler ResponseWriter).

Lemma generic_fresh nets addrs request :
  (ProvidersPkg.GenericProvider_GetRealIP
     (ProvidersPkg.InitializeGenericProvider nets addrs) request).1
  = genericValue nets addrs request.
Proof.
  rewrite GenericProvider_GetRealIP_result.
  rewrite !candidate_fresh; try done; simpl; repeat constructor.
Qed.

Lemma qrator_fresh o nets addrs request :
  fair o →
  (ProvidersPkg.QratorProvider_GetRealIP o
     (ProvidersPkg.QratorProvider_Initialize nets addrs) request).1
  = qratorValue nets addrs request.
Proof.
  intros Ho.
  assert (standard nets addrs "qrator" (ProvidersPkg.QratorProvider_Initialize nets addrs))
    as Hstd.
  { split; [exists ProvidersPkg.Qrator; naive_solver|]. by repeat split. }
  rewrite (QratorProvider_GetRealIP_standard o nets addrs _ request Ho Hstd).
  unfold qratorValue, ProvidersPkg._qratorProviderXQratorIPSourceHeader.
  rewrite candidate_fresh by (try done; simpl; repeat constructor).
  destruct (requestValue request "X-Qrator-IP-Source") as [v|]; [|done]. simpl.
  by rewrite !firstNonExcluded_cons, (isExcludedIP_excludedBy nets addrs "qrator" _ v Hstd).
Qed.

End first_request.

(** X23: the first request of a handler that prefers Qrator, and has
    it enabled, is resolved from the headers of the request alone, in
    both [real_ip.go]: to the trimmed value of [X-Qrator-IP-Source] when
    there is one and it passes the exclusion test, and else to what the
    generic headers give, which is the value of [X-Real-Ip] when it
    passes and else the first token of [X-Forwarded-For] that does. *)
Theorem X23_first_request_prefers_qrator `{Net} {U : GoStrings.UnicodeTables}
    {ResponseWriter : Type} (rt0 rt : Runtime) (next : Handler ResponseWriter)
    (config : Config) (name : string) (request : GoHTTP.Request) :
  fairRuntime rt → PreferredProvider config = "qrator" →
  (∀ trip : RealIP.TraefikRealIP,
     RealIP.New next config name = inr trip →
     fst <$> RealIP.resolveRealIP rt trip request
     = Some (if bool_decide (qratorValue (RealIP.GetExcludedNetworks trip)
                               (RealIP.GetExcludedAddresses trip) request ≠ "")
             then qratorValue (RealIP.GetExcludedNetworks trip)
                    (RealIP.GetExcludedAddresses trip) request
             else genericValue (RealIP.GetExcludedNetworks trip)
                    (RealIP.GetExcludedAddresses trip) request))
  ∧ (∀ trip : RealIPInterface.TraefikRealIP,
       RealIPInterface.New rt0 next config name = inr trip →
       is_Some (RealIPInterface.GetProviders trip !! "qrator") →
       (RealIPInterface.resolveRealIP rt trip request).1
       = if bool_decide (qratorValue (RealIPInterface.GetExcludedNetworks trip)
                           (RealIPInterface.GetExcludedAddresses trip) request ≠ "")
         then qratorValue (RealIPInterface.GetExcludedNetworks trip)
                (RealIPInterface.GetExcludedAddresses trip) request
         else genericValue (RealIPInterface.GetExcludedNetworks trip)
                (RealIPInterface.GetExcludedAddresses trip) request).
Proof.
  intros (_ & Hq & _ & Hc & _) Hpref. split.
  - intros trip E. destruct (New_inr _ _ _ _ E) as (nets & _ & ->).
    rewrite (resolveRealIP_eq rt (RealIP.made next config name nets) request _ _ _
               eq_refl eq_refl eq_refl).
    cbn [RealIP.made RealIP.preferredProvider RealIP.GetExcludedNetworks
         RealIP.GetExcludedAddresses RealIP.excludedNetworks RealIP.excludedAddresses].
    rewrite Hpref. cbv zeta.
    rewrite (bool_decide_eq_false_2 ("qrator" = "cloudflare")) by done.
    rewrite (bool_decide_eq_true_2 ("qrator" = "qrator")) by done.
    unfold RealIP.answer. cbn [RealIP.qratorProvider RealIP.genericProvider from_option].
    rewrite (bool_decide_eq_false_2 ("qrator" = "generic")) by done.
    rewrite (bool_decide_eq_false_2 ("qrator" = "cloudflare")) by done.
    rewrite (bool_decide_eq_true_2 ("qrator" = "qrator")) by done.
    rewrite (bool_decide_eq_true_2 ("generic" = "generic")) by done.
    change (RealIP.qratorProvider (RealIP.made next config name nets))
      with (Some (ProvidersPkg.QratorProvider_Initialize nets
                    (parseExcludedAddresses (ExcludedAddresses config)))).
    change (RealIP.genericProvider (RealIP.made next config name nets))
      with (Some (ProvidersPkg.InitializeGenericProvider nets
                    (parseExcludedAddresses (ExcludedAddresses config)))).
    cbn [from_option].
    rewrite (qrator_fresh _ _ _ request Hq), generic_fresh.
    case_bool_decide as Ha; [by rewrite bool_decide_eq_false_2 by (by intros ?)|].
    by rewrite bool_decide_eq_true_2.
  - intros trip E Hen.
    destruct (iface_New_inr _ _ _ _ _ E) as (nets & _ & _ & En & Ea & Ep & Eips & Hps & [gp Hgp]).
    destruct Hen as [qp Hqp].
    unfold RealIPInterface.GetProviders, RealIPInterface.GetExcludedNetworks,
      RealIPInterface.GetExcludedAddresses in *.
    pose proof (Hps _ _ Hqp) as Hq'. pose proof (Hps _ _ Hgp) as Hg'.
    rewrite Initialize_lookup in Hq', Hg'. simpl in Hq', Hg'.
    injection Hq' as <-. injection Hg' as <-.
    assert (RealIPInterface.answer rt trip "qrator" request
            = qratorValue (RealIPInterface.excludedNetworks trip)
                (RealIPInterface.excludedAddresses trip) request) as Aq.
    { unfold RealIPInterface.answer. rewrite Hqp. simpl.
      unfold ProvidersPkg.GetRealIP. simpl. rewrite En, Ea. by apply qrator_fresh. }
    assert (RealIPInterface.answer rt trip "generic" request
            = genericValue (RealIPInterface.excludedNetworks trip)
                (RealIPInterface.excludedAddresses trip) request) as Ag.
    { unfold RealIPInterface.answer. rewrite Hgp. simpl.
      unfold ProvidersPkg.GetRealIP. simpl. rewrite En, Ea. by apply generic_fresh. }
    assert (RealIPInterface.preferredProvider trip ≠ "") as Hne by (by rewrite Ep, Hpref).
    destruct (iface_preferred_rule rt trip request Hc Hne) as [Hyes Hno].
    rewrite Ep, Hpref in Hyes, Hno. rewrite Aq, Ag in *.
    case_bool_decide as Ha; [by apply Hyes|].
    apply Hno; [done|by rewrite Eips..].
Qed.

(** The tests of the repository that prefer Qrator, with and without
    its header. *)
Lemma X23_witness :
  let withoutQrator :=
    requestWith [("X-Forwarded-For", "10.0.0.20"); ("X-Real-Ip", "10.0.0.20");
                 ("True-Client-IP", "10.0.0.40"); ("CF-Connecting-IP", "10.0.0.40")] in
  let trip := RealIP.made (H := IPv4.net) noNext (preferring "qrator") "traefik-real-ip" [] in
  fst <$> RealIP.resolveRealIP inOrder trip (requestWith allHeaders) = Some "10.0.0.30"
  ∧ fst <$> RealIP.resolveRealIP inOrder trip withoutQrator = Some "10.0.0.20".
Proof.
  intros withoutQrator trip. split.
  - rewrite (proj1 (X23_first_request_prefers_qrator (H := IPv4.net) (U := ASCII.tables)
                      inOrder inOrder noNext (preferring "qrator") "traefik-real-ip"
                      (requestWith allHeaders) inOrder_fair eq_refl) trip eq_refl).
    by vm_compute.
  - rewrite (proj1 (X23_first_request_prefers_qrator (H := IPv4.net) (U := ASCII.tables)
                      inOrder inOrder noNext (preferring "qrator") "traefik-real-ip"
                      withoutQrator inOrder_fair eq_refl) trip eq_refl).
    by vm_compute.
Defined.
